(** * Connect-Four session server: shallow embedding of [server.js]

    The development follows the layout of the source file: the pure board
    engine ([emptyBoard], [checkWin], [getWinningCells], [isBoardFull]), the
    series statistics helpers, the four process-wide tables, and one function
    per socket event handler.  Handlers are functions from the server state to
    a new state and the list of messages and timers they produce; the id
    drawn by [generateGameId] and the clock value read by [Date.now] are
    inputs of the events that use them.  The column of a move is whatever
    value the payload holds: an integer number is modelled exactly, any
    other value by what the JavaScript runtime makes of it at each place
    where the handler uses it. *)

From Stdlib Require Import ZArith Lia List Bool Ascii String.
From stdpp Require Import base tactics option list strings gmap fin_maps.

Import ListNotations.
Local Open Scope Z_scope.

(** ** Data model *)

(** The two disc colours, the strings ["red"] and ["yellow"]. *)
Inductive color := Red | Yellow.

#[global] Instance color_eq_dec : EqDecision color.
Proof. solve_decision. Defined.

(** A board cell: the empty string, or a colour. *)
Inductive cell := Empty | Disc (p : color).

#[global] Instance cell_eq_dec : EqDecision cell.
Proof. solve_decision. Defined.

(** The board is an array of rows, each an array of cells; row 0 is the top
    row and row 5 the bottom one. *)
Abbreviation grid := (list (list cell)).

(** [emptyBoard]: six rows of seven empty strings. *)
Definition emptyBoard : grid := replicate 6 (replicate 7 Empty).

(** [board[r][c]] as a JavaScript read: [None] stands for [undefined], which
    is what an index outside the arrays yields. *)
Definition cell_at (b : grid) (r c : Z) : option cell :=
  if (0 <=? r) && (0 <=? c)
  then match b !! Z.to_nat r with
       | Some cells => cells !! Z.to_nat c
       | None => None
       end
  else None.

(** [board[row][col] = v].  Every write of the program is inside the 6 by 7
    grid, where an array assignment replaces the element; outside it the
    JavaScript array would grow, the list stays as it is. *)
Definition set_cell (b : grid) (row col : Z) (v : cell) : grid :=
  alter (fun cells => <[Z.to_nat col := v]> cells) (Z.to_nat row) b.

(** The shape every board of the program has. *)
Definition board_wf (b : grid) : Prop :=
  length b = 6%nat /\ Forall (fun cells => length cells = 7%nat) b.

(** ** Board engine *)

(** The loop guard [r >= 0 && r < 6 && c >= 0 && c < 7 && board[r][c] === player]. *)
Definition in_grid (r c : Z) : bool :=
  (0 <=? r) && (r <? 6) && (0 <=? c) && (c <? 7).

Definition same_color (b : grid) (r c : Z) (player : color) : bool :=
  in_grid r c && bool_decide (cell_at b r c = Some (Disc player)).

(** The four axes, each as its pair of opposite unit steps. *)
Definition dirs : list ((Z * Z) * (Z * Z)) :=
  [ ((0, 1), (0, -1));      (* horizontal *)
    ((1, 0), (-1, 0));      (* vertical *)
    ((1, 1), (-1, -1));     (* diagonal down-right *)
    ((1, -1), (-1, 1)) ].   (* diagonal down-left *)

(** The inner [while] loop of [checkWin], with [count] threaded through.
    The loop advances one cell per iteration and stays inside the grid, so
    it runs at most seven times; [fuel] bounds the iterations. *)
Fixpoint countRun (fuel : nat) (b : grid) (player : color)
    (r c dx dy : Z) (count : Z) : Z :=
  match fuel with
  | O => count
  | S fuel' =>
      if same_color b r c player
      then countRun fuel' b player (r + dx) (c + dy) dx dy (count + 1)
      else count
  end.

Definition scan_fuel : nat := 7.

(** The body of the [for (let dir of dirs)] loop of [checkWin]. *)
Definition countAxis (fuel : nat) (row col : Z) (b : grid) (player : color)
    (dir : (Z * Z) * (Z * Z)) : Z :=
  let '((dx1, dy1), (dx2, dy2)) := dir in
  let count := 1 in
  let count := countRun fuel b player (row + dx1) (col + dy1) dx1 dy1 count in
  let count := countRun fuel b player (row + dx2) (col + dy2) dx2 dy2 count in
  count.

Definition checkWin_fuel (fuel : nat) (row col : Z) (b : grid) (player : color) : bool :=
  existsb (fun dir => 4 <=? countAxis fuel row col b player dir) dirs.

Definition checkWin (row col : Z) (b : grid) (player : color) : bool :=
  checkWin_fuel scan_fuel row col b player.

(** The inner [while] loop of [getWinningCells]: the same walk, pushing the
    visited coordinates onto [cells]. *)
Fixpoint collectRun (fuel : nat) (b : grid) (player : color)
    (r c dx dy : Z) (cells : list (Z * Z)) : list (Z * Z) :=
  match fuel with
  | O => cells
  | S fuel' =>
      if same_color b r c player
      then collectRun fuel' b player (r + dx) (c + dy) dx dy (cells ++ [(r, c)])
      else cells
  end.

Definition collectAxis (fuel : nat) (row col : Z) (b : grid) (player : color)
    (dir : (Z * Z) * (Z * Z)) : list (Z * Z) :=
  let '((dx1, dy1), (dx2, dy2)) := dir in
  let cells := [(row, col)] in
  let cells := collectRun fuel b player (row + dx1) (col + dy1) dx1 dy1 cells in
  let cells := collectRun fuel b player (row + dx2) (col + dy2) dx2 dy2 cells in
  cells.

(** The four cells built from [firstCell], [lastCell] and [Math.sign]. *)
Definition fourFrom (cells : list (Z * Z)) (row col : Z) : list (Z * Z) :=
  let firstCell := hd (row, col) cells in
  let lastCell := List.last cells (row, col) in
  let dx := Z.sgn (fst lastCell - fst firstCell) in
  let dy := Z.sgn (snd lastCell - snd firstCell) in
  map (fun i => (fst firstCell + dx * i, snd firstCell + dy * i)) [0; 1; 2; 3].

Fixpoint winningCellsIn (fuel : nat) (ds : list ((Z * Z) * (Z * Z)))
    (row col : Z) (b : grid) (player : color) : list (Z * Z) :=
  match ds with
  | [] => []
  | dir :: ds' =>
      let cells := collectAxis fuel row col b player dir in
      if (4 <=? length cells)%nat
      then fourFrom cells row col
      else winningCellsIn fuel ds' row col b player
  end.

Definition getWinningCells (row col : Z) (b : grid) (player : color) : list (Z * Z) :=
  winningCellsIn scan_fuel dirs row col b player.

(** [isBoardFull]: every cell of [board[0]] differs from the empty string. *)
Definition isBoardFull (b : grid) : bool :=
  match b !! 0%nat with
  | Some top => forallb (fun v => negb (bool_decide (v = Empty))) top
  | None => false
  end.

(** The number of discs on the board. *)
Definition occupied (v : cell) : bool :=
  match v with Empty => false | Disc _ => true end.

Definition discsRow (cells : list cell) : nat :=
  length (List.filter occupied cells).

Definition discs (b : grid) : nat :=
  foldr (fun cells n => (discsRow cells + n)%nat) 0%nat b.

(** ** The column of a move *)

(** A property key of a board row, as [board[r][c]] resolves the value
    [c]: the canonical decimal string of an integer, which selects a cell
    of the row when the integer is between 0 and 6; a key the row has from
    the start without being a cell (["length"], or the name of an inherited
    property), which always reads a truthy value that is no colour; or any
    other key, which reads [undefined] until a move assigns to it. *)
Inductive slot :=
| Index (i : Z)
| Extra (k : string)
| Preset.

#[global] Instance slot_eq_dec : EqDecision slot.
Proof. solve_decision. Defined.

(** The second component of an entry of [winningCells]: an integer, or
    another value, kept as its string. *)
Inductive coordinate := Column (n : Z) | Value (text : string).

#[global] Instance coordinate_eq_dec : EqDecision coordinate.
Proof. solve_decision. Defined.

(** What the runtime makes of a column value that is not an integer number
    (a fraction, a string, an array, [null], [true], [undefined], ...),
    at each place where the program uses it:
    - [key] is the property key of [board[r][col]];
    - [passes] is the outcome of [!(col < 0 || col > 6)] when the key is
      no index (an index key is the string of the number the comparison
      sees, which decides the test);
    - [reach d k] is the value of [c] after [k] additions of the step [d]
      to [col] ([c = col + d], then [c += d]): [None] when
      [c >= 0 && c < 7] is false, else the key of [board[r][c]] (for an
      index key the comparison is again decided by the index);
    - [mark d k i] is [firstCell[1] + (dy * i)] in [getWinningCells] when
      [lastCell[1]] is the value reached by [k] additions of [d]. *)
Record coerced := Coerced {
  key : slot;
  passes : bool;
  reach : Z -> nat -> option slot;
  mark : Z -> nat -> Z -> coordinate
}.

(** The [col] field of a [makeMove] payload: an integer number; another
    value; or an object that cannot be converted to a primitive, on which
    the comparison [col < 0] throws. *)
Inductive column :=
| Whole (n : Z)
| Coerces (v : coerced)
| Unconvertible.

Definition slotOf (col : column) : slot :=
  match col with
  | Whole n => Index n
  | Coerces v => key v
  | Unconvertible => Preset
  end.

(** [col < 0 || col > 6]; [None] when the comparison throws. *)
Definition outOfRange (col : column) : option bool :=
  match col with
  | Whole n => Some ((n <? 0) || (n >? 6))
  | Coerces v =>
      Some match key v with
           | Index i => (i <? 0) || (i >? 6)
           | _ => negb (passes v)
           end
  | Unconvertible => None
  end.

(** ** Sessions, series statistics and pending rematches *)

Inductive game_status := Waiting | Playing | Finished | Abandoned.

#[global] Instance game_status_eq_dec : EqDecision game_status.
Proof. solve_decision. Defined.

(** The non-null values of [game.winner]: a colour, or the string ["draw"]. *)
Inductive result := Won (p : color) | Draw.

#[global] Instance result_eq_dec : EqDecision result.
Proof. solve_decision. Defined.

(** [game.players].  A seat holds a socket id or [null]; socket ids are
    non-empty strings, so a seat is falsy exactly when it is [null]. *)
Record seats := Seats {
  red : option string;
  redName : option string;
  yellow : option string;
  yellowName : option string
}.

(** A session.  [offGrid] holds the properties that moves have assigned
    to the row arrays of [board] under keys that are no cells: the entry
    at [(r, k)] is the value of [board[r][k]]. *)
Record game := Game {
  board : grid;
  currentPlayer : color;
  players : seats;
  winner : option result;
  winningCells : list (Z * coordinate);
  status : game_status;
  createdAt : Z;
  lastMoveAt : option Z;
  moves : Z;
  originalGameId : string;
  gameNumber : Z;
  offGrid : gmap (Z * string) color
}.

(** One side of a series, the object [{ id, name, wins }]; its [id] and
    [name] fields are [sideId] and [sideName] here. *)
Record side := Side {
  sideId : option string;
  sideName : option string;
  wins : Z
}.

(** The stats of a series; its [red] and [yellow] fields are [statsRed]
    and [statsYellow] here.  The counters are JavaScript numbers holding
    integers, as are [moves] and [gameNumber] of a session. *)
Record stats := Stats {
  seriesId : string;
  statsRed : side;
  statsYellow : side;
  gamesPlayed : Z
}.

Record rematch := Rematch {
  gameId : string;
  requester : string;
  opponent : string;
  timestamp : Z
}.

(** The four process-wide tables. *)
Record server := Server {
  games : gmap string game;
  playerStats : gmap string stats;
  playerNames : gmap string string;
  pendingRematches : gmap string rematch
}.

Definition init : server := Server ∅ ∅ ∅ ∅.

(** Field assignments. *)
Definition set_board (b : grid) (g : game) : game :=
  Game b (currentPlayer g) (players g) (winner g) (winningCells g) (status g)
       (createdAt g) (lastMoveAt g) (moves g) (originalGameId g) (gameNumber g)
       (offGrid g).

Definition set_currentPlayer (p : color) (g : game) : game :=
  Game (board g) p (players g) (winner g) (winningCells g) (status g)
       (createdAt g) (lastMoveAt g) (moves g) (originalGameId g) (gameNumber g)
       (offGrid g).

Definition set_players (ps : seats) (g : game) : game :=
  Game (board g) (currentPlayer g) ps (winner g) (winningCells g) (status g)
       (createdAt g) (lastMoveAt g) (moves g) (originalGameId g) (gameNumber g)
       (offGrid g).

Definition set_winner (w : option result) (g : game) : game :=
  Game (board g) (currentPlayer g) (players g) w (winningCells g) (status g)
       (createdAt g) (lastMoveAt g) (moves g) (originalGameId g) (gameNumber g)
       (offGrid g).

Definition set_winningCells (cs : list (Z * coordinate)) (g : game) : game :=
  Game (board g) (currentPlayer g) (players g) (winner g) cs (status g)
       (createdAt g) (lastMoveAt g) (moves g) (originalGameId g) (gameNumber g)
       (offGrid g).

Definition set_status (st : game_status) (g : game) : game :=
  Game (board g) (currentPlayer g) (players g) (winner g) (winningCells g) st
       (createdAt g) (lastMoveAt g) (moves g) (originalGameId g) (gameNumber g)
       (offGrid g).

Definition set_lastMoveAt (t : option Z) (g : game) : game :=
  Game (board g) (currentPlayer g) (players g) (winner g) (winningCells g) (status g)
       (createdAt g) t (moves g) (originalGameId g) (gameNumber g) (offGrid g).

Definition set_moves (n : Z) (g : game) : game :=
  Game (board g) (currentPlayer g) (players g) (winner g) (winningCells g) (status g)
       (createdAt g) (lastMoveAt g) n (originalGameId g) (gameNumber g) (offGrid g).

Definition set_offGrid (m : gmap (Z * string) color) (g : game) : game :=
  Game (board g) (currentPlayer g) (players g) (winner g) (winningCells g) (status g)
       (createdAt g) (lastMoveAt g) (moves g) (originalGameId g) (gameNumber g) m.

Definition set_red (v : option string) (ps : seats) : seats :=
  Seats v (redName ps) (yellow ps) (yellowName ps).

Definition set_yellow (v : option string) (ps : seats) : seats :=
  Seats (red ps) (redName ps) v (yellowName ps).

Definition set_yellowName (v : option string) (ps : seats) : seats :=
  Seats (red ps) (redName ps) (yellow ps) v.

Definition set_wins (n : Z) (sd : side) : side :=
  Side (sideId sd) (sideName sd) n.

Definition set_games (m : gmap string game) (s : server) : server :=
  Server m (playerStats s) (playerNames s) (pendingRematches s).

Definition set_playerStats (m : gmap string stats) (s : server) : server :=
  Server (games s) m (playerNames s) (pendingRematches s).

Definition set_playerNames (m : gmap string string) (s : server) : server :=
  Server (games s) (playerStats s) m (pendingRematches s).

Definition set_pendingRematches (m : gmap string rematch) (s : server) : server :=
  Server (games s) (playerStats s) (playerNames s) m.

(** ** Output of a handler *)

(** The outbound events with their payloads. *)
Inductive message :=
| nameSet (success : bool) (name : string)
| gameCreated (gid : string) (c : color) (pname : string) (number : Z)
| errorMsg (text : string)
| gameJoined (gid : string) (c : color) (pname : string) (number : Z)
| playerJoined (ps : seats)
| gameUpdate (g : game)
| statsUpdate (st : stats)
| moveAnimation (row : Z) (col : column) (c : color)
| rematchRequested (fromPlayer gid : string)
| rematchRequestSent (toPlayer : string)
| rematchStarted (newGameId seriesKey : string) (number : Z) (ps : seats)
| rematchDeclined (byPlayer : string)
| opponentLeft (text : string) (autoReturn : bool) (opponentName : string).

(** The two callbacks handed to [setTimeout]: the delayed broadcast after a
    move and the delayed removal of a session. *)
Inductive timer := broadcastMove (gid : string) | removeGame (gid : string).

(** What a handler asks of the transport and of the timer queue.  A socket
    is the only member of the room named by its own id, so [socket.emit] is
    [Emit] to that room; [io.to(x).emit] and [socket.to(x).emit] are [Emit]
    to room [x]; [EmitUndefined] is [io.to(undefined).emit], a message to
    the room [undefined], of which no socket is a member.  [Uncaught] closes
    the output of a handler that ends in an uncaught [TypeError] instead of
    returning. *)
Inductive effect :=
| Emit (room : string) (m : message)
| EmitUndefined (m : message)
| Join (sock room : string)
| Leave (sock room : string)
| SetTimeout (t : timer) (delay : Z)
| Uncaught.

(** How a handler ends: by returning, or by an uncaught [TypeError] after
    the state changes and messages made so far. *)
Inductive completion :=
| Returns (s : server) (out : list effect)
| Throws (s : server) (out : list effect).

Definition state_of (k : completion) : server :=
  match k with Returns s _ | Throws s _ => s end.

Definition output_of (k : completion) : list effect :=
  match k with Returns _ out | Throws _ out => out end.

(** ** Keys of the tables *)

(** The four tables are plain objects, so a key that is not stored in a
    table still reads a value when it names a property of
    [Object.prototype]: a function, or the prototype itself under
    ["__proto__"].  Such a value is truthy and has none of the fields of a
    session or of a pending rematch.  The keys stored in the tables are ids
    drawn by [generateGameId] and socket ids, which are never such names. *)
Definition inheritedName (k : string) : bool :=
  bool_decide (k ∈ [ "constructor"; "__proto__"; "hasOwnProperty"; "isPrototypeOf";
                     "propertyIsEnumerable"; "toLocaleString"; "toString"; "valueOf";
                     "__defineGetter__"; "__defineSetter__"; "__lookupGetter__";
                     "__lookupSetter__" ]).

(** ** Display names *)

(** White space removed by [trim], for the one-byte characters a Rocq
    string holds: tab, line feed, vertical tab, form feed, carriage return
    and space. *)
Definition is_space (a : ascii) : bool :=
  let n := nat_of_ascii a in
  ((9 <=? n) && (n <=? 13))%nat || (n =? 32)%nat.

Fixpoint trimStart (s : string) : string :=
  match s with
  | EmptyString => EmptyString
  | String a s' => if is_space a then trimStart s' else s
  end.

Fixpoint trimEnd (s : string) : string :=
  match s with
  | EmptyString => EmptyString
  | String a s' =>
      match trimEnd s' with
      | EmptyString => if is_space a then EmptyString else String a EmptyString
      | t => String a t
      end
  end.

Definition trim (s : string) : string := trimEnd (trimStart s).

(** [`Player_${socket.id.substring(0, 4)}`]. *)
Definition defaultName (sock : string) : string :=
  String.append "Player_" (substring 0 4 sock).

(** [playerNames[sock] || fallback]: the empty string is falsy. *)
Definition nameOr (s : server) (sock fallback : string) : string :=
  match playerNames s !! sock with
  | Some n => if bool_decide (n = EmptyString) then fallback else n
  | None => fallback
  end.

(** ** Series statistics *)

(** [initializePlayerStats]; the stats object it returns is not used by its
    caller. *)
Definition initializePlayerStats (gid : string) (redPlayerId yellowPlayerId : option string)
    (redNm yellowNm : option string) (s : server) : server :=
  match playerStats s !! gid with
  | Some _ => s
  | None =>
      set_playerStats
        (<[gid := Stats gid (Side redPlayerId redNm 0) (Side yellowPlayerId yellowNm 0) 0]>
           (playerStats s)) s
  end.

(** [updatePlayerStats]. *)
Definition updatePlayerStats (gid : string) (w : result) (s : server) : server :=
  match playerStats s !! gid with
  | None => s
  | Some st =>
      let st := Stats (seriesId st) (statsRed st) (statsYellow st) (gamesPlayed st + 1) in
      let st :=
        match w with
        | Won Red =>
            Stats (seriesId st) (set_wins (wins (statsRed st) + 1) (statsRed st))
                  (statsYellow st) (gamesPlayed st)
        | Won Yellow =>
            Stats (seriesId st) (statsRed st)
                  (set_wins (wins (statsYellow st) + 1) (statsYellow st)) (gamesPlayed st)
        | Draw => st
        end in
      set_playerStats (<[gid := st]> (playerStats s)) s
  end.

(** ** Event handlers *)

(** [setPlayerName]. *)
Definition setPlayerName (sock name : string) (s : server) : server * list effect :=
  let stored :=
    if bool_decide (trim name <> EmptyString)
    then substring 0 15 (trim name)
    else defaultName sock in
  (set_playerNames (<[sock := stored]> (playerNames s)) s,
   [Emit sock (nameSet true stored)]).

(** [createGame]; [gid] is the id drawn by [generateGameId]. *)
Definition createGame (sock gid : string) (now : Z) (s : server) : server * list effect :=
  let pname := nameOr s sock (defaultName sock) in
  let g :=
    Game emptyBoard Red (Seats (Some sock) (Some pname) None None) None [] Waiting
         now None 0 gid 1 ∅ in
  (set_games (<[gid := g]> (games s)) s,
   [Join sock gid; Emit sock (gameCreated gid Red pname 1); Emit gid (gameUpdate g)]).

(** [joinGame].  Under an inherited name that is no key of [games] the
    handler finds a value without [players], and reading [players.yellow]
    throws. *)
Definition joinGame (sock gid : string) (s : server) : server * list effect :=
  match games s !! gid with
  | None =>
      if inheritedName gid
      then (s, [Uncaught])
      else (s, [Emit sock (errorMsg "Game not found. Please check the Game ID.")])
  | Some g =>
      match yellow (players g) with
      | Some _ => (s, [Emit sock (errorMsg "Game is already full. Please join another game.")])
      | None =>
          let pname := nameOr s sock (defaultName sock) in
          let g := set_players (set_yellow (Some sock) (players g)) g in
          let g := set_players (set_yellowName (Some pname) (players g)) g in
          let g := set_status Playing g in
          let s := set_games (<[gid := g]> (games s)) s in
          let s := initializePlayerStats (originalGameId g) (red (players g))
                     (yellow (players g)) (redName (players g)) (yellowName (players g)) s in
          (s,
           [Join sock gid;
            Emit sock (gameJoined gid Yellow pname (gameNumber g));
            Emit gid (playerJoined (players g));
            Emit gid (gameUpdate g)]
           ++ match playerStats s !! originalGameId g with
              | Some st => [Emit gid (statsUpdate st)]
              | None => []
              end)
      end
  end.

(** The [for (let r = 5; r >= 0; r--)] scan of [makeMove]: the first row of
    [rows] whose cell in column [col] is falsy (empty, or [undefined]),
    else the initial [-1]. *)
Fixpoint dropScan (b : grid) (col : Z) (rows : list Z) : Z :=
  match rows with
  | [] => -1
  | r :: rows' =>
      match cell_at b r col with
      | Some (Disc _) => dropScan b col rows'
      | _ => r
      end
  end.

Definition dropRow (b : grid) (col : Z) : Z := dropScan b col [5; 4; 3; 2; 1; 0].

(** [color === "red" ? "yellow" : "red"]. *)
Definition other (c : color) : color :=
  match c with Red => Yellow | Yellow => Red end.

(** The scan over the rows of a key that is no cell. *)
Fixpoint dropScanOff (off : gmap (Z * string) color) (k : string) (rows : list Z) : Z :=
  match rows with
  | [] => -1
  | r :: rows' =>
      match off !! (r, k) with
      | Some _ => dropScanOff off k rows'
      | None => r
      end
  end.

(** The scan for any key: an index reads the cells, a key the rows have
    from the start is truthy in every row, any other key reads what moves
    have assigned to it. *)
Definition dropRowAt (g : game) (sl : slot) : Z :=
  match sl with
  | Index i => dropRow (board g) i
  | Extra k => dropScanOff (offGrid g) k [5; 4; 3; 2; 1; 0]
  | Preset => -1
  end.

(** [game.board[row][col] = color].  The assignment is reached only with a
    key that read a falsy value, which a key the rows have from the start
    never does. *)
Definition setAt (row : Z) (sl : slot) (c : color) (g : game) : game :=
  match sl with
  | Index i => set_board (set_cell (board g) row i (Disc c)) g
  | Extra k => set_offGrid (<[(row, k) := c]> (offGrid g)) g
  | Preset => g
  end.

(** The loop guard of [checkWin] and [getWinningCells] for a column value
    that is no integer number: [at_] is what [reach] says of [c]. *)
Definition sameAt (b : grid) (off : gmap (Z * string) color) (r : Z) (at_ : option slot)
    (player : color) : bool :=
  match at_ with
  | Some (Index j) => same_color b r j player
  | Some (Extra k) => (0 <=? r) && (r <? 6) && bool_decide (off !! (r, k) = Some player)
  | Some Preset | None => false
  end.

(** The inner loop of [checkWin] for such a value: [k] counts the
    additions of the step [d] made to [col] so far.  Each iteration meets
    one more property holding the player's colour, so the loop runs at most
    as often as there are cells in a row and properties off the grid. *)
Fixpoint countWalk (fuel : nat) (b : grid) (off : gmap (Z * string) color)
    (player : color) (v : coerced) (r dx d : Z) (k : nat) (count : Z) : Z :=
  match fuel with
  | O => count
  | S fuel' =>
      if sameAt b off r (reach v d k) player
      then countWalk fuel' b off player v (r + dx) dx d (S k) (count + 1)
      else count
  end.

Definition walk_fuel (off : gmap (Z * string) color) : nat := (7 + size off)%nat.

Definition countAxisWalk (fuel : nat) (row : Z) (v : coerced) (b : grid)
    (off : gmap (Z * string) color) (player : color) (dir : (Z * Z) * (Z * Z)) : Z :=
  let '((dx1, dy1), (dx2, dy2)) := dir in
  let count := 1 in
  let count := countWalk fuel b off player v (row + dx1) dx1 dy1 1 count in
  let count := countWalk fuel b off player v (row + dx2) dx2 dy2 1 count in
  count.

Definition checkWinWalk (row : Z) (v : coerced) (b : grid) (off : gmap (Z * string) color)
    (player : color) : bool :=
  existsb (fun dir => 4 <=? countAxisWalk (walk_fuel off) row v b off player dir) dirs.

(** The inner loop of [getWinningCells] for such a value.  A visited cell
    is kept as its row and the step and number of additions that lead to
    its second component; the first cell [[row, col]] is [(row, (0, 0))]. *)
Fixpoint collectWalk (fuel : nat) (b : grid) (off : gmap (Z * string) color)
    (player : color) (v : coerced) (r dx d : Z) (k : nat) (cells : list (Z * (Z * nat)))
    : list (Z * (Z * nat)) :=
  match fuel with
  | O => cells
  | S fuel' =>
      if sameAt b off r (reach v d k) player
      then collectWalk fuel' b off player v (r + dx) dx d (S k) (cells ++ [(r, (d, k))])
      else cells
  end.

Definition collectAxisWalk (fuel : nat) (row : Z) (v : coerced) (b : grid)
    (off : gmap (Z * string) color) (player : color) (dir : (Z * Z) * (Z * Z))
    : list (Z * (Z * nat)) :=
  let '((dx1, dy1), (dx2, dy2)) := dir in
  let cells := [(row, (0, 0%nat))] in
  let cells := collectWalk fuel b off player v (row + dx1) dx1 dy1 1 cells in
  let cells := collectWalk fuel b off player v (row + dx2) dx2 dy2 1 cells in
  cells.

Definition fourWalk (v : coerced) (cells : list (Z * (Z * nat))) (row : Z)
    : list (Z * coordinate) :=
  let firstCell := hd (row, (0, 0%nat)) cells in
  let lastCell := List.last cells (row, (0, 0%nat)) in
  let dx := Z.sgn (fst lastCell - fst firstCell) in
  map (fun i => (fst firstCell + dx * i, mark v (fst (snd lastCell)) (snd (snd lastCell)) i))
      [0; 1; 2; 3].

Fixpoint winningCellsWalk (fuel : nat) (ds : list ((Z * Z) * (Z * Z)))
    (row : Z) (v : coerced) (b : grid) (off : gmap (Z * string) color) (player : color)
    : list (Z * coordinate) :=
  match ds with
  | [] => []
  | dir :: ds' =>
      let cells := collectAxisWalk fuel row v b off player dir in
      if (4 <=? length cells)%nat
      then fourWalk v cells row
      else winningCellsWalk fuel ds' row v b off player
  end.

Definition getWinningCellsWalk (row : Z) (v : coerced) (b : grid)
    (off : gmap (Z * string) color) (player : color) : list (Z * coordinate) :=
  winningCellsWalk (walk_fuel off) dirs row v b off player.

(** Repeated addition of a non-zero step never comes back to a key:
    numbers grow or shrink with every addition, strings get longer.  This
    is what bounds the loops above. *)
Definition distinct_steps (v : coerced) : Prop :=
  forall d k1 k2 sl, d <> 0 ->
    reach v d k1 = Some sl -> reach v d k2 = Some sl -> k1 = k2.

(** The keys that can hold a colour in a row: its seven cells and the
    properties set off the grid. *)
Definition candidates (off : gmap (Z * string) color) : list slot :=
  (Index <$> [0; 1; 2; 3; 4; 5; 6])
  ++ ((fun kv : (Z * string) * color => Extra (snd (fst kv))) <$> map_to_list off).

(** The calls [checkWin(row, col, game.board, color)] and
    [getWinningCells(row, col, game.board, color)] of [makeMove]: the
    board is the grid together with the properties off the grid. *)
Definition checkWinAt (row : Z) (col : column) (b : grid) (off : gmap (Z * string) color)
    (player : color) : bool :=
  match col with
  | Whole n => checkWin row n b player
  | Coerces v => checkWinWalk row v b off player
  | Unconvertible => false
  end.

Definition getWinningCellsAt (row : Z) (col : column) (b : grid)
    (off : gmap (Z * string) color) (player : color) : list (Z * coordinate) :=
  match col with
  | Whole n => map (fun rc => (fst rc, Column (snd rc))) (getWinningCells row n b player)
  | Coerces v => getWinningCellsWalk row v b off player
  | Unconvertible => []
  end.

(** [makeMove].  The claimed colour is one of the two colour strings: in
    a session any other value differs from [game.currentPlayer] and is
    turned away by the same test.  Under an inherited name that is no key
    of [games] the handler finds a value without [winner] and
    [currentPlayer], which the same test turns away for either colour. *)
Definition makeMove (sock gid : string) (col : column) (c : color) (now : Z) (s : server)
    : server * list effect :=
  match games s !! gid with
  | None =>
      if inheritedName gid
      then (s, [Emit sock (errorMsg "It's not your turn.")])
      else (s, [Emit sock (errorMsg "Game not found.")])
  | Some g =>
      if bool_decide (is_Some (winner g))
      then (s, [Emit sock (errorMsg "Game has already ended.")])
      else if bool_decide (currentPlayer g <> c)
      then (s, [Emit sock (errorMsg "It's not your turn.")])
      else if bool_decide (red (players g) = None) || bool_decide (yellow (players g) = None)
      then (s, [Emit sock (errorMsg "Waiting for opponent to join.")])
      else
        match outOfRange col with
        | None => (s, [Uncaught])
        | Some true => (s, [Emit sock (errorMsg "Invalid column.")])
        | Some false =>
            let row := dropRowAt g (slotOf col) in
            if row =? -1
            then (s, [Emit sock (errorMsg "Column is full. Choose another column.")])
            else
              let g := setAt row (slotOf col) c g in
              let g := set_moves (moves g + 1) g in
              let g := set_lastMoveAt (Some now) g in
              let '(g, s) :=
                if checkWinAt row col (board g) (offGrid g) c
                then
                  let g := set_winner (Some (Won c)) g in
                  let g :=
                    set_winningCells
                      (getWinningCellsAt row col (board g) (offGrid g) c) g in
                  let g := set_status Finished g in
                  (g, updatePlayerStats (originalGameId g) (Won c) s)
                else if isBoardFull (board g)
                then (set_status Finished (set_winner (Some Draw) g), s)
                else (set_currentPlayer (other c) g, s) in
              (set_games (<[gid := g]> (games s)) s,
               [Emit gid (moveAnimation row col c); SetTimeout (broadcastMove gid) 500])
        end
  end.

(** [requestRematch].  Under an inherited name that is no key of [games]
    the handler finds a value without [players], and reading [players.red]
    throws. *)
Definition requestRematch (sock gid : string) (now : Z) (s : server) : server * list effect :=
  match games s !! gid with
  | Some (Game _ _ (Seats (Some r) _ (Some y) _) _ _ _ _ _ _ _ _ _) =>
      let requestingPlayer := sock in
      let opponentId := if bool_decide (r = requestingPlayer) then y else r in
      (set_pendingRematches
         (<[gid := Rematch gid requestingPlayer opponentId now]> (pendingRematches s)) s,
       [Emit opponentId (rematchRequested (nameOr s requestingPlayer "Opponent") gid);
        Emit sock (rematchRequestSent (nameOr s opponentId "Opponent"))])
  | Some _ => (s, [Emit sock (errorMsg "Cannot request rematch.")])
  | None =>
      if inheritedName gid
      then (s, [Uncaught])
      else (s, [Emit sock (errorMsg "Cannot request rematch.")])
  end.

(** The room migration of [acceptRematch], for one seat. *)
Definition migrate (seat : option string) (oldId newId : string) : list effect :=
  match seat with
  | Some playerId => [Leave playerId oldId; Join playerId newId]
  | None => []
  end.

(** [acceptRematch]; [newGameId] is the id drawn by [generateGameId].  The
    new session is stored before the old one is deleted, and the
    [rematchStarted] payload reads [games[newGameId].players] after the
    deletion.  Under an inherited name that is no key of
    [pendingRematches] the handler finds a value whose [opponent] is
    [undefined], which differs from every socket id: the refusal of a
    missing entry. *)
Definition acceptRematch (sock gid newGameId : string) (now : Z) (s : server) : completion :=
  match pendingRematches s !! gid with
  | None => Returns s [Emit sock (errorMsg "Invalid rematch acceptance.")]
  | Some pending =>
      if bool_decide (opponent pending <> sock)
      then Returns s [Emit sock (errorMsg "Invalid rematch acceptance.")]
      else
        match games s !! gid with
        | None => Returns s [Emit sock (errorMsg "Game not found.")]
        | Some g =>
            let seriesKey := originalGameId g in
            match playerStats s !! seriesKey with
            | None => Returns s [Emit sock (errorMsg "Game stats not found.")]
            | Some st =>
                let fresh :=
                  Game emptyBoard Red
                       (Seats (red (players g)) (redName (players g))
                              (yellow (players g)) (yellowName (players g)))
                       None [] Playing now None 0 seriesKey (gamesPlayed st + 1) ∅ in
                let s1 := set_games (<[newGameId := fresh]> (games s)) s in
                let moved :=
                  migrate (red (players g)) gid newGameId
                  ++ migrate (yellow (players g)) gid newGameId in
                let s2 := set_games (delete gid (games s1)) s1 in
                let s3 := set_pendingRematches (delete gid (pendingRematches s2)) s2 in
                match games s3 !! newGameId with
                | None => Throws s3 moved
                | Some created =>
                    Returns s3
                      (moved ++
                       [Emit newGameId
                          (rematchStarted newGameId seriesKey (gamesPlayed st + 1)
                             (players created));
                        Emit newGameId (gameUpdate created);
                        Emit newGameId (statsUpdate st)])
                end
            end
        end
  end.

(** [declineRematch].  Under an inherited name that is no key of
    [pendingRematches] the handler finds a value whose [requester] is
    [undefined]: it sends to the room [undefined], and its [delete] removes
    nothing. *)
Definition declineRematch (sock gid : string) (s : server) : server * list effect :=
  match pendingRematches s !! gid with
  | Some pending =>
      (set_pendingRematches (delete gid (pendingRematches s)) s,
       [Emit (requester pending) (rematchDeclined (nameOr s sock "Opponent"))])
  | None =>
      if inheritedName gid
      then (s, [EmitUndefined (rematchDeclined (nameOr s sock "Opponent"))])
      else (s, [])
  end.

(** The seat test and the seat release shared by [leaveGame] and
    [disconnect]: the red seat is looked at first. *)
Definition seated (sock : string) (g : game) : bool :=
  bool_decide (red (players g) = Some sock) || bool_decide (yellow (players g) = Some sock).

Definition vacate (sock : string) (g : game) : game :=
  if bool_decide (red (players g) = Some sock)
  then set_winner (Some (Won Yellow))
         (set_status Abandoned (set_players (set_red None (players g)) g))
  else if bool_decide (yellow (players g) = Some sock)
  then set_winner (Some (Won Red))
         (set_status Abandoned (set_players (set_yellow None (players g)) g))
  else g.

(** The [opponentLeft] notification to the seat that remains, if any. *)
Definition notifyRemaining (sock : string) (g : game) (m : message) : list effect :=
  if bool_decide (red (players g) = Some sock)
  then match yellow (players g) with Some y => [Emit y m] | None => [] end
  else if bool_decide (yellow (players g) = Some sock)
  then match red (players g) with Some r => [Emit r m] | None => [] end
  else [].

(** [leaveGame].  Under an inherited name that is no key of [games] the
    handler finds a value without [players], and reading [players.red]
    throws. *)
Definition leaveGame (sock gid : string) (s : server) : server * list effect :=
  match games s !! gid with
  | None => if inheritedName gid then (s, [Uncaught]) else (s, [])
  | Some g =>
      let m := opponentLeft "Opponent left the game. Game ended." true
                 (nameOr s sock "Opponent") in
      (set_pendingRematches (delete gid (pendingRematches s))
         (set_games (<[gid := vacate sock g]> (games s)) s),
       notifyRemaining sock g m ++ [Leave sock gid; SetTimeout (removeGame gid) 5000])
  end.

(** [disconnect].  The loop over [Object.entries(games)] visits every
    session once; a visit touches only the visited session and the pending
    rematch stored under the same id, so the visits are written as one map
    over the sessions and one filter over the pending rematches. *)
Definition disconnect (sock : string) (s : server) : server * list effect :=
  let m := opponentLeft "Opponent disconnected. Game ended." true
             (nameOr s sock "Opponent") in
  let hit := filter (fun kv => seated sock (snd kv) = true) (games s) in
  let out :=
    flat_map (fun kv => notifyRemaining sock (snd kv) m
                        ++ [SetTimeout (removeGame (fst kv)) 5000])
             (map_to_list hit) in
  (Server (vacate sock <$> games s)
          (playerStats s)
          (delete sock (playerNames s))
          (filter (fun kv => hit !! fst kv = None) (pendingRematches s)),
   out).

(** The callback of the removal timer set by [leaveGame] and [disconnect]. *)
Definition removeGameTimer (gid : string) (s : server) : server :=
  match games s !! gid with
  | Some _ => set_games (delete gid (games s)) s
  | None => s
  end.

(** The two [setInterval] sweeps, at clock value [now]. *)
Definition sweepRematches (now : Z) (s : server) : server :=
  set_pendingRematches
    (filter (fun kv => ¬ (now - timestamp (snd kv) > 60000)) (pendingRematches s)) s.

Definition sweepGames (now : Z) (s : server) : server :=
  set_games
    (filter (fun kv => ¬ (now - createdAt (snd kv) > 60 * 60 * 1000)) (games s)) s.

(** ** The server as a transition system *)

(** The socket events, with the fields of their payloads, and the timers.
    An id is the string that property lookup makes of the payload's value.
    [Malformed] stands for an event whose payload makes the handler throw
    before it writes anything: [null] or nothing where the handler takes
    its payload apart, a name for [setPlayerName] that is truthy and no
    string, or a [makeMove] that claims no colour at all under an inherited
    name, which gets past the turn test and throws at the seat test. *)
Inductive event :=
| SetPlayerName (sock name : string)
| CreateGame (sock newId : string) (now : Z)
| JoinGame (sock gid : string)
| MakeMove (sock gid : string) (col : column) (c : color) (now : Z)
| RequestRematch (sock gid : string) (now : Z)
| AcceptRematch (sock gid newId : string) (now : Z)
| DeclineRematch (sock gid : string)
| LeaveGame (sock gid : string)
| Disconnect (sock : string)
| RemoveGameTimer (gid : string)
| SweepRematches (now : Z)
| SweepGames (now : Z)
| Malformed (sock : string).

Definition thrown (out : list effect) : bool :=
  existsb (fun e => match e with Uncaught => true | _ => false end) out.

Definition returns (r : server * list effect) : completion :=
  if thrown (snd r) then Throws (fst r) (removelast (snd r)) else Returns (fst r) (snd r).

Definition handle (ev : event) (s : server) : completion :=
  match ev with
  | SetPlayerName sock name => returns (setPlayerName sock name s)
  | CreateGame sock newId now => returns (createGame sock newId now s)
  | JoinGame sock gid => returns (joinGame sock gid s)
  | MakeMove sock gid col c now => returns (makeMove sock gid col c now s)
  | RequestRematch sock gid now => returns (requestRematch sock gid now s)
  | AcceptRematch sock gid newId now => acceptRematch sock gid newId now s
  | DeclineRematch sock gid => returns (declineRematch sock gid s)
  | LeaveGame sock gid => returns (leaveGame sock gid s)
  | Disconnect sock => returns (disconnect sock s)
  | RemoveGameTimer gid => Returns (removeGameTimer gid s) []
  | SweepRematches now => Returns (sweepRematches now s) []
  | SweepGames now => Returns (sweepGames now s) []
  | Malformed _ => Throws s []
  end.

(** The events a client can send, as opposed to the timers. *)
Definition inbound (ev : event) : bool :=
  match ev with
  | RemoveGameTimer _ | SweepRematches _ | SweepGames _ => false
  | _ => true
  end.

(** Running a list of events from a state; the run stops at an uncaught
    exception. *)
Fixpoint run (evs : list event) (s : server) : completion :=
  match evs with
  | [] => Returns s []
  | ev :: evs' =>
      match handle ev s with
      | Returns s' _ => run evs' s'
      | Throws s' out => Throws s' out
      end
  end.

(** The states the server can be in. *)
Inductive reachable : server -> Prop :=
| reachable_init : reachable init
| reachable_step (ev : event) (s : server) :
    reachable s -> reachable (state_of (handle ev s)).

(** ** Vocabulary of the properties *)

(** Cell [(r, c)] of the board holds a disc of colour [p]. *)
Definition holds (b : grid) (r c : Z) (p : color) : Prop :=
  cell_at b r c = Some (Disc p).

(** The positive unit step of each of the four axes. *)
Definition axes : list (Z * Z) := map fst dirs.

(** Four consecutive cells along axis [d], the cell [(row, col)] being the
    one at offset [k] among them, all hold colour [p]. *)
Definition window (b : grid) (row col : Z) (p : color) (d : Z * Z) (k : Z) : Prop :=
  0 <= k <= 3 /\
  forall i, 0 <= i <= 3 -> holds b (row + (i - k) * fst d) (col + (i - k) * snd d) p.

(** Some axis has at least four consecutive cells of colour [p] through
    [(row, col)]. *)
Definition four_in_line (b : grid) (row col : Z) (p : color) : Prop :=
  exists d k, In d axes /\ window b row col p d k.

(** A handler's output is a refusal: the single error message to the
    sender. *)
Definition refused (sock : string) (r : server * list effect) : Prop :=
  exists text, snd r = [Emit sock (errorMsg text)].

(** The output of [makeMove] when the move is played. *)
Definition played (gid : string) (row : Z) (col : column) (c : color)
    (r : server * list effect) : Prop :=
  snd r = [Emit gid (moveAnimation row col c); SetTimeout (broadcastMove gid) 500].

(** The session after the three assignments that place the disc, and after
    each of the three branches that follow them. *)
Definition placeDisc (row : Z) (col : column) (c : color) (now : Z) (g : game) : game :=
  let g := setAt row (slotOf col) c g in
  let g := set_moves (moves g + 1) g in
  set_lastMoveAt (Some now) g.

Definition finishWon (row : Z) (col : column) (c : color) (g : game) : game :=
  set_status Finished
    (set_winningCells (getWinningCellsAt row col (board g) (offGrid g) c)
       (set_winner (Some (Won c)) g)).

Definition finishDraw (g : game) : game :=
  set_status Finished (set_winner (Some Draw) g).

(** Every cell of column [col] holds a disc. *)
Definition column_full (b : grid) (col : Z) : Prop :=
  forall r, 0 <= r <= 5 -> exists p, cell_at b r col = Some (Disc p).

(** The tests a move passes before its column is looked at: the session
    exists, has no winner, it is the claimed colour's turn and both seats
    are taken. *)
Definition eligible (s : server) (gid : string) (c : color) (g : game) : Prop :=
  games s !! gid = Some g /\ winner g = None /\ currentPlayer g = c /\
  is_Some (red (players g)) /\ is_Some (yellow (players g)).

(** The win counter of colour [c] in a series. *)
Definition sideOf (c : color) (st : stats) : side :=
  match c with Red => statsRed st | Yellow => statsYellow st end.

(** What holds of every session of every reachable state: the board is a
    6 by 7 grid, [moves] counts its discs and the properties set off the
    grid, a finished session has a winner and both seats taken, and a
    session whose yellow seat is taken has series stats. *)
Definition game_ok (s : server) (g : game) : Prop :=
  board_wf (board g) /\
  moves g = Z.of_nat (discs (board g)) + Z.of_nat (size (offGrid g)) /\
  (status g = Finished ->
     is_Some (winner g) /\ is_Some (red (players g)) /\ is_Some (yellow (players g))) /\
  (is_Some (yellow (players g)) -> is_Some (playerStats s !! originalGameId g)).

Definition server_ok (s : server) : Prop :=
  forall gid g, games s !! gid = Some g -> game_ok s g.

(** The connection, if any, that event [ev] removes from a seat of session
    [gid], whose state is [g]: a [leaveGame] for that session or a
    [disconnect], from a connection that holds one of its seats. *)
Definition vacates (ev : event) (gid : string) (g : game) : option string :=
  match ev with
  | LeaveGame sock gid' =>
      if bool_decide (gid' = gid) && seated sock g then Some sock else None
  | Disconnect sock => if seated sock g then Some sock else None
  | _ => None
  end.

(** Event [ev] is a [createGame] or an [acceptRematch] that draws [gid] as
    its new id, or an [acceptRematch] for session [gid] itself. *)
Definition reallocates (ev : event) (gid : string) : bool :=
  match ev with
  | CreateGame _ newId _ => bool_decide (newId = gid)
  | AcceptRematch _ gid' newId _ => bool_decide (gid' = gid) || bool_decide (newId = gid)
  | _ => false
  end.

(** ** Concrete runs *)

(** Red opens a session, yellow joins. *)
Definition traceJoined : list event :=
  [CreateGame "a" "ABC123" 0; JoinGame "b" "ABC123"].

Definition stateJoined : server := state_of (run traceJoined init).

(** Red plays columns 0, 1, 3 and then 2, yellow column 6 in between: red's
    fourth disc lands inside its row of four. *)
Definition traceRedWins : list event :=
  traceJoined ++
  [MakeMove "a" "ABC123" (Whole 0) Red 1; MakeMove "b" "ABC123" (Whole 6) Yellow 2;
   MakeMove "a" "ABC123" (Whole 1) Red 3; MakeMove "b" "ABC123" (Whole 6) Yellow 4;
   MakeMove "a" "ABC123" (Whole 3) Red 5; MakeMove "b" "ABC123" (Whole 6) Yellow 6;
   MakeMove "a" "ABC123" (Whole 2) Red 7].

Definition stateRedWins : server := state_of (run traceRedWins init).

(** The same position one move earlier. *)
Definition stateRedToWin : server :=
  state_of (run (removelast traceRedWins) init).

(** The board after red's fourth disc. *)
Definition boardRedWins : grid :=
  [ [Empty; Empty; Empty; Empty; Empty; Empty; Empty];
    [Empty; Empty; Empty; Empty; Empty; Empty; Empty];
    [Empty; Empty; Empty; Empty; Empty; Empty; Empty];
    [Empty; Empty; Empty; Empty; Empty; Empty; Disc Yellow];
    [Empty; Empty; Empty; Empty; Empty; Empty; Disc Yellow];
    [Disc Red; Disc Red; Disc Red; Disc Red; Empty; Empty; Disc Yellow] ].

(** Three red discs in the bottom row and an empty cell next to them. *)
Definition boardThree : grid :=
  [ [Empty; Empty; Empty; Empty; Empty; Empty; Empty];
    [Empty; Empty; Empty; Empty; Empty; Empty; Empty];
    [Empty; Empty; Empty; Empty; Empty; Empty; Empty];
    [Empty; Empty; Empty; Empty; Empty; Empty; Empty];
    [Empty; Empty; Empty; Empty; Empty; Empty; Disc Yellow];
    [Disc Red; Disc Red; Disc Red; Empty; Empty; Empty; Disc Yellow] ].

(** Yellow leaves a session just joined, and a third connection joins it
    before the removal timer fires. *)
Definition traceRejoined : list event :=
  traceJoined ++ [LeaveGame "b" "ABC123"; JoinGame "c" "ABC123"].

Definition stateRejoined : server := state_of (run traceRejoined init).

(** Red asks for a rematch after its win. *)
Definition traceRematchAsked : list event :=
  traceRedWins ++ [RequestRematch "a" "ABC123" 8].

Definition stateRematchAsked : server := state_of (run traceRematchAsked init).

(** The session stored under a key, for the concrete states above. *)
Definition sessionAt (s : server) (gid : string) : game :=
  match games s !! gid with
  | Some g => g
  | None => Game [] Red (Seats None None None None) None [] Waiting 0 None 0 gid 0 ∅
  end.

(** Red asks for a rematch while the game is still being played. *)
Definition traceAskedEarly : list event :=
  traceJoined ++ [RequestRematch "a" "ABC123" 1].

Definition stateAskedEarly : server := state_of (run traceAskedEarly init).


(** ** Vocabulary of the further properties *)

(** The session after a played move: the three assignments of [placeDisc]
    followed by the branch the handler takes. *)
Definition afterMove (row : Z) (col : column) (c : color) (now : Z) (g : game) : game :=
  let g1 := placeDisc row col c now g in
  if checkWinAt row col (board g1) (offGrid g1) c then finishWon row col c g1
  else if isBoardFull (board g1) then finishDraw g1
  else set_currentPlayer (other c) g1.

(** The session after [joinGame] has seated a connection. *)
Definition joined (sock pname : string) (g : game) : game :=
  set_status Playing
    (set_players (set_yellowName (Some pname) (set_yellow (Some sock) (players g))) g).

(** What one event can do to a session that stays under its key: nothing,
    release a seat, seat a second player, or play a move. *)
Inductive session_step : game -> game -> Prop :=
| step_same (g : game) : session_step g g
| step_vacate (sock : string) (g : game) : session_step g (vacate sock g)
| step_join (sock pname : string) (g : game) :
    yellow (players g) = None -> session_step g (joined sock pname g)
| step_move (col : column) (c : color) (now : Z) (g : game) :
    winner g = None -> currentPlayer g = c ->
    is_Some (red (players g)) -> is_Some (yellow (players g)) ->
    outOfRange col = Some false -> dropRowAt g (slotOf col) <> -1 ->
    session_step g (afterMove (dropRowAt g (slotOf col)) col c now g).

(** A session as [createGame] or [acceptRematch] makes it. *)
Definition fresh_session (g : game) : Prop :=
  board g = emptyBoard /\ offGrid g = ∅ /\ moves g = 0 /\ winner g = None /\
  winningCells g = [] /\
  currentPlayer g = Red /\ lastMoveAt g = None /\
  ((status g = Waiting /\ is_Some (red (players g)) /\ yellow (players g) = None /\
    gameNumber g = 1) \/
   status g = Playing).

(** No disc has an empty cell under it. *)
Definition settled (b : grid) : Prop :=
  forall r c q, 0 <= r < 5 -> cell_at b r c = Some (Disc q) ->
    exists q', cell_at b (r + 1) c = Some (Disc q').

(** The number of discs of colour [p] on the board. *)
Definition isDisc (p : color) (v : cell) : bool := bool_decide (v = Disc p).

Definition discsOfRow (p : color) (cells : list cell) : nat :=
  length (List.filter (isDisc p) cells).

Definition discsOf (p : color) (b : grid) : nat :=
  foldr (fun cells n => (discsOfRow p cells + n)%nat) 0%nat b.

(** The number of properties off the grid that hold colour [p], and the
    number of moves of colour [p] that a session has taken. *)
Definition offOf (p : color) (off : gmap (Z * string) color) : nat :=
  size (filter (fun kv => snd kv = p) off).

Definition placedOf (p : color) (g : game) : nat :=
  (discsOf p (board g) + offOf p (offGrid g))%nat.

(** What every session of every reachable state satisfies, besides
    [game_ok]. *)
Definition session_inv (g : game) : Prop :=
  board_wf (board g) /\ settled (board g) /\
  moves g = Z.of_nat (discs (board g)) + Z.of_nat (size (offGrid g)) /\
  (winner g = None ->
     (currentPlayer g = Red /\ placedOf Red g = placedOf Yellow g) \/
     (currentPlayer g = Yellow /\ placedOf Red g = S (placedOf Yellow g))) /\
  (placedOf Red g = placedOf Yellow g \/ placedOf Red g = S (placedOf Yellow g)) /\
  (status g = Waiting ->
     board g = emptyBoard /\ offGrid g = ∅ /\ winner g = None /\
     is_Some (red (players g)) /\ yellow (players g) = None) /\
  (status g = Finished -> is_Some (red (players g)) /\ is_Some (yellow (players g))) /\
  (status g = Finished \/ status g = Abandoned -> is_Some (winner g)) /\
  (winner g = None -> winningCells g = []) /\
  (winner g = Some Draw ->
     status g = Finished /\ isBoardFull (board g) = true /\ winningCells g = []) /\
  (forall c, status g = Finished -> winner g = Some (Won c) ->
     length (winningCells g) = 4%nat) /\
  (winningCells g = [] \/ length (winningCells g) = 4%nat).

(** Red has opened a session and nobody has joined. *)
Definition stateCreated : server :=
  state_of (run [CreateGame "a" "ABC123" 0] init).

(** The number of cells of colour [p] that the backward walk of axis [d]
    meets from cell [(row, col)]. *)
Definition backRun (row col : Z) (b : grid) (p : color) (d : Z * Z) : Z :=
  countRun scan_fuel b p (row + - fst d) (col + - snd d) (- fst d) (- snd d) 0.

(** The stats of a series after [updatePlayerStats] has recorded a win of
    colour [c]. *)
Definition recordWin (c : color) (st : stats) : stats :=
  match c with
  | Red =>
      Stats (seriesId st) (set_wins (wins (statsRed st) + 1) (statsRed st))
            (statsYellow st) (gamesPlayed st + 1)
  | Yellow =>
      Stats (seriesId st) (statsRed st)
            (set_wins (wins (statsYellow st) + 1) (statsYellow st)) (gamesPlayed st + 1)
  end.

(** The stats [initializePlayerStats] makes for a new series. *)
Definition newStats (gid : string) (r y rn yn : option string) : stats :=
  Stats gid (Side r rn 0) (Side y yn 0) 0.

(** A connection sets a name with white space around it and too long. *)
Definition stateNamed : server :=
  state_of (run [SetPlayerName "a" "  Bartholomew the Third  "] init).

(** The number 1.5 as a column value, and more generally the number
    [n + 0.5] for [n] from 0 to 6: the comparison [col < 0 || col > 6]
    is false from 0.5 to 5.5, the key is the decimal string of the
    number, adding a step to it [k] times gives another such number, which
    satisfies [c >= 0 && c < 7] from 0.5 to 6.5.  [halfText n] is the
    decimal string of [n + 0.5] for [n] from -3 to 9. *)
Definition halfText (n : Z) : string :=
  match n with
  | -3 => "-2.5" | -2 => "-1.5" | -1 => "-0.5" | 0 => "0.5" | 1 => "1.5"
  | 2 => "2.5" | 3 => "3.5" | 4 => "4.5" | 5 => "5.5" | 6 => "6.5"
  | 7 => "7.5" | 8 => "8.5" | 9 => "9.5" | _ => "NaN"
  end.

Definition half (n : Z) : coerced :=
  Coerced (Extra (halfText n))
          ((0 <=? n) && (n <=? 5))
          (fun d k =>
             let m := n + d * Z.of_nat k in
             if (0 <=? m) && (m <=? 6) then Some (Extra (halfText m)) else None)
          (fun d k i => Value (halfText (n + Z.sgn (d * Z.of_nat k) * i))).

Definition onePointFive : column := Coerces (half 1).

(** Red opens a session, yellow joins, and red sends a move whose column
    is 1.5. *)
Definition traceFraction : list event :=
  traceJoined ++ [MakeMove "a" "ABC123" onePointFive Red 1].

Definition stateFraction : server := state_of (run traceFraction init).

(** [null] as a column value: comparisons and additions take it for the
    number 0, so it passes the range test and [null + d], [null + d + d],
    ... are the integers [d], [2d], ...; as a property key it is the
    string ["null"]. *)
Definition nullValue : coerced :=
  Coerced (Extra "null") true
          (fun d k => Some (Index (d * Z.of_nat k)))
          (fun d k i => Column (Z.sgn (d * Z.of_nat k) * i)).

(** Red plays the columns 0.5, 1.5, 2.5 and 3.5, yellow column 6 in
    between. *)
Definition traceHalves : list event :=
  traceJoined ++
  [MakeMove "a" "ABC123" (Coerces (half 0)) Red 1; MakeMove "b" "ABC123" (Whole 6) Yellow 2;
   MakeMove "a" "ABC123" (Coerces (half 1)) Red 3; MakeMove "b" "ABC123" (Whole 6) Yellow 4;
   MakeMove "a" "ABC123" (Coerces (half 2)) Red 5; MakeMove "b" "ABC123" (Whole 6) Yellow 6;
   MakeMove "a" "ABC123" (Coerces (half 3)) Red 7].

Definition stateHalves : server := state_of (run traceHalves init).

(** Red plays columns 1, 2 and 3, yellow column 6 in between, and red then
    sends [null] as its column. *)
Definition traceNull : list event :=
  traceJoined ++
  [MakeMove "a" "ABC123" (Whole 1) Red 1; MakeMove "b" "ABC123" (Whole 6) Yellow 2;
   MakeMove "a" "ABC123" (Whole 2) Red 3; MakeMove "b" "ABC123" (Whole 6) Yellow 4;
   MakeMove "a" "ABC123" (Whole 3) Red 5; MakeMove "b" "ABC123" (Whole 6) Yellow 6;
   MakeMove "a" "ABC123" (Coerces nullValue) Red 7].

Definition stateNull : server := state_of (run traceNull init).
(** * Properties *)

(** ** The board engine *)

Lemma in_grid_spec (r c : Z) :
  in_grid r c = true <-> 0 <= r < 6 /\ 0 <= c < 7.
Proof.
  unfold in_grid. rewrite !andb_true_iff, !Z.leb_le, !Z.ltb_lt. lia.
Qed.

Lemma same_color_spec (b : grid) (r c : Z) (p : color) :
  same_color b r c p = true <->
  (0 <= r < 6 /\ 0 <= c < 7) /\ cell_at b r c = Some (Disc p).
Proof.
  unfold same_color. rewrite andb_true_iff, in_grid_spec, bool_decide_eq_true. tauto.
Qed.

Section Walk.
Variables (b : grid) (p : color).

Lemma countRun_acc (n : nat) (r c dx dy k : Z) :
  countRun n b p r c dx dy k = k + countRun n b p r c dx dy 0.
Proof.
  revert r c k. induction n as [|n IH]; intros r c k; simpl; [lia|].
  destruct (same_color b r c p); [|lia].
  rewrite (IH _ _ (k + 1)), (IH _ _ (0 + 1)). lia.
Qed.

Lemma countRun_nonneg (n : nat) (r c dx dy : Z) :
  0 <= countRun n b p r c dx dy 0.
Proof.
  revert r c. induction n as [|n IH]; intros r c; simpl; [lia|].
  destruct (same_color b r c p); [|lia].
  rewrite countRun_acc. specialize (IH (r + dx) (c + dy)). lia.
Qed.

(** The walk counts [m] cells exactly when it has the fuel for them and
    the first [m] cells on its way pass the loop guard. *)
Lemma countRun_ge (n : nat) (r c dx dy : Z) (m : nat) :
  Z.of_nat m <= countRun n b p r c dx dy 0 <->
  (m <= n)%nat /\
  forall i : nat, (i < m)%nat ->
    same_color b (r + Z.of_nat i * dx) (c + Z.of_nat i * dy) p = true.
Proof.
  revert r c m. induction n as [|n IH]; intros r c m; simpl.
  - split.
    + intros H. split; [lia|]. intros i Hi. lia.
    + intros [H _]. lia.
  - destruct (same_color b r c p) eqn:E.
    + rewrite countRun_acc. destruct m as [|m].
      * split; [intros _; split; [lia|intros i Hi; lia]|].
        intros _. pose proof (countRun_nonneg n (r + dx) (c + dy) dx dy). lia.
      * specialize (IH (r + dx) (c + dy) m). split.
        -- intros H. assert (Hm : Z.of_nat m <= countRun n b p (r + dx) (c + dy) dx dy 0) by lia.
           apply IH in Hm as [Hle Hall]. split; [lia|].
           intros [|i] Hi.
           ++ replace (r + Z.of_nat 0 * dx) with r by lia.
              replace (c + Z.of_nat 0 * dy) with c by lia. exact E.
           ++ specialize (Hall i ltac:(lia)).
              replace (r + Z.of_nat (S i) * dx) with (r + dx + Z.of_nat i * dx) by lia.
              replace (c + Z.of_nat (S i) * dy) with (c + dy + Z.of_nat i * dy) by lia.
              exact Hall.
        -- intros [Hle Hall].
           assert (Hm : Z.of_nat m <= countRun n b p (r + dx) (c + dy) dx dy 0).
           { apply IH. split; [lia|]. intros i Hi.
             specialize (Hall (S i) ltac:(lia)).
             replace (r + Z.of_nat (S i) * dx) with (r + dx + Z.of_nat i * dx) in Hall by lia.
             replace (c + Z.of_nat (S i) * dy) with (c + dy + Z.of_nat i * dy) in Hall by lia.
             exact Hall. }
           lia.
    + split.
      * intros H. assert (m = 0%nat) by lia. subst m. split; [lia|]. intros i Hi. lia.
      * intros [_ Hall]. destruct m as [|m]; [lia|].
        specialize (Hall 0%nat ltac:(lia)).
        replace (r + Z.of_nat 0 * dx) with r in Hall by lia.
        replace (c + Z.of_nat 0 * dy) with c in Hall by lia. congruence.
Qed.

(** A unit step leaves the grid within seven cells. *)
Lemma walk_leaves_grid (r c dx dy : Z) (m : nat) :
  -1 <= dx <= 1 -> -1 <= dy <= 1 -> (dx <> 0 \/ dy <> 0) ->
  (forall i : nat, (i < m)%nat ->
     same_color b (r + Z.of_nat i * dx) (c + Z.of_nat i * dy) p = true) ->
  (m <= 7)%nat.
Proof.
  intros Hdx Hdy Hne Hall.
  destruct (Nat.le_gt_cases m 7) as [|Hgt]; [assumption|exfalso].
  pose proof (Hall 0%nat ltac:(lia)) as H0.
  pose proof (Hall 7%nat ltac:(lia)) as H7.
  apply same_color_spec in H0 as [H0 _]. apply same_color_spec in H7 as [H7 _].
  change (Z.of_nat 0) with 0 in H0. change (Z.of_nat 7) with 7 in H7. lia.
Qed.

(** Seven iterations are all the loop ever makes: more fuel changes
    nothing. *)
Lemma countRun_fuel (n : nat) (r c dx dy : Z) :
  -1 <= dx <= 1 -> -1 <= dy <= 1 -> (dx <> 0 \/ dy <> 0) ->
  (scan_fuel <= n)%nat ->
  countRun n b p r c dx dy 0 = countRun scan_fuel b p r c dx dy 0.
Proof.
  intros Hdx Hdy Hne Hn. unfold scan_fuel in *.
  pose proof (countRun_nonneg n r c dx dy) as Hn0.
  pose proof (countRun_nonneg 7 r c dx dy) as H70.
  assert (Hle : forall a a' : nat, (7 <= a)%nat -> (7 <= a')%nat ->
            countRun a b p r c dx dy 0 <= countRun a' b p r c dx dy 0).
  { intros a a' Ha Ha'.
    pose proof (countRun_nonneg a r c dx dy) as Hpos.
    replace (countRun a b p r c dx dy 0)
      with (Z.of_nat (Z.to_nat (countRun a b p r c dx dy 0))) by lia.
    apply countRun_ge.
    assert (Hx : Z.of_nat (Z.to_nat (countRun a b p r c dx dy 0))
                 <= countRun a b p r c dx dy 0) by lia.
    apply countRun_ge in Hx as [_ Hall]. split; [|exact Hall].
    pose proof (walk_leaves_grid r c dx dy _ Hdx Hdy Hne Hall). lia. }
  pose proof (Hle n 7%nat Hn ltac:(lia)). pose proof (Hle 7%nat n ltac:(lia) Hn). lia.
Qed.
End Walk.

(** The cells pushed by the walk of [getWinningCells] are the ones counted
    by the walk of [checkWin], in the order they are met. *)
Lemma collectRun_cells (b : grid) (p : color) (n : nat) (r c dx dy : Z)
    (cells : list (Z * Z)) :
  collectRun n b p r c dx dy cells =
  cells ++ map (fun i : nat => (r + Z.of_nat i * dx, c + Z.of_nat i * dy))
               (seq 0 (Z.to_nat (countRun n b p r c dx dy 0))).
Proof.
  revert r c cells. induction n as [|n IH]; intros r c cells; simpl.
  - rewrite app_nil_r. reflexivity.
  - destruct (same_color b r c p); [|simpl; rewrite app_nil_r; reflexivity].
    rewrite IH, (countRun_acc b p n (r + dx) (c + dy) dx dy (0 + 1)).
    pose proof (countRun_nonneg b p n (r + dx) (c + dy) dx dy) as Hpos.
    replace (Z.to_nat (0 + 1 + countRun n b p (r + dx) (c + dy) dx dy 0))
      with (S (Z.to_nat (countRun n b p (r + dx) (c + dy) dx dy 0))) by lia.
    rewrite <- app_assoc. f_equal. cbn [seq map app]. f_equal.
    + change (Z.of_nat 0) with 0. f_equal; lia.
    + rewrite <- seq_shift, map_map. apply map_ext. intros i. f_equal; lia.
Qed.

Lemma collectRun_fuel (b : grid) (p : color) (n : nat) (r c dx dy : Z)
    (cells : list (Z * Z)) :
  -1 <= dx <= 1 -> -1 <= dy <= 1 -> (dx <> 0 \/ dy <> 0) ->
  (scan_fuel <= n)%nat ->
  collectRun n b p r c dx dy cells = collectRun scan_fuel b p r c dx dy cells.
Proof.
  intros Hdx Hdy Hne Hn. rewrite !collectRun_cells.
  rewrite (countRun_fuel b p n r c dx dy Hdx Hdy Hne Hn). reflexivity.
Qed.

Lemma collectAxis_length (b : grid) (p : color) (n : nat) (row col : Z)
    (dir : (Z * Z) * (Z * Z)) :
  Z.of_nat (length (collectAxis n row col b p dir)) = countAxis n row col b p dir.
Proof.
  destruct dir as [[dx1 dy1] [dx2 dy2]]. unfold collectAxis, countAxis.
  rewrite !collectRun_cells, !length_app, !length_map, !length_seq.
  rewrite (countRun_acc b p n (row + dx2) (col + dy2) dx2 dy2
             (countRun n b p (row + dx1) (col + dy1) dx1 dy1 1)).
  rewrite (countRun_acc b p n (row + dx1) (col + dy1) dx1 dy1 1).
  pose proof (countRun_nonneg b p n (row + dx1) (col + dy1) dx1 dy1).
  pose proof (countRun_nonneg b p n (row + dx2) (col + dy2) dx2 dy2).
  simpl length. lia.
Qed.

(** Whenever [checkWin] is true, [getWinningCells] returns four
    coordinates. *)
Lemma getWinningCells_four (b : grid) (p : color) (row col : Z) :
  checkWin row col b p = true -> length (getWinningCells row col b p) = 4%nat.
Proof.
  unfold checkWin, checkWin_fuel, getWinningCells. generalize dirs as ds.
  induction ds as [|dir ds IH]; [discriminate|].
  cbn [existsb winningCellsIn]. rewrite <- collectAxis_length.
  destruct (Nat.leb_spec 4 (length (collectAxis scan_fuel row col b p dir))) as [Hle|Hlt].
  - intros _. reflexivity.
  - replace (4 <=? Z.of_nat (length (collectAxis scan_fuel row col b p dir))) with false
      by (symmetry; apply Z.leb_gt; lia).
    exact IH.
Qed.

(** The same for a column value that is no integer number: the walk of
    [getWinningCells] pushes one cell for each cell the walk of [checkWin]
    counts. *)
Lemma collectWalk_length (b : grid) (off : gmap (Z * string) color) (p : color)
    (v : coerced) (n : nat) (r dx d : Z) (k : nat) (cells : list (Z * (Z * nat))) :
  Z.of_nat (length (collectWalk n b off p v r dx d k cells))
  = countWalk n b off p v r dx d k (Z.of_nat (length cells)).
Proof.
  revert r k cells. induction n as [|n IH]; intros r k cells; simpl; [reflexivity|].
  destruct (sameAt b off r (reach v d k) p); [|reflexivity].
  rewrite IH, length_app. simpl length. f_equal. lia.
Qed.

Lemma collectAxisWalk_length (b : grid) (off : gmap (Z * string) color) (p : color)
    (v : coerced) (n : nat) (row : Z) (dir : (Z * Z) * (Z * Z)) :
  Z.of_nat (length (collectAxisWalk n row v b off p dir)) = countAxisWalk n row v b off p dir.
Proof.
  destruct dir as [[dx1 dy1] [dx2 dy2]]. unfold collectAxisWalk, countAxisWalk.
  rewrite !collectWalk_length. reflexivity.
Qed.

Lemma getWinningCellsWalk_four (b : grid) (off : gmap (Z * string) color) (p : color)
    (v : coerced) (row : Z) :
  checkWinWalk row v b off p = true -> length (getWinningCellsWalk row v b off p) = 4%nat.
Proof.
  unfold checkWinWalk, getWinningCellsWalk. generalize dirs as ds.
  induction ds as [|dir ds IH]; [discriminate|].
  cbn [existsb winningCellsWalk]. rewrite <- collectAxisWalk_length.
  destruct (Nat.leb_spec 4 (length (collectAxisWalk (walk_fuel off) row v b off p dir)))
    as [Hle|Hlt].
  - intros _. reflexivity.
  - replace (4 <=? Z.of_nat (length (collectAxisWalk (walk_fuel off) row v b off p dir)))
      with false by (symmetry; apply Z.leb_gt; lia).
    exact IH.
Qed.

(** Whatever the column value, a win comes with four winning cells. *)
Lemma getWinningCellsAt_four (row : Z) (col : column) (b : grid)
    (off : gmap (Z * string) color) (p : color) :
  checkWinAt row col b off p = true -> length (getWinningCellsAt row col b off p) = 4%nat.
Proof.
  destruct col as [n|v|]; simpl.
  - intros H. rewrite length_map. apply getWinningCells_four, H.
  - apply getWinningCellsWalk_four.
  - discriminate.
Qed.

(** ** The walks for a column value that is no integer number *)

Section WalkOff.
Variables (b : grid) (off : gmap (Z * string) color) (p : color) (v : coerced).

Lemma sameAt_row (r : Z) (at_ : option slot) :
  sameAt b off r at_ p = true -> 0 <= r < 6.
Proof.
  destruct at_ as [[j|key|]|]; simpl; try discriminate.
  - intros H. apply same_color_spec in H as [[H _] _]. exact H.
  - rewrite !andb_true_iff, Z.leb_le, Z.ltb_lt. lia.
Qed.

Lemma sameAt_candidate (r : Z) (at_ : option slot) :
  sameAt b off r at_ p = true -> exists sl, at_ = Some sl /\ sl ∈ candidates off.
Proof.
  destruct at_ as [[j|key|]|]; simpl; try discriminate.
  - intros H. apply same_color_spec in H as [[_ H] _].
    exists (Index j). split; [reflexivity|]. unfold candidates.
    apply elem_of_app. left. apply list_elem_of_fmap. exists j. split; [reflexivity|].
    assert (Hj : j = 0 \/ j = 1 \/ j = 2 \/ j = 3 \/ j = 4 \/ j = 5 \/ j = 6) by lia.
    destruct Hj as [->|[->|[->|[->|[->|[->| ->]]]]]]; repeat constructor.
  - rewrite !andb_true_iff, bool_decide_eq_true. intros [_ H].
    exists (Extra key). split; [reflexivity|]. unfold candidates.
    apply elem_of_app. right. apply list_elem_of_fmap. exists ((r, key), p).
    split; [reflexivity|]. apply elem_of_map_to_list. exact H.
Qed.

Lemma candidates_length : length (candidates off) = walk_fuel off.
Proof.
  unfold candidates, walk_fuel.
  rewrite length_app, !length_fmap, length_map_to_list. reflexivity.
Qed.

Lemma countWalk_acc (n : nat) (r dx d : Z) (k : nat) (count : Z) :
  countWalk n b off p v r dx d k count = count + countWalk n b off p v r dx d k 0.
Proof.
  revert r k count. induction n as [|n IH]; intros r k count; simpl; [lia|].
  destruct (sameAt b off r (reach v d k) p); [|lia].
  rewrite (IH _ _ (count + 1)), (IH _ _ (0 + 1)). lia.
Qed.

Lemma countWalk_nonneg (n : nat) (r dx d : Z) (k : nat) :
  0 <= countWalk n b off p v r dx d k 0.
Proof.
  revert r k. induction n as [|n IH]; intros r k; simpl; [lia|].
  destruct (sameAt b off r (reach v d k) p); [|lia].
  rewrite countWalk_acc. specialize (IH (r + dx) (S k)). lia.
Qed.

(** The walk counts [m] cells exactly when it has the fuel for them and
    the first [m] values on its way pass the loop guard. *)
Lemma countWalk_ge (n : nat) (r dx d : Z) (k m : nat) :
  Z.of_nat m <= countWalk n b off p v r dx d k 0 <->
  (m <= n)%nat /\
  forall i : nat, (i < m)%nat ->
    sameAt b off (r + Z.of_nat i * dx) (reach v d (k + i)) p = true.
Proof.
  revert r k m. induction n as [|n IH]; intros r k m; simpl.
  - split.
    + intros H. split; [lia|]. intros i Hi. lia.
    + intros [H _]. lia.
  - destruct (sameAt b off r (reach v d k) p) eqn:E.
    + rewrite countWalk_acc. destruct m as [|m].
      * split; [intros _; split; [lia|intros i Hi; lia]|].
        intros _. pose proof (countWalk_nonneg n (r + dx) dx d (S k)). lia.
      * specialize (IH (r + dx) (S k) m). split.
        -- intros H.
           assert (Hm : Z.of_nat m <= countWalk n b off p v (r + dx) dx d (S k) 0) by lia.
           apply IH in Hm as [Hle Hall]. split; [lia|].
           intros [|i] Hi.
           ++ replace (r + Z.of_nat 0 * dx) with r by lia.
              rewrite Nat.add_0_r. exact E.
           ++ specialize (Hall i ltac:(lia)).
              replace (r + Z.of_nat (S i) * dx) with (r + dx + Z.of_nat i * dx) by lia.
              replace (k + S i)%nat with (S k + i)%nat by lia. exact Hall.
        -- intros [Hle Hall].
           assert (Hm : Z.of_nat m <= countWalk n b off p v (r + dx) dx d (S k) 0).
           { apply IH. split; [lia|]. intros i Hi.
             specialize (Hall (S i) ltac:(lia)).
             replace (r + Z.of_nat (S i) * dx) with (r + dx + Z.of_nat i * dx) in Hall by lia.
             replace (k + S i)%nat with (S k + i)%nat in Hall by lia. exact Hall. }
           lia.
    + split.
      * intros H. assert (m = 0%nat) by lia. subst m. split; [lia|]. intros i Hi. lia.
      * intros [_ Hall]. destruct m as [|m]; [lia|].
        specialize (Hall 0%nat ltac:(lia)).
        replace (r + Z.of_nat 0 * dx) with r in Hall by lia.
        rewrite Nat.add_0_r in Hall. congruence.
Qed.

(** A walk that changes row leaves the grid within six cells; a walk
    along a row meets a new key at every step, each holding the colour, and
    there are no more of those than cells in the row and properties off the
    grid. *)
Lemma walk_bound (r dx d : Z) (k m : nat) :
  distinct_steps v -> -1 <= dx <= 1 -> (dx <> 0 \/ d <> 0) ->
  (forall i : nat, (i < m)%nat ->
     sameAt b off (r + Z.of_nat i * dx) (reach v d (k + i)) p = true) ->
  (m <= walk_fuel off)%nat.
Proof.
  intros Hdist Hdx Hne Hall.
  destruct (decide (dx = 0)) as [->|Hdx0].
  - assert (Hd : d <> 0) by (destruct Hne; [contradiction|assumption]).
    rewrite <- candidates_length.
    assert (Hslots : forall i, (i < m)%nat ->
              exists sl, reach v d (k + i) = Some sl /\ sl ∈ candidates off).
    { intros i Hi. apply (sameAt_candidate (r + Z.of_nat i * 0)). apply Hall, Hi. }
    clear Hall. revert k Hslots. generalize (candidates off) as cands.
    induction m as [|m IH]; intros cands k Hslots; [lia|].
    destruct (Hslots 0%nat ltac:(lia)) as (sl0 & Hsl0 & Hin0).
    rewrite Nat.add_0_r in Hsl0.
    apply list_elem_of_split in Hin0 as (l1 & l2 & ->).
    rewrite length_app. simpl length.
    specialize (IH (l1 ++ l2) (S k)). rewrite length_app in IH.
    enough (m <= length l1 + length l2)%nat by lia. apply IH.
    intros i Hi. destruct (Hslots (S i) ltac:(lia)) as (sl & Hsl & Hin).
    replace (k + S i)%nat with (S k + i)%nat in Hsl by lia.
    exists sl. split; [exact Hsl|].
    apply elem_of_app in Hin as [Hin|Hin]; [apply elem_of_app; left; exact Hin|].
    apply elem_of_cons in Hin as [->|Hin]; [|apply elem_of_app; right; exact Hin].
    exfalso. pose proof (Hdist d k (S k + i)%nat sl0 Hd Hsl0 Hsl). lia.
  - unfold walk_fuel.
    destruct (Nat.le_gt_cases m 6) as [|Hgt]; [lia|exfalso].
    pose proof (sameAt_row _ _ (Hall 0%nat ltac:(lia))) as H0.
    pose proof (sameAt_row _ _ (Hall 6%nat ltac:(lia))) as H6.
    change (Z.of_nat 0) with 0 in H0. change (Z.of_nat 6) with 6 in H6. lia.
Qed.

(** More fuel than [walk_fuel] changes nothing. *)
Lemma countWalk_fuel (n : nat) (r dx d : Z) (k : nat) :
  distinct_steps v -> -1 <= dx <= 1 -> (dx <> 0 \/ d <> 0) ->
  (walk_fuel off <= n)%nat ->
  countWalk n b off p v r dx d k 0 = countWalk (walk_fuel off) b off p v r dx d k 0.
Proof.
  intros Hdist Hdx Hne Hn.
  assert (Hle : forall a a' : nat, (walk_fuel off <= a)%nat -> (walk_fuel off <= a')%nat ->
            countWalk a b off p v r dx d k 0 <= countWalk a' b off p v r dx d k 0).
  { intros a a' Ha Ha'.
    pose proof (countWalk_nonneg a r dx d k) as Hpos.
    replace (countWalk a b off p v r dx d k 0)
      with (Z.of_nat (Z.to_nat (countWalk a b off p v r dx d k 0))) by lia.
    apply countWalk_ge.
    assert (Hx : Z.of_nat (Z.to_nat (countWalk a b off p v r dx d k 0))
                 <= countWalk a b off p v r dx d k 0) by lia.
    apply countWalk_ge in Hx as [_ Hall]. split; [|exact Hall].
    pose proof (walk_bound r dx d k _ Hdist Hdx Hne Hall). lia. }
  pose proof (Hle n (walk_fuel off) Hn ltac:(lia)).
  pose proof (Hle (walk_fuel off) n ltac:(lia) Hn). lia.
Qed.

(** The cells pushed are the cells counted, in the order they are met. *)
Lemma collectWalk_cells (n : nat) (r dx d : Z) (k : nat) (cells : list (Z * (Z * nat))) :
  collectWalk n b off p v r dx d k cells =
  cells ++ map (fun i : nat => (r + Z.of_nat i * dx, (d, (k + i)%nat)))
               (seq 0 (Z.to_nat (countWalk n b off p v r dx d k 0))).
Proof.
  revert r k cells. induction n as [|n IH]; intros r k cells; simpl.
  - rewrite app_nil_r. reflexivity.
  - destruct (sameAt b off r (reach v d k) p); [|simpl; rewrite app_nil_r; reflexivity].
    rewrite IH, (countWalk_acc n (r + dx) dx d (S k) (0 + 1)).
    pose proof (countWalk_nonneg n (r + dx) dx d (S k)) as Hpos.
    replace (Z.to_nat (0 + 1 + countWalk n b off p v (r + dx) dx d (S k) 0))
      with (S (Z.to_nat (countWalk n b off p v (r + dx) dx d (S k) 0))) by lia.
    rewrite <- app_assoc. f_equal. cbn [seq map app]. f_equal.
    + change (Z.of_nat 0) with 0. f_equal; [lia|]. f_equal. lia.
    + rewrite <- seq_shift, map_map. apply map_ext. intros i.
      f_equal; [lia|]. f_equal. lia.
Qed.

Lemma collectWalk_fuel (n : nat) (r dx d : Z) (k : nat) (cells : list (Z * (Z * nat))) :
  distinct_steps v -> -1 <= dx <= 1 -> (dx <> 0 \/ d <> 0) ->
  (walk_fuel off <= n)%nat ->
  collectWalk n b off p v r dx d k cells
  = collectWalk (walk_fuel off) b off p v r dx d k cells.
Proof.
  intros Hdist Hdx Hne Hn. rewrite !collectWalk_cells.
  rewrite (countWalk_fuel n r dx d k Hdist Hdx Hne Hn). reflexivity.
Qed.
End WalkOff.

Lemma cell_at_in_grid (b : grid) (r c : Z) (v : cell) :
  board_wf b -> cell_at b r c = Some v -> 0 <= r < 6 /\ 0 <= c < 7.
Proof.
  intros [Hrows Hcols] H. unfold cell_at in H.
  destruct (0 <=? r) eqn:Er; [|discriminate].
  destruct (0 <=? c) eqn:Ec; [|discriminate]. simpl in H.
  apply Z.leb_le in Er, Ec.
  destruct (b !! Z.to_nat r) as [cells|] eqn:Eb; [|discriminate].
  pose proof (lookup_lt_Some _ _ _ Eb) as Hr.
  pose proof (lookup_lt_Some _ _ _ H) as Hc.
  rewrite Forall_lookup in Hcols. rewrite (Hcols _ _ Eb) in Hc. lia.
Qed.

Lemma holds_same_color (b : grid) (r c : Z) (p : color) :
  board_wf b -> (holds b r c p <-> same_color b r c p = true).
Proof.
  intros Hwf. rewrite same_color_spec. unfold holds. split.
  - intros H. split; [eapply cell_at_in_grid; eauto | exact H].
  - intros [_ H]. exact H.
Qed.

Section Axis.
Variables (b : grid) (p : color) (row col dx dy : Z).
Hypothesis Hwf : board_wf b.

Lemma countAxis_sum :
  countAxis scan_fuel row col b p ((dx, dy), (- dx, - dy)) =
  1 + countRun scan_fuel b p (row + dx) (col + dy) dx dy 0
    + countRun scan_fuel b p (row + - dx) (col + - dy) (- dx) (- dy) 0.
Proof.
  unfold countAxis. rewrite countRun_acc.
  rewrite (countRun_acc b p scan_fuel (row + dx)). lia.
Qed.

(** The count of one axis reaches four exactly when four consecutive
    cells of that axis, the placed cell among them, hold the colour. *)
Lemma countAxis_window :
  holds b row col p ->
  (4 <=? countAxis scan_fuel row col b p ((dx, dy), (- dx, - dy))) = true <->
  exists k, window b row col p (dx, dy) k.
Proof.
  intros Horigin. rewrite Z.leb_le, countAxis_sum.
  set (A := countRun scan_fuel b p (row + dx) (col + dy) dx dy 0).
  set (B := countRun scan_fuel b p (row + - dx) (col + - dy) (- dx) (- dy) 0).
  pose proof (countRun_nonneg b p scan_fuel (row + dx) (col + dy) dx dy) as HA.
  pose proof (countRun_nonneg b p scan_fuel (row + - dx) (col + - dy) (- dx) (- dy)) as HB.
  fold A in HA. fold B in HB. split.
  - intros Hsum. exists (Z.min 3 B).
    assert (Hk : 0 <= Z.min 3 B <= 3) by lia.
    assert (HkB : Z.of_nat (Z.to_nat (Z.min 3 B)) <= B) by lia.
    assert (HkA : Z.of_nat (Z.to_nat (3 - Z.min 3 B)) <= A) by lia.
    apply countRun_ge in HkB as [_ Hback].
    apply countRun_ge in HkA as [_ Hfwd].
    split; [exact Hk|]. intros i Hi. simpl fst. simpl snd.
    destruct (Z.lt_trichotomy i (Z.min 3 B)) as [Hlt|[Heq|Hgt]].
    + specialize (Hback (Z.to_nat (Z.min 3 B - i - 1)) ltac:(lia)).
      apply holds_same_color; [exact Hwf|].
      rewrite Z2Nat.id in Hback by lia.
      replace (row + (i - Z.min 3 B) * dx)
        with (row + - dx + (Z.min 3 B - i - 1) * - dx) by lia.
      replace (col + (i - Z.min 3 B) * dy)
        with (col + - dy + (Z.min 3 B - i - 1) * - dy) by lia.
      exact Hback.
    + rewrite Heq.
      replace (row + (Z.min 3 B - Z.min 3 B) * dx) with row by lia.
      replace (col + (Z.min 3 B - Z.min 3 B) * dy) with col by lia.
      exact Horigin.
    + specialize (Hfwd (Z.to_nat (i - Z.min 3 B - 1)) ltac:(lia)).
      apply holds_same_color; [exact Hwf|].
      rewrite Z2Nat.id in Hfwd by lia.
      replace (row + (i - Z.min 3 B) * dx)
        with (row + dx + (i - Z.min 3 B - 1) * dx) by lia.
      replace (col + (i - Z.min 3 B) * dy)
        with (col + dy + (i - Z.min 3 B - 1) * dy) by lia.
      exact Hfwd.
  - intros [k [Hk Hwin]]. simpl fst in Hwin. simpl snd in Hwin.
    assert (HkB : Z.of_nat (Z.to_nat k) <= B).
    { apply countRun_ge. split; [unfold scan_fuel; lia|].
      intros i Hi. apply holds_same_color; [exact Hwf|].
      specialize (Hwin (k - 1 - Z.of_nat i) ltac:(lia)).
      replace (row + - dx + Z.of_nat i * - dx)
        with (row + (k - 1 - Z.of_nat i - k) * dx) by lia.
      replace (col + - dy + Z.of_nat i * - dy)
        with (col + (k - 1 - Z.of_nat i - k) * dy) by lia.
      exact Hwin. }
    assert (HkA : Z.of_nat (Z.to_nat (3 - k)) <= A).
    { apply countRun_ge. split; [unfold scan_fuel; lia|].
      intros i Hi. apply holds_same_color; [exact Hwf|].
      specialize (Hwin (k + 1 + Z.of_nat i) ltac:(lia)).
      replace (row + dx + Z.of_nat i * dx)
        with (row + (k + 1 + Z.of_nat i - k) * dx) by lia.
      replace (col + dy + Z.of_nat i * dy)
        with (col + (k + 1 + Z.of_nat i - k) * dy) by lia.
      exact Hwin. }
    lia.
Qed.
End Axis.

(** C6 (amended): on a 6 by 7 board whose cell [(row, col)] holds colour
    [p], as it does when [makeMove] calls it on the cell just played,
    [checkWin row col board p] is true if and only if some axis
    (horizontal, vertical, or either diagonal) has four consecutive cells of
    colour [p] through [(row, col)]; so it is false whenever every such line
    is broken by an empty or opposite-colour cell. *)
Theorem checkWin_iff_four_in_line (b : grid) (row col : Z) (p : color) :
  board_wf b -> holds b row col p ->
  (checkWin row col b p = true <-> four_in_line b row col p).
Proof.
  intros Hwf Horigin. unfold checkWin, checkWin_fuel, dirs. simpl existsb.
  rewrite !orb_true_iff.
  pose proof (countAxis_window b p row col 0 1 Hwf Horigin) as H1.
  pose proof (countAxis_window b p row col 1 0 Hwf Horigin) as H2.
  pose proof (countAxis_window b p row col 1 1 Hwf Horigin) as H3.
  pose proof (countAxis_window b p row col 1 (-1) Hwf Horigin) as H4.
  change (- (0)) with 0 in H1, H2. change (- (1)) with (-1) in *.
  change (- (-1)) with 1 in H4.
  rewrite H1, H2, H3, H4. unfold four_in_line, axes, dirs. simpl map. split.
  - intros [[k Hk]|[[k Hk]|[[k Hk]|[[k Hk]|H]]]]; [| | | |discriminate H].
    + exists (0, 1), k. split; [simpl; tauto | exact Hk].
    + exists (1, 0), k. split; [simpl; tauto | exact Hk].
    + exists (1, 1), k. split; [simpl; tauto | exact Hk].
    + exists (1, -1), k. split; [simpl; tauto | exact Hk].
  - intros [d [k [Hin Hk]]]. simpl in Hin.
    destruct Hin as [<-|[<-|[<-|[<-|[]]]]].
    + left. exists k. exact Hk.
    + right. left. exists k. exact Hk.
    + right. right. left. exists k. exact Hk.
    + right. right. right. left. exists k. exact Hk.
Qed.

(** ** The drop scan *)

Lemma dropScan_range (b : grid) (col : Z) (rows : list Z) :
  Forall (fun r => 0 <= r <= 5) rows ->
  dropScan b col rows = -1 \/ 0 <= dropScan b col rows <= 5.
Proof.
  induction 1 as [|r rows Hr _ IH]; simpl; [left; reflexivity|].
  destruct (cell_at b r col) as [[|q]|]; auto.
Qed.

Lemma dropScan_full (b : grid) (col : Z) (rows : list Z) :
  Forall (fun r => 0 <= r <= 5) rows ->
  (dropScan b col rows = -1 <->
   forall r, In r rows -> exists q, cell_at b r col = Some (Disc q)).
Proof.
  induction 1 as [|r rows Hr Hrows IH]; simpl.
  - split; [intros _ r []|reflexivity].
  - destruct (cell_at b r col) as [[|q]|] eqn:E.
    + split; [lia|]. intros H. destruct (H r (or_introl eq_refl)) as [q Hq]. congruence.
    + rewrite IH. split.
      * intros H r' [<-|Hin]; eauto.
      * intros H r' Hin. apply H. right. exact Hin.
    + split; [lia|]. intros H. destruct (H r (or_introl eq_refl)) as [q Hq]. congruence.
Qed.

Lemma dropScan_lands (b : grid) (col : Z) (rows : list Z) :
  dropScan b col rows <> -1 -> Forall (fun r => 0 <= r <= 5) rows ->
  forall q, cell_at b (dropScan b col rows) col <> Some (Disc q).
Proof.
  intros Hne Hrows. induction Hrows as [|r rows Hr Hrows IH]; simpl in *; [congruence|].
  destruct (cell_at b r col) as [[|q']|] eqn:E; [congruence| |congruence].
  apply IH. exact Hne.
Qed.

Lemma drop_rows_range : Forall (fun r => 0 <= r <= 5) [5; 4; 3; 2; 1; 0].
Proof. repeat constructor; lia. Qed.

Lemma dropRow_range (b : grid) (col : Z) :
  dropRow b col = -1 \/ 0 <= dropRow b col <= 5.
Proof. apply dropScan_range, drop_rows_range. Qed.

(** The scan fails exactly on a full column. *)
Lemma dropRow_full (b : grid) (col : Z) :
  dropRow b col = -1 <-> column_full b col.
Proof.
  unfold dropRow, column_full. rewrite (dropScan_full _ _ _ drop_rows_range). split.
  - intros H r Hr. apply H. simpl. lia.
  - intros H r Hin. apply H. simpl in Hin. lia.
Qed.

(** ** [makeMove], case by case *)

Lemma dropScanOff_range (off : gmap (Z * string) color) (k : string) (rows : list Z) :
  Forall (fun r => 0 <= r <= 5) rows ->
  dropScanOff off k rows = -1 \/ 0 <= dropScanOff off k rows <= 5.
Proof.
  induction 1 as [|r rows Hr _ IH]; simpl; [left; reflexivity|].
  destruct (off !! (r, k)); [exact IH|right; exact Hr].
Qed.

Lemma dropScanOff_lands (off : gmap (Z * string) color) (k : string) (rows : list Z) :
  dropScanOff off k rows <> -1 ->
  Forall (fun r => 0 <= r <= 5) rows ->
  off !! (dropScanOff off k rows, k) = None.
Proof.
  intros Hne Hrows. induction Hrows as [|r rows Hr _ IH]; simpl in *; [contradiction|].
  destruct (off !! (r, k)) eqn:E; [apply IH; exact Hne|exact E].
Qed.

Lemma dropRowAt_range (g : game) (sl : slot) :
  dropRowAt g sl = -1 \/ 0 <= dropRowAt g sl <= 5.
Proof.
  destruct sl as [i|k|]; unfold dropRowAt.
  - apply dropRow_range.
  - apply dropScanOff_range, drop_rows_range.
  - left; reflexivity.
Qed.

Section MakeMove.
Variables (sock gid : string) (col : column) (c : color) (now : Z) (s : server).

Lemma makeMove_not_found :
  games s !! gid = None ->
  exists text, makeMove sock gid col c now s = (s, [Emit sock (errorMsg text)]).
Proof.
  intros H. unfold makeMove. rewrite H.
  destruct (inheritedName gid); eexists; reflexivity.
Qed.

Lemma makeMove_ended (g : game) :
  games s !! gid = Some g -> is_Some (winner g) ->
  makeMove sock gid col c now s = (s, [Emit sock (errorMsg "Game has already ended.")]).
Proof. intros H Hw. unfold makeMove. rewrite H, bool_decide_eq_true_2 by exact Hw. reflexivity. Qed.

Lemma makeMove_wrong_turn (g : game) :
  games s !! gid = Some g -> winner g = None -> currentPlayer g <> c ->
  makeMove sock gid col c now s = (s, [Emit sock (errorMsg "It's not your turn.")]).
Proof.
  intros H Hw Hc. unfold makeMove. rewrite H, bool_decide_eq_false_2.
  - rewrite bool_decide_eq_true_2 by exact Hc. reflexivity.
  - rewrite Hw. intros [? ?]. discriminate.
Qed.

Lemma makeMove_seat_empty (g : game) :
  games s !! gid = Some g -> winner g = None -> currentPlayer g = c ->
  red (players g) = None \/ yellow (players g) = None ->
  makeMove sock gid col c now s = (s, [Emit sock (errorMsg "Waiting for opponent to join.")]).
Proof.
  intros H Hw Hc Hseat. unfold makeMove. rewrite H, bool_decide_eq_false_2.
  - rewrite bool_decide_eq_false_2 by (intros Hn; apply Hn; exact Hc).
    replace (bool_decide (red (players g) = None) || bool_decide (yellow (players g) = None))
      with true; [reflexivity|].
    symmetry. apply orb_true_iff. rewrite !bool_decide_eq_true. exact Hseat.
  - rewrite Hw. intros [? ?]. discriminate.
Qed.

Lemma makeMove_eligible (g : game) :
  eligible s gid c g ->
  makeMove sock gid col c now s =
    match outOfRange col with
    | None => (s, [Uncaught])
    | Some true => (s, [Emit sock (errorMsg "Invalid column.")])
    | Some false =>
        let row := dropRowAt g (slotOf col) in
        if row =? -1
        then (s, [Emit sock (errorMsg "Column is full. Choose another column.")])
        else
          let g1 := placeDisc row col c now g in
          (if checkWinAt row col (board g1) (offGrid g1) c
           then set_games (<[gid := finishWon row col c g1]> (games s))
                  (updatePlayerStats (originalGameId g) (Won c) s)
           else if isBoardFull (board g1)
           then set_games (<[gid := finishDraw g1]> (games s)) s
           else set_games (<[gid := set_currentPlayer (other c) g1]> (games s)) s,
           [Emit gid (moveAnimation row col c); SetTimeout (broadcastMove gid) 500])
    end.
Proof.
  intros (H & Hw & Hc & [r Hr] & [y Hy]). unfold makeMove. rewrite H.
  rewrite bool_decide_eq_false_2 by (rewrite Hw; intros [? ?]; discriminate).
  rewrite bool_decide_eq_false_2 by (intros Hn; apply Hn; exact Hc).
  rewrite Hr, Hy. simpl orb. cbv iota.
  destruct (outOfRange col) as [[|]|]; [reflexivity| |reflexivity].
  cbv zeta. destruct (dropRowAt g (slotOf col) =? -1); [reflexivity|].
  unfold finishWon, finishDraw, placeDisc. cbv zeta.
  assert (Hog : forall sl row, originalGameId (setAt row sl c g) = originalGameId g)
    by (intros [i|k|] row; reflexivity).
  simpl originalGameId. rewrite Hog. simpl board. simpl offGrid.
  destruct (checkWinAt _ _ _ _ _).
  - unfold updatePlayerStats. destruct (playerStats s !! _); reflexivity.
  - destruct (isBoardFull _); reflexivity.
Qed.

(** Every run of the handler falls under one of the cases above. *)
Lemma makeMove_entry :
  games s !! gid = None \/
  (exists g, games s !! gid = Some g /\
     (is_Some (winner g) \/
      (winner g = None /\ currentPlayer g <> c) \/
      (winner g = None /\ currentPlayer g = c /\
         (red (players g) = None \/ yellow (players g) = None)))) \/
  (exists g, eligible s gid c g).
Proof.
  destruct (games s !! gid) as [g|] eqn:H; [right|left; reflexivity].
  destruct (winner g) as [w|] eqn:Hw; [left; exists g; eauto 6|].
  destruct (decide (currentPlayer g = c)) as [Hc|Hc]; [|left; exists g; eauto 6].
  destruct (red (players g)) as [r|] eqn:Hr; [|left; exists g; rewrite Hw; eauto 8].
  destruct (yellow (players g)) as [y|] eqn:Hy; [|left; exists g; rewrite Hw; eauto 8].
  right. exists g. unfold eligible. rewrite Hr, Hy. eauto 8.
Qed.
End MakeMove.

(** The two column tests, for an integer column. *)
Lemma outOfRange_whole (n : Z) :
  outOfRange (Whole n) = Some true <-> n < 0 \/ n > 6.
Proof.
  simpl. split.
  - intros H. injection H as H. apply orb_true_iff in H as [H|H].
    + apply Z.ltb_lt in H. lia.
    + apply Z.gtb_lt in H. lia.
  - intros H. f_equal. apply orb_true_iff. rewrite Z.gtb_ltb, !Z.ltb_lt. lia.
Qed.

Lemma inRange_whole (n : Z) :
  outOfRange (Whole n) = Some false <-> 0 <= n <= 6.
Proof.
  simpl. split.
  - intros H. injection H as H. apply orb_false_iff in H as [H1 H2].
    apply Z.ltb_ge in H1. rewrite Z.gtb_ltb in H2. apply Z.ltb_ge in H2. lia.
  - intros H. f_equal. apply orb_false_iff. rewrite Z.gtb_ltb, !Z.ltb_ge. lia.
Qed.

Section MakeMoveOutcome.
Variables (sock gid : string) (col : column) (c : color) (now : Z) (s : server).

(** A refusal is caused by one of the six tests of the handler, and each
    of them causes one. *)
Lemma makeMove_refused_iff :
  refused sock (makeMove sock gid col c now s) <->
  games s !! gid = None \/
  exists g, games s !! gid = Some g /\
    (is_Some (winner g) \/ currentPlayer g <> c \/
     red (players g) = None \/ yellow (players g) = None \/
     outOfRange col = Some true \/
     (outOfRange col = Some false /\ dropRowAt g (slotOf col) = -1)).
Proof.
  destruct (makeMove_entry gid c s) as [Hnone|[(g & Hg & Hcase)|(g & Hel)]].
  - destruct (makeMove_not_found sock gid col c now s Hnone) as [text Ht]. rewrite Ht.
    split; [auto|]. intros _. eexists. reflexivity.
  - assert (Href : refused sock (makeMove sock gid col c now s)).
    { destruct Hcase as [Hw|[[Hw Hc]|(Hw & Hc & Hseat)]].
      - rewrite (makeMove_ended sock gid col c now s g Hg Hw). eexists. reflexivity.
      - rewrite (makeMove_wrong_turn sock gid col c now s g Hg Hw Hc). eexists. reflexivity.
      - rewrite (makeMove_seat_empty sock gid col c now s g Hg Hw Hc Hseat).
        eexists. reflexivity. }
    split; [|intros _; exact Href]. intros _. right. exists g. split; [exact Hg|].
    destruct Hcase as [Hw|[[Hw Hc]|(Hw & Hc & [Hseat|Hseat])]]; auto 8.
  - rewrite (makeMove_eligible sock gid col c now s g Hel).
    destruct Hel as (Hg & Hw & Hc & Hr & Hy).
    assert (Hno : forall g', games s !! gid = Some g' ->
              ~ (is_Some (winner g') \/ currentPlayer g' <> c \/
                 red (players g') = None \/ yellow (players g') = None)).
    { intros g' Hg' Hcase. assert (g' = g) by congruence. subst g'.
      destruct Hcase as [[w Hw']|[Hc'|[Hr'|Hy']]].
      - congruence.
      - congruence.
      - rewrite Hr' in Hr. destruct Hr. discriminate.
      - rewrite Hy' in Hy. destruct Hy. discriminate. }
    destruct (outOfRange col) as [[|]|] eqn:Ecol.
    + split; [|intros _; eexists; reflexivity]. intros _. right. exists g.
      split; [exact Hg|]. auto 8.
    + cbv zeta. destruct (dropRowAt g (slotOf col) =? -1) eqn:Erow.
      * split; [|intros _; eexists; reflexivity]. intros _. right. exists g.
        split; [exact Hg|]. apply Z.eqb_eq in Erow. auto 10.
      * apply Z.eqb_neq in Erow. split.
        -- intros [text Ht]. simpl in Ht. discriminate Ht.
        -- intros [Hnone|(g' & Hg' & Hcase)]; [congruence|]. exfalso.
           destruct Hcase as [H|[H|[H|[H|[H|[_ H]]]]]].
           ++ apply (Hno g' Hg'); auto.
           ++ apply (Hno g' Hg'); auto.
           ++ apply (Hno g' Hg'); auto.
           ++ apply (Hno g' Hg'); auto.
           ++ discriminate H.
           ++ assert (g' = g) by congruence. subst g'. contradiction.
    + split.
      * intros [text Ht]. simpl in Ht. discriminate Ht.
      * intros [Hnone|(g' & Hg' & Hcase)]; [congruence|]. exfalso.
        destruct Hcase as [H|[H|[H|[H|[H|[H _]]]]]].
        -- apply (Hno g' Hg'); auto.
        -- apply (Hno g' Hg'); auto.
        -- apply (Hno g' Hg'); auto.
        -- apply (Hno g' Hg'); auto.
        -- discriminate H.
        -- discriminate H.
Qed.
End MakeMoveOutcome.

(** C5: whenever [makeMove] refuses a move, that is whenever its only
    output is the error message to the sender (after any of its six tests:
    session not found, winner set, wrong turn, a seat empty, column outside
    0..6, column full), the server state it returns is the state it was
    given: board, move count, current player, status, winner and
    [lastMoveAt] of every session are untouched.  This holds whatever value
    the payload gives as its column. *)
Theorem makeMove_refused_unchanged (sock gid : string) (col : column) (c : color) (now : Z)
    (s : server) :
  refused sock (makeMove sock gid col c now s) ->
  fst (makeMove sock gid col c now s) = s.
Proof.
  intros Href.
  destruct (makeMove_entry gid c s) as [Hnone|[(g & Hg & Hcase)|(g & Hel)]].
  - destruct (makeMove_not_found sock gid col c now s Hnone) as [text Ht]. rewrite Ht.
    reflexivity.
  - destruct Hcase as [Hw|[[Hw Hc]|(Hw & Hc & Hseat)]].
    + rewrite (makeMove_ended sock gid col c now s g Hg Hw). reflexivity.
    + rewrite (makeMove_wrong_turn sock gid col c now s g Hg Hw Hc). reflexivity.
    + rewrite (makeMove_seat_empty sock gid col c now s g Hg Hw Hc Hseat). reflexivity.
  - rewrite (makeMove_eligible sock gid col c now s g Hel) in *.
    destruct (outOfRange col) as [[|]|]; [reflexivity| |reflexivity]. cbv zeta in *.
    destruct (dropRowAt g (slotOf col) =? -1); [reflexivity|].
    destruct Href as [text Ht]. simpl in Ht. discriminate Ht.
Qed.

(** A move is played only from an eligible session, into the row found by
    the drop scan of a column that passes the range test. *)
Lemma makeMove_played_inv (sock gid : string) (col : column) (c : color) (now : Z)
    (s : server) (row : Z) :
  played gid row col c (makeMove sock gid col c now s) ->
  exists g, eligible s gid c g /\ outOfRange col = Some false /\
            row = dropRowAt g (slotOf col) /\ 0 <= row <= 5.
Proof.
  intros Hp. unfold played in Hp.
  destruct (makeMove_entry gid c s) as [Hnone|[(g & Hg & Hcase)|(g & Hel)]].
  - destruct (makeMove_not_found sock gid col c now s Hnone) as [text Ht].
    rewrite Ht in Hp. discriminate Hp.
  - destruct Hcase as [Hw|[[Hw Hc]|(Hw & Hc & Hseat)]].
    + rewrite (makeMove_ended sock gid col c now s g Hg Hw) in Hp. discriminate Hp.
    + rewrite (makeMove_wrong_turn sock gid col c now s g Hg Hw Hc) in Hp. discriminate Hp.
    + rewrite (makeMove_seat_empty sock gid col c now s g Hg Hw Hc Hseat) in Hp.
      discriminate Hp.
  - exists g. split; [exact Hel|].
    rewrite (makeMove_eligible sock gid col c now s g Hel) in Hp.
    destruct (outOfRange col) as [[|]|] eqn:Ecol; [discriminate Hp| |discriminate Hp].
    cbv zeta in Hp.
    destruct (dropRowAt g (slotOf col) =? -1) eqn:Erow; [discriminate Hp|].
    apply Z.eqb_neq in Erow. simpl in Hp. injection Hp as Hrow.
    split; [reflexivity|]. split; [congruence|].
    destruct (dropRowAt_range g (slotOf col)); [contradiction|]. congruence.
Qed.

(** The state after a played move, by the branch taken. *)
Lemma makeMove_played_state (sock gid : string) (col : column) (c : color) (now : Z)
    (s : server) (g : game) :
  eligible s gid c g -> outOfRange col = Some false -> dropRowAt g (slotOf col) <> -1 ->
  let row := dropRowAt g (slotOf col) in
  let g1 := placeDisc row col c now g in
  makeMove sock gid col c now s =
    (if checkWinAt row col (board g1) (offGrid g1) c
     then set_games (<[gid := finishWon row col c g1]> (games s))
            (updatePlayerStats (originalGameId g) (Won c) s)
     else if isBoardFull (board g1)
     then set_games (<[gid := finishDraw g1]> (games s)) s
     else set_games (<[gid := set_currentPlayer (other c) g1]> (games s)) s,
     [Emit gid (moveAnimation row col c); SetTimeout (broadcastMove gid) 500]).
Proof.
  intros Hel Hcol Hrow. rewrite (makeMove_eligible sock gid col c now s g Hel), Hcol.
  cbv zeta. apply Z.eqb_neq in Hrow. rewrite Hrow. reflexivity.
Qed.

(** The fields of a session that the placement of a disc leaves alone. *)
Lemma placeDisc_fields (row : Z) (col : column) (c : color) (now : Z) (g : game) :
  let g1 := placeDisc row col c now g in
  currentPlayer g1 = currentPlayer g /\ players g1 = players g /\
  winner g1 = winner g /\ winningCells g1 = winningCells g /\ status g1 = status g /\
  createdAt g1 = createdAt g /\ originalGameId g1 = originalGameId g /\
  gameNumber g1 = gameNumber g /\ moves g1 = moves g + 1 /\ lastMoveAt g1 = Some now.
Proof. unfold placeDisc. cbv zeta. destruct (slotOf col); simpl; repeat split; reflexivity. Qed.

Lemma placeDisc_whole (row n : Z) (c : color) (now : Z) (g : game) :
  board (placeDisc row (Whole n) c now g) = set_cell (board g) row n (Disc c) /\
  offGrid (placeDisc row (Whole n) c now g) = offGrid g.
Proof. split; reflexivity. Qed.


(** C9 (amended): [makeMove] never looks at the sender.  For a session in
    [Playing] status whose winner is unset, with both seats taken, current
    player [c], and a column in range that is not full, a move claiming
    colour [c] is played whoever sends it, and the returned state and output
    are the same for any two senders. *)
Theorem makeMove_any_sender (sock1 sock2 gid : string) (col : Z) (c : color) (now : Z)
    (s : server) (g : game) :
  games s !! gid = Some g -> status g = Playing -> winner g = None ->
  is_Some (red (players g)) -> is_Some (yellow (players g)) ->
  currentPlayer g = c -> 0 <= col <= 6 -> ~ column_full (board g) col ->
  makeMove sock1 gid (Whole col) c now s = makeMove sock2 gid (Whole col) c now s /\
  exists row, played gid row (Whole col) c (makeMove sock1 gid (Whole col) c now s).
Proof.
  intros Hg _ Hw Hr Hy Hc Hcol Hfull.
  assert (Hel : eligible s gid c g) by (unfold eligible; auto).
  assert (Hrow : dropRowAt g (slotOf (Whole col)) <> -1)
    by (simpl; rewrite dropRow_full; exact Hfull).
  apply inRange_whole in Hcol.
  rewrite (makeMove_played_state sock1 gid (Whole col) c now s g Hel Hcol Hrow).
  rewrite (makeMove_played_state sock2 gid (Whole col) c now s g Hel Hcol Hrow).
  split; [reflexivity|]. exists (dropRow (board g) col). reflexivity.
Qed.

(** C10: [requestRematch] asks nothing of the status or the winner.  For a
    session with both seats taken it stores, under the session id, the
    entry made of the sender, the other seat (the red seat when the sender
    holds neither) and the clock value, in place of whatever entry was
    there, leaves the sessions as they are and sends no error. *)
Theorem requestRematch_any_status (sock gid : string) (now : Z) (s : server)
    (g : game) (r y : string) :
  games s !! gid = Some g ->
  red (players g) = Some r -> yellow (players g) = Some y ->
  let opp := if bool_decide (r = sock) then y else r in
  requestRematch sock gid now s =
    (set_pendingRematches (<[gid := Rematch gid sock opp now]> (pendingRematches s)) s,
     [Emit opp (rematchRequested (nameOr s sock "Opponent") gid);
      Emit sock (rematchRequestSent (nameOr s opp "Opponent"))]) /\
  pendingRematches (fst (requestRematch sock gid now s)) !! gid
    = Some (Rematch gid sock opp now) /\
  games (fst (requestRematch sock gid now s)) = games s.
Proof.
  intros Hg Hr Hy opp. unfold requestRematch. rewrite Hg.
  destruct g as [b cp [r0 rn y0 yn] w wc st ca lm mv og gn ex]. simpl in Hr, Hy. subst r0 y0.
  fold opp. split; [reflexivity|]. simpl. split; [apply lookup_insert_eq|reflexivity].
Qed.

(** C3 (amended): accepting a pending rematch, by its recorded opponent,
    for a session that exists and whose series has stats, with a drawn id
    other than the old session's id, returns normally; the state then holds
    under the drawn id a session with the old series id, game number
    [gamesPlayed + 1], status [Playing], the old seats, an empty board, no
    moves and no winner; the old session and the pending entry are gone. *)
Theorem acceptRematch_new_session (sock gid newId : string) (now : Z) (s : server)
    (pending : rematch) (g : game) (st : stats) :
  pendingRematches s !! gid = Some pending -> opponent pending = sock ->
  games s !! gid = Some g -> playerStats s !! originalGameId g = Some st ->
  newId <> gid ->
  exists s' out fresh,
    acceptRematch sock gid newId now s = Returns s' out /\
    games s' !! newId = Some fresh /\
    originalGameId fresh = originalGameId g /\
    gameNumber fresh = gamesPlayed st + 1 /\
    status fresh = Playing /\ players fresh = players g /\
    board fresh = emptyBoard /\ moves fresh = 0 /\ winner fresh = None /\
    games s' !! gid = None /\ pendingRematches s' !! gid = None /\
    playerStats s' = playerStats s.
Proof.
  intros Hp Hopp Hg Hst Hne. unfold acceptRematch. rewrite Hp.
  rewrite bool_decide_eq_false_2 by (intros Hn; apply Hn; exact Hopp).
  rewrite Hg, Hst. cbv zeta. simpl games.
  rewrite lookup_delete_ne, lookup_insert_eq by congruence.
  do 3 eexists. split; [reflexivity|]. simpl.
  rewrite lookup_delete_ne, lookup_insert_eq by congruence.
  rewrite !lookup_delete_eq.
  repeat split. destruct (players g); reflexivity.
Qed.

(** ** Boards and disc counts *)

Lemma emptyBoard_wf : board_wf emptyBoard.
Proof. split; [reflexivity|]. repeat constructor. Qed.

Lemma set_cell_wf (b : grid) (row col : Z) (v : cell) :
  board_wf b -> board_wf (set_cell b row col v).
Proof.
  intros [Hrows Hcols]. unfold set_cell. split.
  - rewrite length_alter. exact Hrows.
  - apply Forall_alter; [exact Hcols|].
    intros cells _ Hlen. rewrite length_insert. exact Hlen.
Qed.

Lemma cell_at_defined (b : grid) (r c : Z) :
  board_wf b -> 0 <= r < 6 -> 0 <= c < 7 -> is_Some (cell_at b r c).
Proof.
  intros [Hrows Hcols] Hr Hc. unfold cell_at.
  replace (0 <=? r) with true by (symmetry; apply Z.leb_le; lia).
  replace (0 <=? c) with true by (symmetry; apply Z.leb_le; lia). simpl.
  destruct (lookup_lt_is_Some_2 b (Z.to_nat r)) as [cells Hcells]; [lia|].
  rewrite Hcells. apply lookup_lt_is_Some_2.
  rewrite Forall_lookup in Hcols. rewrite (Hcols _ _ Hcells). lia.
Qed.

Lemma discsRow_insert (cells : list cell) (j : nat) (p : color) :
  cells !! j = Some Empty ->
  discsRow (<[j := Disc p]> cells) = S (discsRow cells).
Proof.
  revert j. induction cells as [|v cells IH]; intros [|j] H; simpl in *; try discriminate.
  - injection H as ->. reflexivity.
  - unfold discsRow in *. simpl. destruct (occupied v); simpl; rewrite (IH j H); reflexivity.
Qed.

Lemma discs_alter (b : grid) (i : nat) (f : list cell -> list cell) (cells : list cell) :
  b !! i = Some cells -> discsRow (f cells) = S (discsRow cells) ->
  discs (alter f i b) = S (discs b).
Proof.
  revert i. induction b as [|row0 b IH]; intros [|i] H Hf; simpl in *; try discriminate.
  - injection H as ->. rewrite Hf. reflexivity.
  - specialize (IH i H Hf). unfold alter in IH. rewrite IH. lia.
Qed.

(** Placing a disc on an empty cell adds one disc to the board. *)
Lemma discs_set_cell (b : grid) (row col : Z) (p : color) :
  0 <= row -> 0 <= col -> cell_at b row col = Some Empty ->
  discs (set_cell b row col (Disc p)) = S (discs b).
Proof.
  intros Hr Hc H. unfold cell_at in H.
  replace (0 <=? row) with true in H by (symmetry; apply Z.leb_le; lia).
  replace (0 <=? col) with true in H by (symmetry; apply Z.leb_le; lia). simpl in H.
  destruct (b !! Z.to_nat row) as [cells|] eqn:Eb; [|discriminate].
  unfold set_cell. apply (discs_alter _ _ _ cells Eb).
  apply discsRow_insert. exact H.
Qed.

(** The row found by the drop scan is an empty cell of the grid. *)
Lemma dropRow_empty (b : grid) (col : Z) :
  board_wf b -> 0 <= col <= 6 -> dropRow b col <> -1 ->
  0 <= dropRow b col <= 5 /\ cell_at b (dropRow b col) col = Some Empty.
Proof.
  intros Hwf Hcol Hne.
  destruct (dropRow_range b col) as [|Hr]; [contradiction|]. split; [exact Hr|].
  destruct (cell_at_defined b (dropRow b col) col Hwf) as [v Hv]; [lia|lia|].
  destruct v as [|q]; [exact Hv|].
  exfalso. exact (dropScan_lands b col _ Hne drop_rows_range q Hv).
Qed.

(** An index key that passes the range test names a column of the grid. *)
Lemma slot_index_range (col : column) (i : Z) :
  outOfRange col = Some false -> slotOf col = Index i -> 0 <= i <= 6.
Proof.
  destruct col as [n|v|]; simpl; intros H E.
  - injection E as <-. apply inRange_whole. exact H.
  - rewrite E in H. apply (inRange_whole i). exact H.
  - discriminate E.
Qed.

(** The assignment [board[row][col] = color] at the row found by the scan
    sets one property that was not set: a cell of the grid, or a property
    off the grid. *)
Lemma setAt_counts (g : game) (sl : slot) (c : color) :
  board_wf (board g) -> (forall i, sl = Index i -> 0 <= i <= 6) ->
  dropRowAt g sl <> -1 ->
  let g1 := setAt (dropRowAt g sl) sl c g in
  board_wf (board g1) /\
  (discs (board g1) + size (offGrid g1) = S (discs (board g) + size (offGrid g)))%nat.
Proof.
  intros Hwf Hsl Hne. destruct sl as [i|k|]; cbn [setAt dropRowAt] in *.
  - pose proof (Hsl i eq_refl) as Hi.
    destruct (dropRow_empty (board g) i Hwf Hi Hne) as [Hrow Hcell].
    split; [apply set_cell_wf, Hwf|]. cbn [board offGrid set_board].
    rewrite (discs_set_cell (board g) _ i c); [reflexivity|lia|lia|exact Hcell].
  - split; [exact Hwf|]. cbn [board offGrid set_offGrid].
    rewrite map_size_insert_None by (apply dropScanOff_lands; [exact Hne|apply drop_rows_range]).
    lia.
  - contradiction.
Qed.

Lemma state_of_returns (r : server * list effect) : state_of (returns r) = fst r.
Proof. unfold returns. destruct (thrown (snd r)); reflexivity. Qed.

(** ** The session invariant *)

Lemma game_ok_stats (s s' : server) (g : game) :
  (forall k, is_Some (playerStats s !! k) -> is_Some (playerStats s' !! k)) ->
  game_ok s g -> game_ok s' g.
Proof.
  intros Hmono (Hwf & Hmoves & Hfin & Hstats).
  split; [exact Hwf|]. split; [exact Hmoves|]. split; [exact Hfin|].
  intros Hy. apply Hmono, Hstats, Hy.
Qed.

Lemma game_ok_vacate (s : server) (sock : string) (g : game) :
  game_ok s g -> game_ok s (vacate sock g).
Proof.
  intros (Hwf & Hmoves & Hfin & Hstats). unfold vacate.
  destruct (bool_decide (red (players g) = Some sock)).
  - split; [exact Hwf|]. split; [exact Hmoves|]. split; [discriminate|exact Hstats].
  - destruct (bool_decide (yellow (players g) = Some sock)).
    + split; [exact Hwf|]. split; [exact Hmoves|]. split; [discriminate|].
      simpl. intros [? ?]. discriminate.
    + split; [exact Hwf|]. split; [exact Hmoves|]. split; [exact Hfin|exact Hstats].
Qed.

Lemma server_ok_insert (s s' : server) (gid : string) (g' : game) :
  server_ok s ->
  (forall k, is_Some (playerStats s !! k) -> is_Some (playerStats s' !! k)) ->
  games s' = <[gid := g']> (games s) -> game_ok s' g' -> server_ok s'.
Proof.
  intros Hok Hmono Hgames Hg' k g Hk. rewrite Hgames in Hk.
  destruct (decide (gid = k)) as [->|Hne].
  - rewrite lookup_insert_eq in Hk. injection Hk as <-. exact Hg'.
  - rewrite lookup_insert_ne in Hk by exact Hne.
    eapply game_ok_stats; [exact Hmono|]. eapply Hok. exact Hk.
Qed.

Lemma server_ok_subset (s s' : server) :
  server_ok s ->
  (forall k, is_Some (playerStats s !! k) -> is_Some (playerStats s' !! k)) ->
  (forall k g, games s' !! k = Some g -> games s !! k = Some g) -> server_ok s'.
Proof.
  intros Hok Hmono Hsub k g Hk.
  eapply game_ok_stats; [exact Hmono|]. eapply Hok, Hsub, Hk.
Qed.

Lemma playerStats_set_games (m : gmap string game) (s : server) :
  playerStats (set_games m s) = playerStats s.
Proof. reflexivity. Qed.

Lemma updatePlayerStats_games (gid : string) (w : result) (s : server) :
  games (updatePlayerStats gid w s) = games s.
Proof. unfold updatePlayerStats. destruct (playerStats s !! gid); reflexivity. Qed.

Lemma updatePlayerStats_keeps (gid : string) (w : result) (s : server) (k : string) :
  is_Some (playerStats s !! k) -> is_Some (playerStats (updatePlayerStats gid w s) !! k).
Proof.
  intros Hk. unfold updatePlayerStats. destruct (playerStats s !! gid) eqn:E; [|exact Hk].
  simpl. destruct (decide (gid = k)) as [->|Hne].
  - rewrite lookup_insert_eq. eauto.
  - rewrite lookup_insert_ne by exact Hne. exact Hk.
Qed.

Lemma initializePlayerStats_games (gid : string) (r y rn yn : option string) (s : server) :
  games (initializePlayerStats gid r y rn yn s) = games s.
Proof. unfold initializePlayerStats. destruct (playerStats s !! gid); reflexivity. Qed.

Lemma initializePlayerStats_keeps (gid : string) (r y rn yn : option string) (s : server)
    (k : string) :
  is_Some (playerStats s !! k) ->
  is_Some (playerStats (initializePlayerStats gid r y rn yn s) !! k).
Proof.
  intros Hk. unfold initializePlayerStats. destruct (playerStats s !! gid) eqn:E; [exact Hk|].
  simpl. destruct (decide (gid = k)) as [->|Hne].
  - rewrite lookup_insert_eq. eauto.
  - rewrite lookup_insert_ne by exact Hne. exact Hk.
Qed.

Lemma initializePlayerStats_defined (gid : string) (r y rn yn : option string) (s : server) :
  is_Some (playerStats (initializePlayerStats gid r y rn yn s) !! gid).
Proof.
  unfold initializePlayerStats. destruct (playerStats s !! gid) eqn:E.
  - rewrite E. eauto.
  - simpl. rewrite lookup_insert_eq. eauto.
Qed.

Lemma init_ok : server_ok init.
Proof. intros gid g H. simpl in H. rewrite lookup_empty in H. discriminate. Qed.

Lemma createGame_ok (sock gid : string) (now : Z) (s : server) :
  server_ok s -> server_ok (fst (createGame sock gid now s)).
Proof.
  intros Hok. eapply server_ok_insert; [exact Hok| |reflexivity|].
  - intros k Hk. exact Hk.
  - split; [apply emptyBoard_wf|]. split; [reflexivity|]. split; [discriminate|].
    simpl. intros [? ?]. discriminate.
Qed.

Lemma joinGame_ok (sock gid : string) (s : server) :
  server_ok s -> server_ok (fst (joinGame sock gid s)).
Proof.
  intros Hok. unfold joinGame.
  destruct (games s !! gid) as [g|] eqn:Hg; [|destruct (inheritedName gid); exact Hok].
  destruct (yellow (players g)) eqn:Hy; [exact Hok|]. cbv zeta. simpl fst.
  destruct (Hok gid g Hg) as (Hwf & Hmoves & Hfin & Hstats).
  eapply server_ok_insert; [exact Hok| | |].
  - intros k Hk. apply initializePlayerStats_keeps. exact Hk.
  - rewrite initializePlayerStats_games. reflexivity.
  - split; [exact Hwf|]. split; [exact Hmoves|]. split; [discriminate|].
    intros _. apply initializePlayerStats_defined.
Qed.

Lemma makeMove_ok (sock gid : string) (col : column) (c : color) (now : Z) (s : server) :
  server_ok s -> server_ok (fst (makeMove sock gid col c now s)).
Proof.
  intros Hok.
  destruct (makeMove_entry gid c s) as [Hnone|[(g & Hg & Hcase)|(g & Hel)]].
  - destruct (makeMove_not_found sock gid col c now s Hnone) as [text Ht]. rewrite Ht.
    exact Hok.
  - destruct Hcase as [Hw|[[Hw Hc]|(Hw & Hc & Hseat)]].
    + rewrite (makeMove_ended sock gid col c now s g Hg Hw). exact Hok.
    + rewrite (makeMove_wrong_turn sock gid col c now s g Hg Hw Hc). exact Hok.
    + rewrite (makeMove_seat_empty sock gid col c now s g Hg Hw Hc Hseat). exact Hok.
  - rewrite (makeMove_eligible sock gid col c now s g Hel).
    destruct (outOfRange col) as [[|]|] eqn:Ecol; [exact Hok| |exact Hok].
    cbv zeta. destruct (dropRowAt g (slotOf col) =? -1) eqn:Erow; [exact Hok|].
    apply Z.eqb_neq in Erow. destruct Hel as (Hg & Hw & Hc & Hr & Hy).
    destruct (Hok gid g Hg) as (Hwf & Hmoves & Hfin & Hstats).
    destruct (setAt_counts g (slotOf col) c Hwf (fun i => slot_index_range col i Ecol) Erow)
      as [Hwf1 Hcount].
    set (row := dropRowAt g (slotOf col)) in *.
    destruct (placeDisc_fields row col c now g)
      as (Hcp & Hpl & Hwin & Hwc & Hst & _ & Hog & _ & Hmv & _).
    set (g1 := placeDisc row col c now g) in *.
    assert (Hb1 : board g1 = board (setAt row (slotOf col) c g)) by reflexivity.
    assert (Ho1 : offGrid g1 = offGrid (setAt row (slotOf col) c g)) by reflexivity.
    assert (Hwf' : board_wf (board g1)) by (rewrite Hb1; exact Hwf1).
    assert (Hmoves' : moves g1 = Z.of_nat (discs (board g1)) + Z.of_nat (size (offGrid g1)))
      by (rewrite Hmv, Hb1, Ho1; lia).
    assert (Hseats : is_Some (red (players g1)) /\ is_Some (yellow (players g1)))
      by (rewrite Hpl; auto).
    assert (Hstats1 : forall s', (forall k, is_Some (playerStats s !! k) ->
                                            is_Some (playerStats s' !! k)) ->
              is_Some (playerStats s' !! originalGameId g1))
      by (intros s' Hmono; rewrite Hog; apply Hmono, Hstats, Hy).
    cbn [fst]. destruct (checkWinAt row col (board g1) (offGrid g1) c).
    + eapply server_ok_insert; [exact Hok| | |].
      * intros k Hk. rewrite playerStats_set_games. apply updatePlayerStats_keeps, Hk.
      * cbn [games set_games]. reflexivity.
      * split; [exact Hwf'|]. split; [exact Hmoves'|]. split.
        -- intros _. split; [eexists; reflexivity|exact Hseats].
        -- intros _. apply Hstats1. intros k Hk. rewrite playerStats_set_games.
           apply updatePlayerStats_keeps, Hk.
    + destruct (isBoardFull (board g1)).
      * eapply server_ok_insert; [exact Hok| |reflexivity|].
        -- intros k Hk. exact Hk.
        -- split; [exact Hwf'|]. split; [exact Hmoves'|]. split.
           ++ intros _. split; [eexists; reflexivity|exact Hseats].
           ++ intros _. apply Hstats1. auto.
      * eapply server_ok_insert; [exact Hok| |reflexivity|].
        -- intros k Hk. exact Hk.
        -- split; [exact Hwf'|]. split; [exact Hmoves'|]. split.
           ++ change (status (set_currentPlayer (other c) g1)) with (status g1).
              rewrite Hst. intros Hfin'. destruct (Hfin Hfin') as [[w Hw'] _]. congruence.
           ++ intros _. apply Hstats1. auto.
Qed.

Lemma requestRematch_ok (sock gid : string) (now : Z) (s : server) :
  server_ok s -> server_ok (fst (requestRematch sock gid now s)).
Proof.
  intros Hok. unfold requestRematch.
  destruct (games s !! gid) as [[b cp [[r|] rn [y|] yn] w wc st ca lm mv og gn ex]|];
    try exact Hok.
  destruct (inheritedName gid); exact Hok.
Qed.

Lemma declineRematch_ok (sock gid : string) (s : server) :
  server_ok s -> server_ok (fst (declineRematch sock gid s)).
Proof.
  intros Hok. unfold declineRematch.
  destruct (pendingRematches s !! gid); [exact Hok|destruct (inheritedName gid); exact Hok].
Qed.

Lemma acceptRematch_ok (sock gid newId : string) (now : Z) (s : server) :
  server_ok s -> server_ok (state_of (acceptRematch sock gid newId now s)).
Proof.
  intros Hok. unfold acceptRematch.
  destruct (pendingRematches s !! gid) as [pending|]; [|exact Hok].
  destruct (bool_decide (opponent pending <> sock)); [exact Hok|].
  destruct (games s !! gid) as [g|] eqn:Hg; [|exact Hok].
  destruct (playerStats s !! originalGameId g) as [st|] eqn:Hst; [|exact Hok].
  cbv zeta.
  match goal with
  | |- server_ok (state_of (match ?x with Some c1 => Returns ?s3 _ | None => Throws _ ?o2 end)) =>
      cut (server_ok s3); [intros Hs3; destruct x; exact Hs3|]
  end.
  intros k g' Hk. simpl in Hk.
  destruct (decide (gid = k)) as [->|Hne]; [rewrite lookup_delete_eq in Hk; discriminate|].
  rewrite lookup_delete_ne in Hk by exact Hne.
  destruct (decide (newId = k)) as [->|Hne'].
  - rewrite lookup_insert_eq in Hk. injection Hk as <-.
    split; [apply emptyBoard_wf|]. split; [reflexivity|]. split; [discriminate|].
    intros _. simpl. rewrite Hst. eauto.
  - rewrite lookup_insert_ne in Hk by exact Hne'. exact (Hok k g' Hk).
Qed.

Lemma leaveGame_ok (sock gid : string) (s : server) :
  server_ok s -> server_ok (fst (leaveGame sock gid s)).
Proof.
  intros Hok. unfold leaveGame.
  destruct (games s !! gid) as [g|] eqn:Hg; [|destruct (inheritedName gid); exact Hok].
  simpl fst. eapply server_ok_insert; [exact Hok| |reflexivity|].
  - intros k Hk. exact Hk.
  - apply (game_ok_vacate s), (Hok gid g Hg).
Qed.

Lemma disconnect_ok (sock : string) (s : server) :
  server_ok s -> server_ok (fst (disconnect sock s)).
Proof.
  intros Hok k g Hk. simpl in Hk. rewrite lookup_fmap in Hk.
  destruct (games s !! k) as [g0|] eqn:Hg; [|discriminate].
  simpl in Hk. injection Hk as <-.
  apply (game_ok_vacate s), (Hok k g0 Hg).
Qed.

Lemma removeGameTimer_ok (gid : string) (s : server) :
  server_ok s -> server_ok (removeGameTimer gid s).
Proof.
  intros Hok. unfold removeGameTimer. destruct (games s !! gid) as [g0|]; [|exact Hok].
  eapply server_ok_subset; [exact Hok|intros k Hk; exact Hk|].
  intros k g Hk. simpl in Hk. apply lookup_delete_Some in Hk as [_ Hk]. exact Hk.
Qed.

Lemma sweepGames_ok (now : Z) (s : server) :
  server_ok s -> server_ok (sweepGames now s).
Proof.
  intros Hok. eapply server_ok_subset; [exact Hok|intros k Hk; exact Hk|].
  intros k g Hk. simpl in Hk. apply map_lookup_filter_Some in Hk as [Hk _]. exact Hk.
Qed.

(** Every event preserves the invariant, whichever way its handler ends. *)
Lemma handle_ok (ev : event) (s : server) :
  server_ok s -> server_ok (state_of (handle ev s)).
Proof.
  intros Hok. destruct ev; cbn [handle state_of]; rewrite ?state_of_returns.
  - exact Hok.
  - apply createGame_ok, Hok.
  - apply joinGame_ok, Hok.
  - apply makeMove_ok, Hok.
  - apply requestRematch_ok, Hok.
  - apply acceptRematch_ok, Hok.
  - apply declineRematch_ok, Hok.
  - apply leaveGame_ok, Hok.
  - apply disconnect_ok, Hok.
  - apply removeGameTimer_ok, Hok.
  - exact Hok.
  - apply sweepGames_ok, Hok.
  - exact Hok.
Qed.

Lemma reachable_ok (s : server) : reachable s -> server_ok s.
Proof.
  induction 1 as [|ev s _ IH]; [apply init_ok|apply handle_ok, IH].
Qed.

(** The state a run ends in is reachable from a reachable start. *)
Lemma reachable_run (evs : list event) (s : server) :
  reachable s -> reachable (state_of (run evs s)).
Proof.
  revert s. induction evs as [|ev evs IH]; intros s Hs; simpl; [exact Hs|].
  pose proof (reachable_step ev s Hs) as Hstep.
  destruct (handle ev s) as [s' out|s' out]; simpl in *; [apply IH, Hstep|exact Hstep].
Qed.

(** ** Reachable sessions *)

(** C4: in a reachable state, after a played move of colour [c] the
    session's series has stats.  When [checkWin] answers true on the board
    with the disc placed, the session's winner is [c] and its status
    [Finished], and the stats of the series have [c]'s win counter and
    [gamesPlayed] each increased by one and the other win counter
    unchanged.  When [checkWin] answers false, the stats table is the one
    before the move; the winner is then the draw if the board is full and
    unset otherwise. *)
Theorem makeMove_series_stats (sock gid : string) (col : column) (c : color) (now : Z)
    (s : server) (g : game) (row : Z) :
  reachable s -> games s !! gid = Some g ->
  played gid row col c (makeMove sock gid col c now s) ->
  let s' := fst (makeMove sock gid col c now s) in
  let g1 := placeDisc row col c now g in
  exists g' st, games s' !! gid = Some g' /\
    playerStats s !! originalGameId g = Some st /\
    if checkWinAt row col (board g1) (offGrid g1) c
    then winner g' = Some (Won c) /\ status g' = Finished /\
         exists st', playerStats s' !! originalGameId g = Some st' /\
           wins (sideOf c st') = wins (sideOf c st) + 1 /\
           (forall c', c' <> c -> wins (sideOf c' st') = wins (sideOf c' st)) /\
           gamesPlayed st' = gamesPlayed st + 1
    else playerStats s' = playerStats s /\
         winner g' = (if isBoardFull (board g1) then Some Draw else None) /\
         (isBoardFull (board g1) = true -> status g' = Finished).
Proof.
  intros Hs Hg Hp s' g1. subst s'.
  destruct (makeMove_played_inv sock gid col c now s row Hp) as (g0 & Hel & Hcol & Hrow & Hr).
  assert (g0 = g) by (destruct Hel as [H0 _]; congruence). subst g0.
  destruct (reachable_ok s Hs gid g Hg) as (_ & _ & _ & Hstats).
  assert (Hne : dropRowAt g (slotOf col) <> -1) by lia.
  rewrite (makeMove_played_state sock gid col c now s g Hel Hcol Hne).
  cbv zeta. rewrite <- Hrow. fold g1. cbn [fst].
  destruct Hel as (_ & Hw & _ & _ & Hy). destruct (Hstats Hy) as [st Hst].
  destruct (placeDisc_fields row col c now g) as (_ & _ & Hwin & _). fold g1 in Hwin.
  destruct (checkWinAt row col (board g1) (offGrid g1) c).
  - exists (finishWon row col c g1), st. split; [apply lookup_insert_eq|].
    split; [exact Hst|]. split; [reflexivity|]. split; [reflexivity|].
    unfold updatePlayerStats. rewrite Hst.
    eexists. cbn [playerStats set_games set_playerStats].
    split; [apply lookup_insert_eq|].
    split; [destruct c; simpl; lia|]. split; [|destruct c; simpl; lia].
    intros c' Hc'. destruct c, c'; try contradiction; reflexivity.
  - destruct (isBoardFull (board g1)).
    + exists (finishDraw g1), st. split; [apply lookup_insert_eq|].
      split; [exact Hst|]. split; [reflexivity|]. split; reflexivity.
    + exists (set_currentPlayer (other c) g1), st. split; [apply lookup_insert_eq|].
      split; [exact Hst|]. split; [reflexivity|].
      split; [|discriminate].
      change (winner (set_currentPlayer (other c) g1)) with (winner g1).
      rewrite Hwin. exact Hw.
Qed.

(** ** What events do to a finished session *)

Lemma joinGame_other (sock gid k : string) (s : server) :
  k <> gid -> games (fst (joinGame sock gid s)) !! k = games s !! k.
Proof.
  intros Hne. unfold joinGame.
  destruct (games s !! gid) as [g|]; [|destruct (inheritedName gid); reflexivity].
  destruct (yellow (players g)); [reflexivity|]. cbv zeta. cbn [fst].
  rewrite initializePlayerStats_games. cbn [games set_games].
  apply lookup_insert_ne. congruence.
Qed.

Lemma joinGame_full (sock gid : string) (s : server) (g : game) :
  games s !! gid = Some g -> is_Some (yellow (players g)) ->
  fst (joinGame sock gid s) = s.
Proof.
  intros Hg [y Hy]. unfold joinGame. rewrite Hg, Hy. reflexivity.
Qed.

Lemma makeMove_other (sock gid k : string) (col : column) (c : color) (now : Z)
    (s : server) :
  k <> gid -> games (fst (makeMove sock gid col c now s)) !! k = games s !! k.
Proof.
  intros Hne.
  destruct (makeMove_entry gid c s) as [Hnone|[(g & Hg & Hcase)|(g & Hel)]].
  - destruct (makeMove_not_found sock gid col c now s Hnone) as [text Ht]. rewrite Ht.
    reflexivity.
  - destruct Hcase as [Hw|[[Hw Hc]|(Hw & Hc & Hseat)]].
    + rewrite (makeMove_ended sock gid col c now s g Hg Hw). reflexivity.
    + rewrite (makeMove_wrong_turn sock gid col c now s g Hg Hw Hc). reflexivity.
    + rewrite (makeMove_seat_empty sock gid col c now s g Hg Hw Hc Hseat). reflexivity.
  - rewrite (makeMove_eligible sock gid col c now s g Hel).
    destruct (outOfRange col) as [[|]|]; [reflexivity| |reflexivity]. cbv zeta.
    destruct (dropRowAt g (slotOf col) =? -1); [reflexivity|]. cbn [fst].
    destruct (checkWinAt _ _ _ _ _); [|destruct (isBoardFull _)];
      cbn [games set_games]; apply lookup_insert_ne; congruence.
Qed.

Lemma requestRematch_games (sock gid : string) (now : Z) (s : server) :
  games (fst (requestRematch sock gid now s)) = games s.
Proof.
  unfold requestRematch.
  destruct (games s !! gid) as [[b cp [[r|] rn [y|] yn] w wc st ca lm mv og gn ex]|];
    try reflexivity.
  destruct (inheritedName gid); reflexivity.
Qed.

Lemma declineRematch_games (sock gid : string) (s : server) :
  games (fst (declineRematch sock gid s)) = games s.
Proof.
  unfold declineRematch. destruct (pendingRematches s !! gid); [reflexivity|].
  destruct (inheritedName gid); reflexivity.
Qed.

Lemma vacate_not_seated (sock : string) (g : game) :
  seated sock g = false -> vacate sock g = g.
Proof.
  unfold seated, vacate. intros H. apply orb_false_iff in H as [-> ->]. reflexivity.
Qed.

Lemma vacate_seated (sock : string) (g : game) :
  seated sock g = true ->
  status (vacate sock g) = Abandoned /\
  winner (vacate sock g)
    = Some (Won (if bool_decide (red (players g) = Some sock) then Yellow else Red)) /\
  board (vacate sock g) = board g /\ moves (vacate sock g) = moves g.
Proof.
  unfold seated, vacate. intros H.
  destruct (bool_decide (red (players g) = Some sock)); [auto|].
  simpl in H. rewrite H. auto.
Qed.

(** What [acceptRematch] leaves under a key: the session that was there,
    nothing, or the session it has just made. *)
Lemma acceptRematch_lookup (sock gid newId k : string) (now : Z) (s : server) :
  let s' := state_of (acceptRematch sock gid newId now s) in
  (k <> gid -> k <> newId -> games s' !! k = games s !! k) /\
  (games s' !! k = games s !! k \/ games s' !! k = None \/
   exists fresh, games s' !! k = Some fresh /\
     board fresh = emptyBoard /\ moves fresh = 0 /\ winner fresh = None /\
     status fresh = Playing).
Proof.
  unfold acceptRematch.
  destruct (pendingRematches s !! gid) as [pending|]; [|simpl; auto].
  destruct (bool_decide (opponent pending <> sock)); [simpl; auto|].
  destruct (games s !! gid) as [g|] eqn:Hg; [|simpl; auto].
  destruct (playerStats s !! originalGameId g) as [st|] eqn:Hst; [|simpl; auto].
  cbv zeta.
  match goal with
  | |- context [match ?x with Some c1 => Returns ?s3 _ | None => Throws _ _ end] =>
      assert (Hst3 : forall T (f : server -> T) o1 o2,
                f (state_of (match x with
                            | Some c1 => Returns s3 (o1 c1)
                            | None => Throws s3 o2 end)) = f s3)
        by (intros; destruct x; reflexivity)
  end.
  rewrite (Hst3 _ (fun x => games x !! k)). cbn [games set_games set_pendingRematches].
  split.
  - intros H1 H2. rewrite lookup_delete_ne, lookup_insert_ne by congruence. reflexivity.
  - destruct (decide (gid = k)) as [->|Hne]; [rewrite lookup_delete_eq; auto|].
    rewrite lookup_delete_ne by exact Hne.
    destruct (decide (newId = k)) as [->|Hne'].
    + rewrite lookup_insert_eq. right. right. eexists. split; [reflexivity|]. simpl. auto.
    + rewrite lookup_insert_ne by exact Hne'. auto.
Qed.

(** C2 (amended): for a session of a reachable state whose status is
    [Finished], and an inbound event.  A [leaveGame] for it or a
    [disconnect], from a connection that holds one of its seats, empties
    that seat, sets its status to [Abandoned] and its winner to the other
    colour.  Every other event that neither draws its id as a new id nor
    accepts a rematch for it ([makeMove], [joinGame], [requestRematch],
    [declineRematch], [setPlayerName] always among them) leaves it exactly
    as it is, status and winner included.  An event that draws its id or
    accepts a rematch for it leaves it as it is, removes it, or puts a new
    session with an empty board and no winner in its place. *)
Theorem finished_session_step (ev : event) (s : server) (gid : string) (g : game) :
  reachable s -> games s !! gid = Some g -> status g = Finished ->
  inbound ev = true ->
  let s' := state_of (handle ev s) in
  match vacates ev gid g with
  | Some sock =>
      games s' !! gid = Some (vacate sock g) /\
      status (vacate sock g) = Abandoned /\
      winner (vacate sock g)
        = Some (Won (if bool_decide (red (players g) = Some sock) then Yellow else Red))
  | None =>
      if reallocates ev gid
      then games s' !! gid = Some g \/ games s' !! gid = None \/
           exists fresh, games s' !! gid = Some fresh /\
             board fresh = emptyBoard /\ winner fresh = None
      else games s' !! gid = Some g
  end.
Proof.
  intros Hs Hg Hfin Hin. cbv zeta.
  destruct (reachable_ok s Hs gid g Hg) as (_ & _ & Hdone & _).
  destruct (Hdone Hfin) as (Hw & Hr & Hy). clear Hdone.
  destruct ev as [sock name|sock newId now|sock gid'|sock gid' col c now|sock gid' now
                 |sock gid' newId now|sock gid'|sock gid'|sock|gid'|now|now|sock];
    try discriminate Hin; cbn [vacates reallocates handle]; rewrite ?state_of_returns.
  - exact Hg.
  - cbn [createGame fst games set_games]. case_bool_decide as Hid.
    + subst newId. rewrite lookup_insert_eq. right. right. eexists. eauto.
    + rewrite lookup_insert_ne by exact Hid. exact Hg.
  - destruct (decide (gid = gid')) as [<-|Hne].
    + rewrite (joinGame_full sock gid s g Hg Hy). exact Hg.
    + rewrite joinGame_other by exact Hne. exact Hg.
  - destruct (decide (gid = gid')) as [<-|Hne].
    + rewrite (makeMove_ended sock gid col c now s g Hg Hw). exact Hg.
    + rewrite makeMove_other by exact Hne. exact Hg.
  - rewrite requestRematch_games. exact Hg.
  - pose proof (acceptRematch_lookup sock gid' newId gid now s) as [Hsame Hany].
    cbv zeta in Hsame, Hany. rewrite Hg in Hsame, Hany.
    destruct (bool_decide (gid' = gid)) eqn:E1; simpl.
    + destruct Hany as [H|[H|(fresh & H & Hb & _ & Hwn & _)]]; eauto 8.
    + destruct (bool_decide (newId = gid)) eqn:E2.
      * destruct Hany as [H|[H|(fresh & H & Hb & _ & Hwn & _)]]; eauto 8.
      * apply bool_decide_eq_false in E1, E2. apply Hsame; congruence.
  - rewrite declineRematch_games. exact Hg.
  - unfold leaveGame. destruct (decide (gid' = gid)) as [->|Hne].
    + rewrite Hg. cbn [fst games set_games set_pendingRematches].
      rewrite bool_decide_eq_true_2 by reflexivity. simpl andb.
      destruct (seated sock g) eqn:Hseat.
      * destruct (vacate_seated sock g Hseat) as (H1 & H2 & _).
        rewrite lookup_insert_eq. auto.
      * rewrite lookup_insert_eq, (vacate_not_seated sock g Hseat). reflexivity.
    + rewrite bool_decide_eq_false_2 by exact Hne. simpl andb. cbv iota.
      destruct (games s !! gid') as [g0|]; [|destruct (inheritedName gid'); exact Hg].
      cbn [fst games set_games set_pendingRematches].
      rewrite lookup_insert_ne by exact Hne. exact Hg.
  - cbn [disconnect fst games]. rewrite lookup_fmap, Hg. simpl.
    destruct (seated sock g) eqn:Hseat.
    + destruct (vacate_seated sock g Hseat) as (H1 & H2 & _). auto.
    + rewrite (vacate_not_seated sock g Hseat). reflexivity.
  - exact Hg.
Qed.

(** ** The concrete runs *)

Lemma boardRedWins_wf : board_wf boardRedWins.
Proof. split; [reflexivity|]. repeat constructor. Qed.

Lemma boardThree_wf : board_wf boardThree.
Proof. split; [reflexivity|]. repeat constructor. Qed.

Lemma stateRedWins_session :
  games stateRedWins !! "ABC123" = Some (sessionAt stateRedWins "ABC123") /\
  board (sessionAt stateRedWins "ABC123") = boardRedWins /\
  status (sessionAt stateRedWins "ABC123") = Finished /\
  winner (sessionAt stateRedWins "ABC123") = Some (Won Red).
Proof. vm_compute. repeat split. Qed.

(** C1 (the code departs from it): red's disc lands at row 5, column 2,
    between its discs in columns 0, 1 and 3.  [checkWin] is true, and
    [getWinningCells] returns four coordinates that start at the placed
    cell and run towards the last cell the walk pushed: (5,2), (5,1), (5,0)
    and (5,-1).  The last one is outside the board and holds no colour, and
    the red disc at (5,3) is left out. *)
Theorem getWinningCells_leaves_the_run :
  checkWin 5 2 boardRedWins Red = true /\
  getWinningCells 5 2 boardRedWins Red = [(5, 2); (5, 1); (5, 0); (5, -1)] /\
  cell_at boardRedWins 5 (-1) = None /\
  holds boardRedWins 5 3 Red /\
  winningCells (sessionAt stateRedWins "ABC123")
  = [(5, Column 2); (5, Column 1); (5, Column 0); (5, Column (-1))].
Proof. vm_compute. repeat split. Qed.

(** C2, as stated, fails: red wins, the session is [Finished] with winner
    red, and red's [leaveGame] turns it into an [Abandoned] session whose
    winner is yellow. *)
Lemma finished_session_abandoned :
  reachable stateRedWins /\
  games stateRedWins !! "ABC123" = Some (sessionAt stateRedWins "ABC123") /\
  status (sessionAt stateRedWins "ABC123") = Finished /\
  winner (sessionAt stateRedWins "ABC123") = Some (Won Red) /\
  inbound (LeaveGame "a" "ABC123") = true /\
  exists g',
    games (state_of (handle (LeaveGame "a" "ABC123") stateRedWins)) !! "ABC123" = Some g' /\
    status g' = Abandoned /\ winner g' = Some (Won Yellow).
Proof.
  split; [apply reachable_run, reachable_init|].
  split; [vm_compute; reflexivity|]. split; [vm_compute; reflexivity|].
  split; [vm_compute; reflexivity|]. split; [reflexivity|].
  eexists. split; [vm_compute; reflexivity|]. split; reflexivity.
Qed.

(** The status order is also broken the other way: a session abandoned by
    yellow is [Playing] again, its winner still set, once another
    connection joins it. *)
Lemma abandoned_session_rejoined :
  reachable stateRejoined /\
  status (sessionAt (state_of (run (removelast traceRejoined) init)) "ABC123") = Abandoned /\
  status (sessionAt stateRejoined "ABC123") = Playing /\
  winner (sessionAt stateRejoined "ABC123") = Some (Won Red).
Proof.
  split; [apply reachable_run, reachable_init|]. vm_compute. repeat split.
Qed.

(** C3, as stated, fails when the drawn id is the old session's id: the new
    session is stored and then deleted with the old one, and the handler
    ends in an uncaught exception. *)
Lemma acceptRematch_same_id :
  reachable stateRematchAsked /\
  (exists pending, pendingRematches stateRematchAsked !! "ABC123" = Some pending /\
                   opponent pending = "b") /\
  (exists g st, games stateRematchAsked !! "ABC123" = Some g /\
                playerStats stateRematchAsked !! originalGameId g = Some st) /\
  exists s' out,
    acceptRematch "b" "ABC123" "ABC123" 9 stateRematchAsked = Throws s' out /\
    games s' !! "ABC123" = None /\ games s' = ∅.
Proof.
  split; [apply reachable_run, reachable_init|].
  split; [eexists; split; vm_compute; reflexivity|].
  split; [do 2 eexists; split; vm_compute; reflexivity|].
  do 2 eexists. split; [vm_compute; reflexivity|]. split; vm_compute; reflexivity.
Qed.

(** C6, as stated, fails at a cell that does not hold the colour:
    [checkWin] counts the cell it is given without reading it. *)
Lemma checkWin_empty_origin :
  board_wf boardThree /\ cell_at boardThree 5 3 = Some Empty /\
  checkWin 5 3 boardThree Red = true /\ ~ four_in_line boardThree 5 3 Red.
Proof.
  split; [apply boardThree_wf|]. split; [reflexivity|]. split; [reflexivity|].
  intros (d & k & _ & Hk & Hwin). specialize (Hwin k Hk). unfold holds in Hwin.
  replace (5 + (k - k) * fst d) with 5 in Hwin by lia.
  replace (3 + (k - k) * snd d) with 3 in Hwin by lia.
  discriminate Hwin.
Qed.

(** C9, as stated, fails: a session can be [Playing] with both seats taken
    and its winner set, and then no move is played. *)
Lemma makeMove_refused_while_playing :
  reachable stateRejoined /\
  games stateRejoined !! "ABC123" = Some (sessionAt stateRejoined "ABC123") /\
  status (sessionAt stateRejoined "ABC123") = Playing /\
  red (players (sessionAt stateRejoined "ABC123")) = Some "a" /\
  yellow (players (sessionAt stateRejoined "ABC123")) = Some "c" /\
  currentPlayer (sessionAt stateRejoined "ABC123") = Red /\
  board (sessionAt stateRejoined "ABC123") = emptyBoard /\
  ~ column_full (board (sessionAt stateRejoined "ABC123")) 0 /\
  makeMove "a" "ABC123" (Whole 0) Red 3 stateRejoined
    = (stateRejoined, [Emit "a" (errorMsg "Game has already ended.")]).
Proof.
  split; [apply reachable_run, reachable_init|].
  do 6 (split; [vm_compute; reflexivity|]).
  split; [|vm_compute; reflexivity].
  intros H. destruct (H 5 ltac:(lia)) as [q Hq]. vm_compute in Hq. discriminate Hq.
Qed.

(** C8 (the code departs from it): red opens a session, yellow joins, and
    red sends a move whose column is 1.5.  The range test lets it through
    (1.5 is neither below 0 nor above 6), the scan reads [undefined] at row
    5, and the move is played: the counter goes from 0 to 1, the clock is
    stamped and the turn passes to yellow, but the assignment sets the
    property ["1.5"] of the bottom row, which is none of its seven cells.
    The board still has no disc on it, so [moves] is 1 where the number of
    non-empty cells is 0. *)
Theorem makeMove_fraction_fills_no_cell :
  reachable stateJoined /\ reachable stateFraction /\
  outOfRange onePointFive = Some false /\
  played "ABC123" 5 onePointFive Red (makeMove "a" "ABC123" onePointFive Red 1 stateJoined) /\
  stateFraction = fst (makeMove "a" "ABC123" onePointFive Red 1 stateJoined) /\
  games stateFraction !! "ABC123" = Some (sessionAt stateFraction "ABC123") /\
  moves (sessionAt stateJoined "ABC123") = 0 /\
  moves (sessionAt stateFraction "ABC123") = 1 /\
  board (sessionAt stateFraction "ABC123") = emptyBoard /\
  discs (board (sessionAt stateFraction "ABC123")) = 0%nat /\
  offGrid (sessionAt stateFraction "ABC123") !! (5, "1.5"%string) = Some Red /\
  currentPlayer (sessionAt stateFraction "ABC123") = Yellow /\
  lastMoveAt (sessionAt stateFraction "ABC123") = Some 1 /\
  moves (sessionAt stateFraction "ABC123")
    <> Z.of_nat (discs (board (sessionAt stateFraction "ABC123"))).
Proof.
  split; [apply reachable_run, reachable_init|].
  split; [apply reachable_run, reachable_init|].
  do 11 (split; [vm_compute; reflexivity|]).
  vm_compute. discriminate.
Qed.

(** ** The theorems at concrete inputs *)


Lemma stateRedToWin_session :
  games stateRedToWin !! "ABC123" = Some (sessionAt stateRedToWin "ABC123").
Proof. vm_compute. reflexivity. Defined.

Lemma emptyBoard_column_free (col : Z) : ~ column_full emptyBoard col.
Proof.
  intros H. destruct (H 5 ltac:(lia)) as [q Hq]. unfold cell_at in Hq.
  destruct (0 <=? col) eqn:E; [|discriminate Hq]. simpl in Hq.
  destruct (Z.to_nat col) as [|[|[|[|[|[|[|n]]]]]]]; discriminate Hq.
Defined.

Lemma checkWin_iff_four_in_line_witness :
  checkWin 5 2 boardRedWins Red = true <-> four_in_line boardRedWins 5 2 Red.
Proof.
  apply (checkWin_iff_four_in_line boardRedWins 5 2 Red).
  - split; [reflexivity|]. repeat constructor.
  - reflexivity.
Defined.

Lemma makeMove_refused_unchanged_witness :
  fst (makeMove "b" "ABC123" (Whole 0) Yellow 1 stateJoined) = stateJoined.
Proof.
  apply (makeMove_refused_unchanged "b" "ABC123" (Whole 0) Yellow 1 stateJoined).
  exists "It's not your turn."%string. vm_compute. reflexivity.
Defined.


Lemma makeMove_any_sender_witness :
  makeMove "a" "ABC123" (Whole 0) Red 1 stateJoined
    = makeMove "zz" "ABC123" (Whole 0) Red 1 stateJoined /\
  exists row,
    played "ABC123" row (Whole 0) Red (makeMove "a" "ABC123" (Whole 0) Red 1 stateJoined).
Proof.
  apply (makeMove_any_sender "a" "zz" "ABC123" 0 Red 1 stateJoined
           (sessionAt stateJoined "ABC123")).
  - vm_compute. reflexivity.
  - vm_compute. reflexivity.
  - vm_compute. reflexivity.
  - exists "a"%string. vm_compute. reflexivity.
  - exists "b"%string. vm_compute. reflexivity.
  - vm_compute. reflexivity.
  - lia.
  - apply emptyBoard_column_free.
Defined.

Lemma requestRematch_any_status_witness :
  status (sessionAt stateAskedEarly "ABC123") = Playing /\
  winner (sessionAt stateAskedEarly "ABC123") = None /\
  pendingRematches stateAskedEarly !! "ABC123" = Some (Rematch "ABC123" "a" "b" 1) /\
  pendingRematches (fst (requestRematch "b" "ABC123" 2 stateAskedEarly)) !! "ABC123"
    = Some (Rematch "ABC123" "b" "a" 2).
Proof.
  split; [vm_compute; reflexivity|]. split; [vm_compute; reflexivity|].
  split; [vm_compute; reflexivity|].
  apply (requestRematch_any_status "b" "ABC123" 2 stateAskedEarly
           (sessionAt stateAskedEarly "ABC123") "a" "b").
  - vm_compute. reflexivity.
  - vm_compute. reflexivity.
  - vm_compute. reflexivity.
Defined.

Lemma acceptRematch_new_session_witness :
  exists s' out fresh,
    acceptRematch "b" "ABC123" "XYZ789" 9 stateRematchAsked = Returns s' out /\
    games s' !! "XYZ789" = Some fresh /\
    originalGameId fresh = originalGameId (sessionAt stateRematchAsked "ABC123") /\
    gameNumber fresh = gamesPlayed (Stats "ABC123" (Side (Some "a") (Some "Player_a") 1)
                                      (Side (Some "b") (Some "Player_b") 0) 1) + 1 /\
    status fresh = Playing /\
    players fresh = players (sessionAt stateRematchAsked "ABC123") /\
    board fresh = emptyBoard /\ moves fresh = 0 /\ winner fresh = None /\
    games s' !! "ABC123" = None /\ pendingRematches s' !! "ABC123" = None /\
    playerStats s' = playerStats stateRematchAsked.
Proof.
  apply (acceptRematch_new_session "b" "ABC123" "XYZ789" 9 stateRematchAsked
           (Rematch "ABC123" "a" "b" 8) (sessionAt stateRematchAsked "ABC123")).
  - vm_compute. reflexivity.
  - reflexivity.
  - vm_compute. reflexivity.
  - vm_compute. reflexivity.
  - discriminate.
Defined.

Lemma makeMove_series_stats_witness :
  let s' := fst (makeMove "a" "ABC123" (Whole 2) Red 7 stateRedToWin) in
  exists g' st st',
    games s' !! "ABC123" = Some g' /\ winner g' = Some (Won Red) /\ status g' = Finished /\
    playerStats stateRedToWin !! "ABC123" = Some st /\
    playerStats s' !! "ABC123" = Some st' /\
    wins (statsRed st) = 0 /\ wins (statsYellow st) = 0 /\ gamesPlayed st = 0 /\
    wins (statsRed st') = 1 /\ wins (statsYellow st') = 0 /\ gamesPlayed st' = 1.
Proof.
  intros s'.
  pose proof (makeMove_series_stats "a" "ABC123" (Whole 2) Red 7 stateRedToWin
                (sessionAt stateRedToWin "ABC123") 5
                (reachable_run _ _ reachable_init) stateRedToWin_session) as H.
  cbv zeta in H. destruct H as (g' & st & Hg' & Hst & Hcase).
  - vm_compute. reflexivity.
  - assert (Ewin : checkWinAt 5 (Whole 2)
                     (board (placeDisc 5 (Whole 2) Red 7 (sessionAt stateRedToWin "ABC123")))
                     (offGrid (placeDisc 5 (Whole 2) Red 7 (sessionAt stateRedToWin "ABC123")))
                     Red = true) by (vm_compute; reflexivity).
    rewrite Ewin in Hcase. destruct Hcase as (Hw & Hfin & st' & Hst' & Hc & Ho & Hgp).
    change (originalGameId (sessionAt stateRedToWin "ABC123")) with "ABC123"%string
      in Hst, Hst'.
    assert (Est : playerStats stateRedToWin !! "ABC123"
                  = Some (Stats "ABC123" (Side (Some "a") (Some "Player_a") 0)
                            (Side (Some "b") (Some "Player_b") 0) 0))
      by (vm_compute; reflexivity).
    rewrite Est in Hst. injection Hst as <-.
    exists g'. eexists. exists st'.
    split; [exact Hg'|]. split; [exact Hw|]. split; [exact Hfin|].
    split; [exact Est|]. split; [exact Hst'|].
    split; [reflexivity|]. split; [reflexivity|]. split; [reflexivity|].
    split; [exact Hc|]. split; [exact (Ho Yellow ltac:(discriminate))|exact Hgp].
Defined.

Lemma finished_session_step_witness :
  games (state_of (handle (MakeMove "b" "ABC123" (Whole 4) Yellow 8) stateRedWins)) !! "ABC123"
    = Some (sessionAt stateRedWins "ABC123").
Proof.
  apply (finished_session_step (MakeMove "b" "ABC123" (Whole 4) Yellow 8) stateRedWins "ABC123"
           (sessionAt stateRedWins "ABC123")).
  - apply reachable_run, reachable_init.
  - vm_compute. reflexivity.
  - vm_compute. reflexivity.
  - reflexivity.
Defined.

(** * Further properties *)

(** ** Reading and writing cells *)

Lemma cell_at_lookup (b : grid) (r c : Z) (v : cell) :
  cell_at b r c = Some v <->
  0 <= r /\ 0 <= c /\
  exists cells, b !! Z.to_nat r = Some cells /\ cells !! Z.to_nat c = Some v.
Proof.
  unfold cell_at. destruct (0 <=? r) eqn:Er; simpl.
  - destruct (0 <=? c) eqn:Ec; simpl.
    + apply Z.leb_le in Er, Ec. destruct (b !! Z.to_nat r) as [cells|].
      * split; [intros H; eauto 6|]. intros (_ & _ & cells' & Hc & Hv). congruence.
      * split; [discriminate|]. intros (_ & _ & cells' & Hc & _). discriminate.
    + apply Z.leb_gt in Ec. split; [discriminate|]. lia.
  - apply Z.leb_gt in Er. split; [discriminate|]. lia.
Qed.

Lemma cell_at_set_cell_eq (b : grid) (r c : Z) (v : cell) :
  board_wf b -> 0 <= r < 6 -> 0 <= c < 7 ->
  cell_at (set_cell b r c v) r c = Some v.
Proof.
  intros Hwf Hr Hc. destruct (cell_at_defined b r c Hwf Hr Hc) as [v0 Hv0].
  apply cell_at_lookup in Hv0 as (_ & _ & cells & Hcells & Hv0).
  apply cell_at_lookup. split; [lia|]. split; [lia|].
  exists (<[Z.to_nat c := v]> cells). unfold set_cell. split.
  - rewrite list_lookup_alter_eq, Hcells. reflexivity.
  - apply list_lookup_insert_eq. eapply lookup_lt_Some. exact Hv0.
Qed.

Lemma cell_at_set_cell_ne (b : grid) (r c r' c' : Z) (v : cell) :
  0 <= r -> 0 <= c -> (r', c') <> (r, c) ->
  cell_at (set_cell b r c v) r' c' = cell_at b r' c'.
Proof.
  intros Hr Hc Hne. unfold cell_at, set_cell.
  destruct (0 <=? r') eqn:Er; [|reflexivity].
  destruct (0 <=? c') eqn:Ec; [|reflexivity]. simpl.
  apply Z.leb_le in Er, Ec.
  destruct (decide (Z.to_nat r = Z.to_nat r')) as [Heq|Hrow].
  - rewrite <- Heq, list_lookup_alter_eq.
    destruct (b !! Z.to_nat r) as [cells|]; [|reflexivity]. simpl.
    apply list_lookup_insert_ne. intros Hcol.
    apply Hne. f_equal; lia.
  - rewrite list_lookup_alter_ne by exact Hrow. reflexivity.
Qed.

(** ** The drop scan finds the lowest empty cell *)

Lemma dropRow_below (b : grid) (col : Z) (r : Z) :
  dropRow b col <> -1 -> dropRow b col < r <= 5 ->
  exists q, cell_at b r col = Some (Disc q).
Proof.
  unfold dropRow. simpl. intros Hne Hr.
  destruct (cell_at b 5 col) as [[|q5]|] eqn:E5; try lia.
  destruct (cell_at b 4 col) as [[|q4]|] eqn:E4;
    try (assert (r = 5) by lia; subst r; eauto; fail).
  destruct (cell_at b 3 col) as [[|q3]|] eqn:E3;
    try (assert (r = 5 \/ r = 4) as [->| ->] by lia; eauto; fail).
  destruct (cell_at b 2 col) as [[|q2]|] eqn:E2;
    try (assert (r = 5 \/ r = 4 \/ r = 3) as [->|[->| ->]] by lia; eauto; fail).
  destruct (cell_at b 1 col) as [[|q1]|] eqn:E1;
    try (assert (r = 5 \/ r = 4 \/ r = 3 \/ r = 2) as [->|[->|[->| ->]]] by lia; eauto; fail).
  destruct (cell_at b 0 col) as [[|q0]|] eqn:E0;
    try (assert (r = 5 \/ r = 4 \/ r = 3 \/ r = 2 \/ r = 1)
           as [->|[->|[->|[->| ->]]]] by lia; eauto; fail).
Qed.

(** X1: on a 6 by 7 board and a column in range, the drop scan fails
    exactly when every cell of the column holds a disc; otherwise the row it
    returns is in the grid, its cell in that column is empty, and every cell
    of the column under it holds a disc. *)
Theorem dropRow_lowest_empty (b : grid) (col : Z) :
  board_wf b -> 0 <= col <= 6 ->
  (dropRow b col = -1 <-> column_full b col) /\
  (dropRow b col <> -1 ->
     0 <= dropRow b col <= 5 /\
     cell_at b (dropRow b col) col = Some Empty /\
     forall r, dropRow b col < r <= 5 -> exists q, cell_at b r col = Some (Disc q)).
Proof.
  intros Hwf Hcol. split; [apply dropRow_full|]. intros Hne.
  destruct (dropRow_empty b col Hwf Hcol Hne) as [Hr Hcell].
  split; [exact Hr|]. split; [exact Hcell|].
  intros r Hlt. apply dropRow_below; assumption.
Qed.

(** ** Sessions, event by event *)

Lemma makeMove_played_session (sock gid : string) (col : column) (c : color) (now : Z)
    (s : server) (g : game) :
  eligible s gid c g -> outOfRange col = Some false -> dropRowAt g (slotOf col) <> -1 ->
  games (fst (makeMove sock gid col c now s)) !! gid
    = Some (afterMove (dropRowAt g (slotOf col)) col c now g).
Proof.
  intros Hel Hcol Hrow.
  rewrite (makeMove_played_state sock gid col c now s g Hel Hcol Hrow).
  cbv zeta. cbn [fst]. unfold afterMove. cbv zeta.
  destruct (checkWinAt _ _ _ _ _); [|destruct (isBoardFull _)];
    cbn [games set_games]; apply lookup_insert_eq.
Qed.

Lemma makeMove_session_step (sock gid : string) (col : column) (c : color) (now : Z)
    (s : server) (k : string) (g' : game) :
  games (fst (makeMove sock gid col c now s)) !! k = Some g' ->
  exists g, games s !! k = Some g /\ session_step g g'.
Proof.
  intros Hk. destruct (decide (k = gid)) as [->|Hne].
  2:{ rewrite makeMove_other in Hk by exact Hne. exists g'. split; [exact Hk|constructor]. }
  destruct (makeMove_entry gid c s) as [Hnone|[(g & Hg & Hcase)|(g & Hel)]].
  - destruct (makeMove_not_found sock gid col c now s Hnone) as [text Ht].
    rewrite Ht in Hk. exists g'. split; [exact Hk|constructor].
  - assert (Hsame : fst (makeMove sock gid col c now s) = s).
    { destruct Hcase as [Hw|[[Hw Hc]|(Hw & Hc & Hseat)]].
      - rewrite (makeMove_ended sock gid col c now s g Hg Hw). reflexivity.
      - rewrite (makeMove_wrong_turn sock gid col c now s g Hg Hw Hc). reflexivity.
      - rewrite (makeMove_seat_empty sock gid col c now s g Hg Hw Hc Hseat). reflexivity. }
    rewrite Hsame in Hk. exists g'. split; [exact Hk|constructor].
  - destruct (outOfRange col) as [[|]|] eqn:Ecol.
    + rewrite (makeMove_eligible sock gid col c now s g Hel), Ecol in Hk.
      exists g'. split; [exact Hk|constructor].
    + destruct (decide (dropRowAt g (slotOf col) = -1)) as [Hrow|Hrow].
      * rewrite (makeMove_eligible sock gid col c now s g Hel), Ecol in Hk.
        cbv zeta in Hk. rewrite Hrow in Hk. simpl in Hk.
        exists g'. split; [exact Hk|constructor].
      * rewrite (makeMove_played_session sock gid col c now s g Hel Ecol Hrow) in Hk.
        injection Hk as <-. destruct Hel as (Hg & Hw & Hc & Hr & Hy).
        exists g. split; [exact Hg|]. apply step_move; assumption.
    + rewrite (makeMove_eligible sock gid col c now s g Hel), Ecol in Hk.
      exists g'. split; [exact Hk|constructor].
Qed.

Lemma joinGame_session_step (sock gid : string) (s : server) (k : string) (g' : game) :
  games (fst (joinGame sock gid s)) !! k = Some g' ->
  exists g, games s !! k = Some g /\ session_step g g'.
Proof.
  intros Hk. destruct (decide (k = gid)) as [->|Hne].
  2:{ rewrite joinGame_other in Hk by exact Hne. exists g'. split; [exact Hk|constructor]. }
  unfold joinGame in Hk. destruct (games s !! gid) as [g|] eqn:Hg.
  2:{ destruct (inheritedName gid); simpl in Hk; congruence. }
  destruct (yellow (players g)) eqn:Hy.
  - simpl in Hk. exists g'. split; [congruence|constructor].
  - cbv zeta in Hk. cbn [fst] in Hk. rewrite initializePlayerStats_games in Hk.
    cbn [games set_games] in Hk. rewrite lookup_insert_eq in Hk. injection Hk as <-.
    exists g. split; [reflexivity|].
    apply (step_join sock (nameOr s sock (defaultName sock)) g Hy).
Qed.

Lemma acceptRematch_session (sock gid newId : string) (now : Z) (s : server)
    (k : string) (g' : game) :
  games (state_of (acceptRematch sock gid newId now s)) !! k = Some g' ->
  (fresh_session g' /\ status g' = Playing) \/ games s !! k = Some g'.
Proof.
  unfold acceptRematch.
  destruct (pendingRematches s !! gid) as [pending|]; [|simpl; auto].
  destruct (bool_decide (opponent pending <> sock)); [simpl; auto|].
  destruct (games s !! gid) as [g|] eqn:Hg; [|simpl; auto].
  destruct (playerStats s !! originalGameId g) as [st|] eqn:Hst; [|simpl; auto].
  cbv zeta.
  match goal with
  | |- context [match ?x with Some c1 => Returns ?s3 _ | None => Throws _ _ end] =>
      assert (Hst3 : forall T (f : server -> T) o1 o2,
                f (state_of (match x with
                            | Some c1 => Returns s3 (o1 c1)
                            | None => Throws s3 o2 end)) = f s3)
        by (intros; destruct x; reflexivity)
  end.
  rewrite (Hst3 _ (fun x => games x !! k)). cbn [games set_games set_pendingRematches].
  intros Hk. apply lookup_delete_Some in Hk as [Hne Hk].
  destruct (decide (newId = k)) as [->|Hne'].
  - rewrite lookup_insert_eq in Hk. injection Hk as <-. left.
    unfold fresh_session. simpl. auto 12.
  - rewrite lookup_insert_ne in Hk by exact Hne'. right. exact Hk.
Qed.

(** Every session of the state after an event is a new session, or the
    session that was under the same key, after at most one step. *)
Lemma handle_session (ev : event) (s : server) (k : string) (g' : game) :
  games (state_of (handle ev s)) !! k = Some g' ->
  fresh_session g' \/ exists g, games s !! k = Some g /\ session_step g g'.
Proof.
  destruct ev as [sock name|sock newId now|sock gid|sock gid col c now|sock gid now
                 |sock gid newId now|sock gid|sock gid|sock|gid|now|now|sock];
    cbn [handle]; rewrite ?state_of_returns; cbn [state_of]; intros Hk.
  - right. exists g'. split; [exact Hk|constructor].
  - cbn [createGame fst games set_games] in Hk.
    destruct (decide (newId = k)) as [->|Hne].
    + rewrite lookup_insert_eq in Hk. injection Hk as <-. left.
      unfold fresh_session. simpl. split; [reflexivity|]. repeat (split; [reflexivity|]).
      left. split; [reflexivity|]. split; [eauto|]. split; reflexivity.
    + rewrite lookup_insert_ne in Hk by exact Hne.
      right. exists g'. split; [exact Hk|constructor].
  - right. eapply joinGame_session_step. exact Hk.
  - right. eapply makeMove_session_step. exact Hk.
  - rewrite requestRematch_games in Hk. right. exists g'. split; [exact Hk|constructor].
  - apply acceptRematch_session in Hk as [[Hf _]|Hk]; [left; exact Hf|].
    right. exists g'. split; [exact Hk|constructor].
  - rewrite declineRematch_games in Hk. right. exists g'. split; [exact Hk|constructor].
  - right. unfold leaveGame in Hk. destruct (games s !! gid) as [g|] eqn:Hg.
    + cbn [fst games set_games set_pendingRematches] in Hk.
      destruct (decide (gid = k)) as [->|Hne].
      * rewrite lookup_insert_eq in Hk. injection Hk as <-.
        exists g. split; [exact Hg|constructor].
      * rewrite lookup_insert_ne in Hk by exact Hne.
        exists g'. split; [exact Hk|constructor].
    + destruct (inheritedName gid); exists g'; (split; [exact Hk|constructor]).
  - right. cbn [disconnect fst games] in Hk. rewrite lookup_fmap in Hk.
    destruct (games s !! k) as [g|] eqn:Hg; [|discriminate Hk].
    simpl in Hk. injection Hk as <-. exists g. split; [reflexivity|constructor].
  - right. unfold removeGameTimer in Hk. destruct (games s !! gid) as [g0|].
    + cbn [games set_games] in Hk. apply lookup_delete_Some in Hk as [_ Hk].
      exists g'. split; [exact Hk|constructor].
    + exists g'. split; [exact Hk|constructor].
  - right. exists g'. split; [exact Hk|constructor].
  - right. cbn [sweepGames games set_games] in Hk.
    apply map_lookup_filter_Some in Hk as [Hk _].
    exists g'. split; [exact Hk|constructor].
  - right. exists g'. split; [exact Hk|constructor].
Qed.

(** A property of new sessions that every step keeps holds of every
    session of every reachable state. *)
Lemma reachable_sessions (P : game -> Prop) :
  (forall g, fresh_session g -> P g) ->
  (forall g g', P g -> session_step g g' -> P g') ->
  forall s, reachable s -> forall k g, games s !! k = Some g -> P g.
Proof.
  intros Hfresh Hstep s Hs. induction Hs as [|ev s Hs IH]; intros k g Hk.
  - simpl in Hk. rewrite lookup_empty in Hk. discriminate Hk.
  - apply handle_session in Hk as [Hf|(g0 & Hg0 & Hst)].
    + apply Hfresh, Hf.
    + eapply Hstep; [eapply IH; exact Hg0|exact Hst].
Qed.

(** ** Boards that moves can build *)

Lemma cell_at_emptyBoard (r c : Z) (v : cell) :
  cell_at emptyBoard r c = Some v -> v = Empty.
Proof.
  intros H. apply cell_at_lookup in H as (_ & _ & cells & Hcells & Hv).
  unfold emptyBoard in Hcells. apply lookup_replicate in Hcells as [-> _].
  apply lookup_replicate in Hv as [-> _]. reflexivity.
Qed.

Lemma settled_emptyBoard : settled emptyBoard.
Proof. intros r c q _ H. apply cell_at_emptyBoard in H. discriminate H. Qed.

(** A disc dropped into a column keeps the board settled. *)
Lemma settled_drop (b : grid) (col : Z) (c : color) :
  board_wf b -> settled b -> 0 <= col <= 6 -> dropRow b col <> -1 ->
  settled (set_cell b (dropRow b col) col (Disc c)).
Proof.
  intros Hwf Hset Hcol Hne.
  destruct (dropRow_empty b col Hwf Hcol Hne) as [Hrow Hcell].
  set (row := dropRow b col) in *.
  assert (Hnew : cell_at (set_cell b row col (Disc c)) row col = Some (Disc c))
    by (apply cell_at_set_cell_eq; [exact Hwf|lia|lia]).
  intros r c0 q Hr Hq.
  destruct (decide ((r + 1, c0) = (row, col))) as [Heq|Hne1].
  { injection Heq as Hr1 Hc1. rewrite Hr1, Hc1. eauto. }
  rewrite (cell_at_set_cell_ne b row col (r + 1) c0) by (lia || exact Hne1).
  destruct (decide ((r, c0) = (row, col))) as [Heq|Hne0].
  - injection Heq as Hr0 Hc0. subst r c0.
    apply (dropRow_below b col (row + 1) Hne). fold row. lia.
  - rewrite (cell_at_set_cell_ne b row col r c0) in Hq by (lia || exact Hne0).
    exact (Hset r c0 q Hr Hq).
Qed.

Lemma discsOfRow_insert (p c : color) (cells : list cell) (j : nat) :
  cells !! j = Some Empty ->
  discsOfRow p (<[j := Disc c]> cells)
    = ((if bool_decide (p = c) then 1 else 0) + discsOfRow p cells)%nat.
Proof.
  revert j. induction cells as [|v cells IH]; intros [|j] H; simpl in *; try discriminate.
  - injection H as ->. destruct p, c; reflexivity.
  - unfold discsOfRow in *. simpl. destruct (isDisc p v); simpl; rewrite (IH j H); lia.
Qed.

Lemma discsOf_alter (p : color) (b : grid) (i : nat) (f : list cell -> list cell)
    (cells : list cell) (d : nat) :
  b !! i = Some cells -> discsOfRow p (f cells) = (d + discsOfRow p cells)%nat ->
  discsOf p (alter f i b) = (d + discsOf p b)%nat.
Proof.
  revert i. induction b as [|row0 b IH]; intros [|i] H Hf; simpl in *; try discriminate.
  - injection H as ->. rewrite Hf. lia.
  - specialize (IH i H Hf). unfold alter in IH. rewrite IH. lia.
Qed.

Lemma discsOf_set_cell (p c : color) (b : grid) (row col : Z) :
  cell_at b row col = Some Empty ->
  discsOf p (set_cell b row col (Disc c))
    = ((if bool_decide (p = c) then 1 else 0) + discsOf p b)%nat.
Proof.
  intros H. apply cell_at_lookup in H as (_ & _ & cells & Hcells & Hv).
  unfold set_cell. apply (discsOf_alter p b _ _ cells _ Hcells).
  apply discsOfRow_insert. exact Hv.
Qed.

Lemma discsRow_split (cells : list cell) :
  discsRow cells = (discsOfRow Red cells + discsOfRow Yellow cells)%nat.
Proof.
  unfold discsRow, discsOfRow. induction cells as [|[|[|]] cells IH]; simpl; lia.
Qed.

Lemma discs_split (b : grid) :
  discs b = (discsOf Red b + discsOf Yellow b)%nat.
Proof.
  induction b as [|cells b IH]; simpl; [reflexivity|].
  rewrite IH, discsRow_split. lia.
Qed.

(** ** Properties off the grid *)

Lemma offOf_empty (p : color) : offOf p ∅ = 0%nat.
Proof. unfold offOf. rewrite map_filter_empty. apply map_size_empty. Qed.

Lemma offOf_insert (p c : color) (off : gmap (Z * string) color) (k : Z * string) :
  off !! k = None ->
  offOf p (<[k := c]> off) = ((if bool_decide (p = c) then 1 else 0) + offOf p off)%nat.
Proof.
  intros Hk. unfold offOf. case_bool_decide as Hp.
  - rewrite map_filter_insert_True by (simpl; congruence).
    rewrite map_size_insert_None; [reflexivity|].
    apply map_lookup_filter_None_2. left. exact Hk.
  - rewrite map_filter_insert_False by (simpl; congruence).
    rewrite delete_id by exact Hk. reflexivity.
Qed.

Lemma offOf_split (off : gmap (Z * string) color) :
  size off = (offOf Red off + offOf Yellow off)%nat.
Proof.
  induction off as [|k c off Hk _ IH] using map_first_key_ind.
  - rewrite !offOf_empty. apply map_size_empty.
  - rewrite map_size_insert_None by exact Hk.
    rewrite !offOf_insert by exact Hk. rewrite IH. destruct c; simpl; lia.
Qed.

(** The moves a session has taken are its discs and its properties off
    the grid. *)
Lemma placed_split (g : game) :
  (discs (board g) + size (offGrid g) = placedOf Red g + placedOf Yellow g)%nat.
Proof. unfold placedOf. rewrite discs_split, offOf_split. lia. Qed.

(** ** The session invariant, step by step *)

Lemma fresh_session_inv (g : game) : fresh_session g -> session_inv g.
Proof.
  intros (Hb & Ho & Hm & Hw & Hwc & Hcp & _ & Hst). unfold session_inv, placedOf.
  rewrite Hb, Ho, Hm, Hw, Hwc, Hcp, !offOf_empty.
  split; [apply emptyBoard_wf|]. split; [apply settled_emptyBoard|].
  split; [reflexivity|]. split; [intros _; left; split; reflexivity|].
  split; [left; reflexivity|].
  split; [intros Hs; destruct Hst as [(_ & Hr & Hy & _)|Hp]; [auto|congruence]|].
  split; [intros Hs; destruct Hst as [(Hs' & _)|Hp]; congruence|].
  split; [intros [Hs|Hs]; destruct Hst as [(Hs' & _)|Hp]; congruence|].
  split; [reflexivity|]. split; [discriminate|]. split; [discriminate|].
  left. reflexivity.
Qed.

Lemma vacate_session_inv (sock : string) (g : game) :
  session_inv g -> session_inv (vacate sock g).
Proof.
  intros Hinv. unfold vacate.
  destruct (bool_decide (red (players g) = Some sock));
    [|destruct (bool_decide (yellow (players g) = Some sock)); [|exact Hinv]];
    destruct Hinv as (Hwf & Hset & Hm & _ & Hbal & _ & _ & _ & _ & _ & _ & Hlen);
    (split; [exact Hwf|]; split; [exact Hset|]; split; [exact Hm|];
     split; [discriminate|]; split; [exact Hbal|]; split; [discriminate|];
     split; [discriminate|]; split; [intros _; simpl; eauto|];
     split; [discriminate|]; split; [discriminate|];
     split; [discriminate|exact Hlen]).
Qed.

Lemma joined_session_inv (sock pname : string) (g : game) :
  yellow (players g) = None -> session_inv g -> session_inv (joined sock pname g).
Proof.
  intros Hy (Hwf & Hset & Hm & Hturn & Hbal & _ & Hfin & _ & Hnone & Hdraw & _ & Hlen).
  split; [exact Hwf|]. split; [exact Hset|]. split; [exact Hm|].
  split; [exact Hturn|]. split; [exact Hbal|]. split; [discriminate|].
  split; [discriminate|]. split; [intros [H|H]; discriminate H|].
  split; [exact Hnone|]. split.
  - simpl. intros Hw. destruct (Hdraw Hw) as (Hs & _).
    destruct (Hfin Hs) as [_ [y Hy']]. congruence.
  - split; [discriminate|exact Hlen].
Qed.

(** The assignment [board[row][col] = color] at the row found by the scan
    keeps the board a settled grid and adds one to the properties of the
    colour, on the grid or off it. *)
Lemma setAt_placed (g : game) (sl : slot) (c : color) :
  board_wf (board g) -> settled (board g) ->
  (forall i, sl = Index i -> 0 <= i <= 6) -> dropRowAt g sl <> -1 ->
  let g1 := setAt (dropRowAt g sl) sl c g in
  settled (board g1) /\
  forall p, placedOf p g1 = ((if bool_decide (p = c) then 1 else 0) + placedOf p g)%nat.
Proof.
  intros Hwf Hset Hsl Hne. destruct sl as [i|k|]; cbn [setAt dropRowAt] in *.
  - pose proof (Hsl i eq_refl) as Hi.
    destruct (dropRow_empty (board g) i Hwf Hi Hne) as [Hrow Hcell].
    split; [apply settled_drop; assumption|]. intros p. unfold placedOf.
    cbn [board offGrid set_board].
    rewrite (discsOf_set_cell p c (board g) _ i Hcell). lia.
  - split; [exact Hset|]. intros p. unfold placedOf. cbn [board offGrid set_offGrid].
    rewrite offOf_insert by (apply dropScanOff_lands; [exact Hne|apply drop_rows_range]).
    lia.
  - contradiction.
Qed.

Lemma afterMove_session_inv (col : column) (c : color) (now : Z) (g : game) :
  winner g = None -> currentPlayer g = c ->
  is_Some (red (players g)) -> is_Some (yellow (players g)) ->
  outOfRange col = Some false -> dropRowAt g (slotOf col) <> -1 ->
  session_inv g -> session_inv (afterMove (dropRowAt g (slotOf col)) col c now g).
Proof.
  intros Hw Hc Hr Hy Hcol Hne
    (Hwf & Hset & Hm & Hturn & Hbal & Hwait & Hfin & Hend & Hnone & Hdraw & _ & Hlen).
  destruct (setAt_counts g (slotOf col) c Hwf (fun i => slot_index_range col i Hcol) Hne)
    as [Hwf1 Hcount].
  destruct (setAt_placed g (slotOf col) c Hwf Hset (fun i => slot_index_range col i Hcol) Hne)
    as [Hset1 Hplaced].
  set (row := dropRowAt g (slotOf col)) in *.
  destruct (placeDisc_fields row col c now g)
    as (Hcp1 & Hpl1 & Hwin1 & Hwc1 & Hst1 & _ & _ & _ & Hmv1 & _).
  set (g1 := placeDisc row col c now g) in *.
  assert (Hb1 : board g1 = board (setAt row (slotOf col) c g)) by reflexivity.
  assert (Ho1 : offGrid g1 = offGrid (setAt row (slotOf col) c g)) by reflexivity.
  assert (Hp1 : forall p, placedOf p g1 = placedOf p (setAt row (slotOf col) c g))
    by (intros p; unfold placedOf; rewrite Hb1, Ho1; reflexivity).
  assert (Hwf' : board_wf (board g1)) by (rewrite Hb1; exact Hwf1).
  assert (Hset' : settled (board g1)) by (rewrite Hb1; exact Hset1).
  assert (Hm' : moves g1 = Z.of_nat (discs (board g1)) + Z.of_nat (size (offGrid g1)))
    by (rewrite Hmv1, Hb1, Ho1; lia).
  pose proof (Hplaced Red) as HR. pose proof (Hplaced Yellow) as HY.
  rewrite <- Hp1 in HR, HY.
  assert (Hturn' : (other c = Red /\ placedOf Red g1 = placedOf Yellow g1) \/
                   (other c = Yellow /\ placedOf Red g1 = S (placedOf Yellow g1))).
  { destruct (Hturn Hw) as [[Hcp Heq]|[Hcp Heq]]; rewrite Hcp in Hc; subst c.
    - right. split; [reflexivity|].
      rewrite bool_decide_eq_true_2 in HR by reflexivity.
      rewrite bool_decide_eq_false_2 in HY by discriminate. lia.
    - left. split; [reflexivity|].
      rewrite bool_decide_eq_false_2 in HR by discriminate.
      rewrite bool_decide_eq_true_2 in HY by reflexivity. lia. }
  assert (Hbal' : placedOf Red g1 = placedOf Yellow g1 \/
                  placedOf Red g1 = S (placedOf Yellow g1))
    by (destruct Hturn' as [[_ H]|[_ H]]; auto).
  assert (Hnotwait : status g <> Waiting).
  { intros Hs. destruct (Hwait Hs) as (_ & _ & _ & _ & Hyn). destruct Hy. congruence. }
  assert (Hnotend : ~ (status g = Finished \/ status g = Abandoned)).
  { intros Hs. destruct (Hend Hs). congruence. }
  assert (Hseats : is_Some (red (players g1)) /\ is_Some (yellow (players g1)))
    by (rewrite Hpl1; auto).
  assert (Hnone1 : winningCells g1 = []) by (rewrite Hwc1; apply Hnone, Hw).
  unfold afterMove. cbv zeta. fold g1.
  destruct (checkWinAt row col (board g1) (offGrid g1) c) eqn:Ewin.
  - split; [exact Hwf'|]. split; [exact Hset'|]. split; [exact Hm'|].
    split; [discriminate|]. split; [exact Hbal'|]. split; [discriminate|].
    split; [intros _; exact Hseats|]. split; [intros _; simpl; eauto|].
    split; [discriminate|]. split; [discriminate|].
    split; [intros c0 _ _; apply getWinningCellsAt_four, Ewin|].
    right. apply getWinningCellsAt_four, Ewin.
  - destruct (isBoardFull (board g1)) eqn:Efull.
    + split; [exact Hwf'|]. split; [exact Hset'|]. split; [exact Hm'|].
      split; [discriminate|]. split; [exact Hbal'|]. split; [discriminate|].
      split; [intros _; exact Hseats|]. split; [intros _; simpl; eauto|].
      split; [discriminate|].
      split; [intros _; split; [reflexivity|]; split; [exact Efull|exact Hnone1]|].
      split; [discriminate|]. left. exact Hnone1.
    + change (session_inv (set_currentPlayer (other c) g1)).
      unfold session_inv, placedOf.
      change (board (set_currentPlayer (other c) g1)) with (board g1).
      change (offGrid (set_currentPlayer (other c) g1)) with (offGrid g1).
      change (moves (set_currentPlayer (other c) g1)) with (moves g1).
      change (winner (set_currentPlayer (other c) g1)) with (winner g1).
      change (status (set_currentPlayer (other c) g1)) with (status g1).
      change (players (set_currentPlayer (other c) g1)) with (players g1).
      change (winningCells (set_currentPlayer (other c) g1)) with (winningCells g1).
      change (currentPlayer (set_currentPlayer (other c) g1)) with (other c).
      rewrite Hwin1, Hst1, Hw.
      split; [exact Hwf'|]. split; [exact Hset'|]. split; [exact Hm'|].
      split; [intros _; exact Hturn'|]. split; [exact Hbal'|].
      split; [intros Hs; contradiction|].
      split; [intros Hs; exfalso; apply Hnotend; left; exact Hs|].
      split; [intros Hs; exfalso; apply Hnotend; exact Hs|].
      split; [intros _; exact Hnone1|].
      split; [discriminate|].
      split; [discriminate|]. left. exact Hnone1.
Qed.

Lemma session_step_inv (g g' : game) :
  session_inv g -> session_step g g' -> session_inv g'.
Proof.
  intros Hinv Hstep. destruct Hstep.
  - exact Hinv.
  - apply vacate_session_inv, Hinv.
  - apply joined_session_inv; assumption.
  - apply afterMove_session_inv; assumption.
Qed.

Lemma reachable_session_inv (s : server) (k : string) (g : game) :
  reachable s -> games s !! k = Some g -> session_inv g.
Proof.
  intros Hs Hk.
  exact (reachable_sessions session_inv fresh_session_inv session_step_inv s Hs k g Hk).
Qed.

(** ** Full boards *)

Lemma discsRow_le (cells : list cell) : (discsRow cells <= length cells)%nat.
Proof.
  unfold discsRow. induction cells as [|v cells IH]; simpl; [lia|].
  destruct (occupied v); simpl; lia.
Qed.

Lemma discsRow_all (cells : list cell) :
  discsRow cells = length cells <-> Forall (fun v => occupied v = true) cells.
Proof.
  induction cells as [|v cells IH]; [split; [constructor|reflexivity]|].
  pose proof (discsRow_le cells) as Hle. unfold discsRow in *. simpl.
  destruct (occupied v) eqn:E; simpl.
  - split.
    + intros H. constructor; [exact E|]. apply IH. lia.
    + intros H. inversion H; subst. f_equal. apply IH. assumption.
  - split; [lia|]. intros H. inversion H; subst. congruence.
Qed.

Lemma discs_le (b : grid) :
  Forall (fun cells => length cells = 7%nat) b -> (discs b <= 7 * length b)%nat.
Proof.
  induction 1 as [|cells b Hlen _ IH]; simpl; [lia|].
  pose proof (discsRow_le cells). lia.
Qed.

Lemma discs_all (b : grid) :
  Forall (fun cells => length cells = 7%nat) b ->
  (discs b = (7 * length b)%nat <->
   Forall (Forall (fun v => occupied v = true)) b).
Proof.
  induction 1 as [|cells b Hlen Hb IH]; [split; [constructor|reflexivity]|].
  pose proof (discsRow_le cells) as Hrow. pose proof (discs_le b Hb) as Hrest.
  simpl. split.
  - intros H. constructor.
    + apply discsRow_all. lia.
    + apply IH. lia.
  - intros H. inversion H as [|? ? H1 H2]; subst.
    apply discsRow_all in H1. apply IH in H2. lia.
Qed.

Lemma all_occupied_cells (b : grid) :
  board_wf b ->
  (Forall (Forall (fun v => occupied v = true)) b <->
   forall r c, 0 <= r <= 5 -> 0 <= c <= 6 -> exists q, cell_at b r c = Some (Disc q)).
Proof.
  intros Hwf. split.
  - intros Hall r c Hr Hc.
    destruct (cell_at_defined b r c Hwf ltac:(lia) ltac:(lia)) as [v Hv].
    pose proof Hv as Hv'.
    apply cell_at_lookup in Hv' as (_ & _ & cells & Hcells & Hcv).
    rewrite Forall_lookup in Hall. specialize (Hall _ _ Hcells).
    rewrite Forall_lookup in Hall. specialize (Hall _ _ Hcv).
    destruct v as [|q]; [discriminate Hall|]. eauto.
  - intros Hall. destruct Hwf as [Hrows Hcols].
    apply Forall_lookup. intros i cells Hcells.
    apply Forall_lookup. intros j v Hv.
    pose proof (lookup_lt_Some _ _ _ Hcells) as Hi.
    pose proof (lookup_lt_Some _ _ _ Hv) as Hj.
    rewrite Forall_lookup in Hcols. rewrite (Hcols _ _ Hcells) in Hj.
    destruct (Hall (Z.of_nat i) (Z.of_nat j) ltac:(lia) ltac:(lia)) as [q Hq].
    apply cell_at_lookup in Hq as (_ & _ & cells' & Hcells' & Hq).
    rewrite Nat2Z.id in Hcells', Hq.
    assert (cells' = cells) by congruence. subst cells'.
    assert (v = Disc q) by congruence. subst v. reflexivity.
Qed.

(** [isBoardFull] reads the top row. *)
Lemma isBoardFull_top (b : grid) :
  board_wf b ->
  (isBoardFull b = true <->
   forall c, 0 <= c <= 6 -> exists q, cell_at b 0 c = Some (Disc q)).
Proof.
  intros Hwf. unfold isBoardFull.
  destruct (lookup_lt_is_Some_2 b 0) as [top Htop]; [destruct Hwf; lia|].
  rewrite Htop, forallb_forall. split.
  - intros Hall c Hc.
    destruct (cell_at_defined b 0 c Hwf ltac:(lia) ltac:(lia)) as [v Hv].
    pose proof Hv as Hv'.
    apply cell_at_lookup in Hv' as (_ & _ & cells & Hcells & Hcv).
    change (Z.to_nat 0) with 0%nat in Hcells.
    assert (cells = top) by congruence. subst cells.
    assert (Hin : In v top).
    { apply list_elem_of_In, list_elem_of_lookup. eauto. }
    specialize (Hall v Hin). destruct v as [|q]; [discriminate Hall|]. eauto.
  - intros Hall v Hin. apply list_elem_of_In, list_elem_of_lookup in Hin as [j Hj].
    pose proof (lookup_lt_Some _ _ _ Hj) as Hlt.
    destruct Hwf as [_ Hcols]. rewrite Forall_lookup in Hcols.
    rewrite (Hcols _ _ Htop) in Hlt.
    destruct (Hall (Z.of_nat j) ltac:(lia)) as [q Hq].
    apply cell_at_lookup in Hq as (_ & _ & cells & Hcells & Hq).
    change (Z.to_nat 0) with 0%nat in Hcells. rewrite Nat2Z.id in Hq.
    assert (cells = top) by congruence. subst cells.
    assert (v = Disc q) by congruence. subst v. reflexivity.
Qed.

(** On a settled board a disc in the top row has a full column under it. *)
Lemma settled_column (b : grid) (c : Z) (n : nat) :
  settled b -> (exists q, cell_at b 0 c = Some (Disc q)) -> (n <= 5)%nat ->
  exists q, cell_at b (Z.of_nat n) c = Some (Disc q).
Proof.
  intros Hset Htop. induction n as [|n IH]; intros Hn; [exact Htop|].
  destruct (IH ltac:(lia)) as [q Hq].
  replace (Z.of_nat (S n)) with (Z.of_nat n + 1) by lia.
  apply (Hset (Z.of_nat n) c q); [lia|exact Hq].
Qed.

(** On a settled 6 by 7 board the top row is full exactly when the board
    holds 42 discs. *)
Lemma isBoardFull_discs (b : grid) :
  board_wf b -> settled b -> (isBoardFull b = true <-> discs b = 42%nat).
Proof.
  intros Hwf Hset. pose proof Hwf as [Hrows Hcols].
  rewrite (isBoardFull_top b Hwf).
  replace 42%nat with (7 * length b)%nat by (rewrite Hrows; reflexivity).
  rewrite (discs_all b Hcols), (all_occupied_cells b Hwf). split.
  - intros Htop r c Hr Hc.
    replace r with (Z.of_nat (Z.to_nat r)) by lia.
    apply settled_column; [exact Hset|apply Htop, Hc|lia].
  - intros Hall c Hc. apply Hall; lia.
Qed.

(** ** Reachable sessions, continued *)

(** X2: after any event, timer or not, a session of the new state is either
    a new one (empty board, nothing set off the grid, no moves, no winner,
    red to play, waiting for a second player or playing) or the session
    that was under the same key after at most one step: a seat released, a
    second player seated, or a move played by the current player, with a
    column value that passes the range test, at the row the scan finds for
    its key: the lowest empty cell of a column of the grid when the value
    is an integer, a property off the grid when its key is none of the
    seven cells. *)
Theorem event_session_origin (ev : event) (s : server) (k : string) (g' : game) :
  games (state_of (handle ev s)) !! k = Some g' ->
  fresh_session g' \/ exists g, games s !! k = Some g /\ session_step g g'.
Proof. intros Hk. apply (handle_session ev s k g' Hk). Qed.

(** X3: in every reachable session the board is a 6 by 7 grid on which no
    disc has an empty cell under it. *)
Theorem reachable_board_settled (s : server) (k : string) (g : game) :
  reachable s -> games s !! k = Some g ->
  board_wf (board g) /\ settled (board g).
Proof.
  intros Hs Hk. destruct (reachable_session_inv s k g Hs Hk) as (Hwf & Hset & _).
  split; assumption.
Qed.

(** X4: in every reachable session red has played half the moves rounded
    up and yellow half rounded down, a played move being a disc of the
    colour on the grid or a property holding the colour off the grid; so
    red has at most that many discs on the board, and yellow likewise.
    While no winner is set, it is red's turn exactly when the move counter
    is even. *)
Theorem reachable_turn_and_counts (s : server) (k : string) (g : game) :
  reachable s -> games s !! k = Some g ->
  Z.of_nat (placedOf Red g) = (moves g + 1) / 2 /\
  Z.of_nat (placedOf Yellow g) = moves g / 2 /\
  Z.of_nat (discsOf Red (board g)) <= (moves g + 1) / 2 /\
  Z.of_nat (discsOf Yellow (board g)) <= moves g / 2 /\
  (winner g = None -> (currentPlayer g = Red <-> Z.even (moves g) = true)).
Proof.
  intros Hs Hk.
  destruct (reachable_session_inv s k g Hs Hk) as (_ & _ & Hm & Hturn & Hbal & _).
  pose proof (placed_split g) as Hsplit.
  assert (Hcases :
    (moves g = 2 * Z.of_nat (placedOf Yellow g) /\
     placedOf Red g = placedOf Yellow g) \/
    (moves g = 2 * Z.of_nat (placedOf Yellow g) + 1 /\
     placedOf Red g = S (placedOf Yellow g))) by lia.
  assert (HR : Z.of_nat (placedOf Red g) = (moves g + 1) / 2).
  { destruct Hcases as [[H1 H2]|[H1 H2]]; rewrite H1, H2.
    - apply Z.div_unique with (r := 1); lia.
    - apply Z.div_unique with (r := 0); lia. }
  assert (HY : Z.of_nat (placedOf Yellow g) = moves g / 2).
  { destruct Hcases as [[H1 H2]|[H1 H2]]; rewrite H1.
    - apply Z.div_unique with (r := 0); lia.
    - apply Z.div_unique with (r := 1); lia. }
  split; [exact HR|]. split; [exact HY|].
  split; [rewrite <- HR; unfold placedOf; lia|].
  split; [rewrite <- HY; unfold placedOf; lia|].
  intros Hw. destruct (Hturn Hw) as [[Hcp Heq]|[Hcp Heq]]; rewrite Hcp.
  - destruct Hcases as [[H1 _]|[_ H2]]; [|lia]. rewrite H1, Z.even_mul. tauto.
  - destruct Hcases as [[_ H2]|[H1 _]]; [lia|].
    rewrite H1, Z.add_comm, Z.even_add_mul_2. simpl. split; discriminate.
Qed.

(** X5: in every reachable state a session in [Waiting] status is as
    [createGame] made it: empty board, no moves, no winner, the red seat
    taken and the yellow seat empty. *)
Theorem waiting_session_untouched (s : server) (k : string) (g : game) :
  reachable s -> games s !! k = Some g -> status g = Waiting ->
  board g = emptyBoard /\ moves g = 0 /\ winner g = None /\
  is_Some (red (players g)) /\ yellow (players g) = None.
Proof.
  intros Hs Hk Hst.
  destruct (reachable_session_inv s k g Hs Hk) as (_ & _ & Hm & _ & _ & Hwait & _).
  destruct (Hwait Hst) as (Hb & Ho & Hw & Hr & Hy).
  rewrite Hb, Ho in Hm. repeat (split; [assumption|]). assumption.
Qed.

(** X6: in every reachable state a session whose status is [Finished] or
    [Abandoned] has a winner, and a session whose winner is the draw is
    [Finished], has a full top row and a disc in each of its 42 cells, at
    least 42 moves played (42 and one for each property set off the grid),
    both seats taken and no winning cells. *)
Theorem ended_session_winner (s : server) (k : string) (g : game) :
  reachable s -> games s !! k = Some g ->
  (status g = Finished \/ status g = Abandoned -> is_Some (winner g)) /\
  (winner g = Some Draw ->
     status g = Finished /\ isBoardFull (board g) = true /\
     discs (board g) = 42%nat /\ moves g = 42 + Z.of_nat (size (offGrid g)) /\
     is_Some (red (players g)) /\ is_Some (yellow (players g)) /\
     winningCells g = []).
Proof.
  intros Hs Hk.
  destruct (reachable_session_inv s k g Hs Hk)
    as (Hwf & Hset & Hm & _ & _ & _ & Hfin & Hend & _ & Hdraw & _).
  split; [exact Hend|]. intros Hw. destruct (Hdraw Hw) as (Hst & Hfull & Hwc).
  destruct (Hfin Hst) as [Hr Hy].
  pose proof (proj1 (isBoardFull_discs (board g) Hwf Hset) Hfull) as Hd.
  split; [exact Hst|]. split; [exact Hfull|]. split; [exact Hd|].
  split; [lia|auto].
Qed.

(** X7: in every reachable state the winning cells of a session are none
    or four: none while no winner is set, four in a [Finished] session won
    by a colour. *)
Theorem winningCells_none_or_four (s : server) (k : string) (g : game) :
  reachable s -> games s !! k = Some g ->
  (winningCells g = [] \/ length (winningCells g) = 4%nat) /\
  (winner g = None -> winningCells g = []) /\
  (forall c, status g = Finished -> winner g = Some (Won c) ->
     length (winningCells g) = 4%nat).
Proof.
  intros Hs Hk.
  destruct (reachable_session_inv s k g Hs Hk)
    as (_ & _ & _ & _ & _ & _ & _ & _ & Hnone & _ & Hwon & Hlen).
  auto.
Qed.

(** X8: in every reachable session the move counter is the number of
    discs on the board plus the number of properties set off the grid, so
    it is at least the number of discs; the board holds at most 42 discs,
    and [isBoardFull] is true exactly when it holds 42. *)
Theorem isBoardFull_iff_42_discs (s : server) (k : string) (g : game) :
  reachable s -> games s !! k = Some g ->
  moves g = Z.of_nat (discs (board g)) + Z.of_nat (size (offGrid g)) /\
  Z.of_nat (discs (board g)) <= moves g /\
  (discs (board g) <= 42)%nat /\
  (isBoardFull (board g) = true <-> discs (board g) = 42%nat).
Proof.
  intros Hs Hk.
  destruct (reachable_session_inv s k g Hs Hk) as (Hwf & Hset & Hm & _).
  pose proof Hwf as [Hrows Hcols]. pose proof (discs_le (board g) Hcols) as Hle.
  rewrite Hrows in Hle. split; [exact Hm|]. split; [lia|]. split; [lia|].
  apply (isBoardFull_discs (board g) Hwf Hset).
Qed.

Lemma stateCreated_session :
  games stateCreated !! "ABC123" = Some (sessionAt stateCreated "ABC123").
Proof. vm_compute. reflexivity. Defined.

Lemma event_session_origin_witness :
  fresh_session (sessionAt stateRedWins "ABC123") \/
  exists g, games stateRedToWin !! "ABC123" = Some g /\
            session_step g (sessionAt stateRedWins "ABC123").
Proof.
  apply (event_session_origin (MakeMove "a" "ABC123" (Whole 2) Red 7) stateRedToWin "ABC123"
           (sessionAt stateRedWins "ABC123")).
  vm_compute. reflexivity.
Defined.

Lemma reachable_board_settled_witness :
  board_wf (board (sessionAt stateRedWins "ABC123")) /\
  settled (board (sessionAt stateRedWins "ABC123")).
Proof.
  apply (reachable_board_settled stateRedWins "ABC123").
  - apply reachable_run, reachable_init.
  - vm_compute. reflexivity.
Defined.

Lemma reachable_turn_and_counts_witness :
  Z.of_nat (placedOf Red (sessionAt stateFraction "ABC123")) = 1 /\
  Z.of_nat (placedOf Yellow (sessionAt stateFraction "ABC123")) = 0 /\
  Z.of_nat (discsOf Red (board (sessionAt stateFraction "ABC123"))) <= 1 /\
  Z.of_nat (discsOf Yellow (board (sessionAt stateFraction "ABC123"))) <= 0 /\
  (winner (sessionAt stateFraction "ABC123") = None ->
     (currentPlayer (sessionAt stateFraction "ABC123") = Red <-> false = true)).
Proof.
  apply (reachable_turn_and_counts stateFraction "ABC123").
  - apply reachable_run, reachable_init.
  - vm_compute. reflexivity.
Defined.

Lemma waiting_session_untouched_witness :
  board (sessionAt stateCreated "ABC123") = emptyBoard /\
  moves (sessionAt stateCreated "ABC123") = 0 /\
  winner (sessionAt stateCreated "ABC123") = None /\
  is_Some (red (players (sessionAt stateCreated "ABC123"))) /\
  yellow (players (sessionAt stateCreated "ABC123")) = None.
Proof.
  apply (waiting_session_untouched stateCreated "ABC123").
  - apply reachable_run, reachable_init.
  - vm_compute. reflexivity.
  - vm_compute. reflexivity.
Defined.

Lemma ended_session_winner_witness :
  (status (sessionAt stateRedWins "ABC123") = Finished \/
   status (sessionAt stateRedWins "ABC123") = Abandoned ->
   is_Some (winner (sessionAt stateRedWins "ABC123"))) /\
  (winner (sessionAt stateRedWins "ABC123") = Some Draw ->
     status (sessionAt stateRedWins "ABC123") = Finished /\
     isBoardFull (board (sessionAt stateRedWins "ABC123")) = true /\
     discs (board (sessionAt stateRedWins "ABC123")) = 42%nat /\
     moves (sessionAt stateRedWins "ABC123")
       = 42 + Z.of_nat (size (offGrid (sessionAt stateRedWins "ABC123"))) /\
     is_Some (red (players (sessionAt stateRedWins "ABC123"))) /\
     is_Some (yellow (players (sessionAt stateRedWins "ABC123"))) /\
     winningCells (sessionAt stateRedWins "ABC123") = []).
Proof.
  apply (ended_session_winner stateRedWins "ABC123").
  - apply reachable_run, reachable_init.
  - vm_compute. reflexivity.
Defined.

Lemma winningCells_none_or_four_witness :
  (winningCells (sessionAt stateRedWins "ABC123") = [] \/
   length (winningCells (sessionAt stateRedWins "ABC123")) = 4%nat) /\
  (winner (sessionAt stateRedWins "ABC123") = None ->
     winningCells (sessionAt stateRedWins "ABC123") = []) /\
  (forall c, status (sessionAt stateRedWins "ABC123") = Finished ->
     winner (sessionAt stateRedWins "ABC123") = Some (Won c) ->
     length (winningCells (sessionAt stateRedWins "ABC123")) = 4%nat).
Proof.
  apply (winningCells_none_or_four stateRedWins "ABC123").
  - apply reachable_run, reachable_init.
  - vm_compute. reflexivity.
Defined.

Lemma isBoardFull_iff_42_discs_witness :
  moves (sessionAt stateFraction "ABC123") = 0 + 1 /\
  0 <= moves (sessionAt stateFraction "ABC123") /\
  (discs (board (sessionAt stateFraction "ABC123")) <= 42)%nat /\
  (isBoardFull (board (sessionAt stateFraction "ABC123")) = true <->
   discs (board (sessionAt stateFraction "ABC123")) = 42%nat).
Proof.
  apply (isBoardFull_iff_42_discs stateFraction "ABC123").
  - apply reachable_run, reachable_init.
  - vm_compute. reflexivity.
Defined.

Lemma dropRow_lowest_empty_witness :
  (dropRow boardRedWins 6 = -1 <-> column_full boardRedWins 6) /\
  (dropRow boardRedWins 6 <> -1 ->
     0 <= dropRow boardRedWins 6 <= 5 /\
     cell_at boardRedWins (dropRow boardRedWins 6) 6 = Some Empty /\
     forall r, dropRow boardRedWins 6 < r <= 5 ->
       exists q, cell_at boardRedWins r 6 = Some (Disc q)).
Proof.
  apply (dropRow_lowest_empty boardRedWins 6).
  - split; [reflexivity|]. repeat constructor.
  - lia.
Defined.

(** ** The two walks, beyond the claims *)

Lemma countAxis_fuel (b : grid) (p : color) (n : nat) (row col dx1 dy1 dx2 dy2 : Z) :
  -1 <= dx1 <= 1 -> -1 <= dy1 <= 1 -> (dx1 <> 0 \/ dy1 <> 0) ->
  -1 <= dx2 <= 1 -> -1 <= dy2 <= 1 -> (dx2 <> 0 \/ dy2 <> 0) ->
  (scan_fuel <= n)%nat ->
  countAxis n row col b p ((dx1, dy1), (dx2, dy2))
    = countAxis scan_fuel row col b p ((dx1, dy1), (dx2, dy2)).
Proof.
  intros H1 H2 H3 H4 H5 H6 Hn. unfold countAxis.
  rewrite (countRun_acc b p n (row + dx2)), (countRun_acc b p n (row + dx1)).
  rewrite (countRun_acc b p scan_fuel (row + dx2)), (countRun_acc b p scan_fuel (row + dx1)).
  rewrite (countRun_fuel b p n (row + dx1) (col + dy1) dx1 dy1 H1 H2 H3 Hn).
  rewrite (countRun_fuel b p n (row + dx2) (col + dy2) dx2 dy2 H4 H5 H6 Hn).
  reflexivity.
Qed.

Lemma collectAxis_fuel (b : grid) (p : color) (n : nat) (row col dx1 dy1 dx2 dy2 : Z) :
  -1 <= dx1 <= 1 -> -1 <= dy1 <= 1 -> (dx1 <> 0 \/ dy1 <> 0) ->
  -1 <= dx2 <= 1 -> -1 <= dy2 <= 1 -> (dx2 <> 0 \/ dy2 <> 0) ->
  (scan_fuel <= n)%nat ->
  collectAxis n row col b p ((dx1, dy1), (dx2, dy2))
    = collectAxis scan_fuel row col b p ((dx1, dy1), (dx2, dy2)).
Proof.
  intros H1 H2 H3 H4 H5 H6 Hn. unfold collectAxis.
  rewrite (collectRun_fuel b p n (row + dx1) (col + dy1) dx1 dy1 _ H1 H2 H3 Hn).
  rewrite (collectRun_fuel b p n (row + dx2) (col + dy2) dx2 dy2 _ H4 H5 H6 Hn).
  reflexivity.
Qed.

(** X9: the loops of [checkWin] and [getWinningCells] never need more than
    seven iterations: run with any larger bound, both functions return what
    they return with seven. *)
Theorem scan_fuel_enough (n : nat) (row col : Z) (b : grid) (p : color) :
  (scan_fuel <= n)%nat ->
  checkWin_fuel n row col b p = checkWin row col b p /\
  winningCellsIn n dirs row col b p = getWinningCells row col b p.
Proof.
  intros Hn. unfold checkWin, checkWin_fuel, getWinningCells, dirs.
  cbn [existsb winningCellsIn].
  rewrite !(countAxis_fuel b p n) by (lia || exact Hn).
  rewrite !(collectAxis_fuel b p n) by (lia || exact Hn).
  split; reflexivity.
Qed.

Lemma sgn_unit_step (k d : Z) : 0 < k -> -1 <= d <= 1 -> Z.sgn (k * d) = d.
Proof.
  intros Hk Hd. assert (d = -1 \/ d = 0 \/ d = 1) as [->|[->| ->]] by lia.
  - apply Z.sgn_neg. lia.
  - apply Z.sgn_null_iff. lia.
  - apply Z.sgn_pos. lia.
Qed.

(** The four cells built from one axis start at the placed cell and step
    along the axis: forwards when the backward walk met no cell, backwards
    otherwise. *)
Lemma fourFrom_axis (b : grid) (p : color) (n : nat) (row col dx dy : Z) :
  -1 <= dx <= 1 -> -1 <= dy <= 1 ->
  (4 <= length (collectAxis n row col b p ((dx, dy), (- dx, - dy))))%nat ->
  let e := if countRun n b p (row + - dx) (col + - dy) (- dx) (- dy) 0 =? 0
           then 1 else -1 in
  fourFrom (collectAxis n row col b p ((dx, dy), (- dx, - dy))) row col
    = map (fun i => (row + e * i * dx, col + e * i * dy)) [0; 1; 2; 3].
Proof.
  intros Hdx Hdy. unfold collectAxis. rewrite !collectRun_cells.
  pose proof (countRun_nonneg b p n (row + - dx) (col + - dy) (- dx) (- dy)) as HB.
  destruct (Z.to_nat (countRun n b p (row + - dx) (col + - dy) (- dx) (- dy) 0))
    as [|B'] eqn:EB.
  - replace (countRun n b p (row + - dx) (col + - dy) (- dx) (- dy) 0) with 0 by lia.
    set (A := Z.to_nat (countRun n b p (row + dx) (col + dy) dx dy 0)).
    rewrite !length_app, !length_map, !length_seq. simpl length. intros Hlen.
    unfold fourFrom. cbn [app hd Z.eqb].
    destruct A as [|A']; [lia|].
    rewrite seq_S, map_app. cbn [seq map]. rewrite app_nil_r, app_comm_cons, last_last.
    cbn [fst snd Nat.add].
    replace (row + dx + Z.of_nat A' * dx - row) with ((Z.of_nat A' + 1) * dx) by lia.
    replace (col + dy + Z.of_nat A' * dy - col) with ((Z.of_nat A' + 1) * dy) by lia.
    rewrite !sgn_unit_step by lia.
    repeat (f_equal; try (f_equal; lia)).
  - replace (countRun n b p (row + - dx) (col + - dy) (- dx) (- dy) 0 =? 0) with false
      by (symmetry; apply Z.eqb_neq; lia).
    intros _. unfold fourFrom. cbn [app hd].
    rewrite (seq_S B'), map_app. cbn [seq map].
    rewrite app_assoc, app_comm_cons, last_last. cbn [fst snd Nat.add].
    replace (row + - dx + Z.of_nat B' * - dx - row) with ((Z.of_nat B' + 1) * - dx) by lia.
    replace (col + - dy + Z.of_nat B' * - dy - col) with ((Z.of_nat B' + 1) * - dy) by lia.
    rewrite !sgn_unit_step by lia.
    repeat (f_equal; try (f_equal; lia)).
Qed.

Lemma winningCellsIn_line (b : grid) (p : color) (n : nat) (row col : Z)
    (ds : list ((Z * Z) * (Z * Z))) :
  Forall (fun dir => -1 <= fst (fst dir) <= 1 /\ -1 <= snd (fst dir) <= 1 /\
                     snd dir = (- fst (fst dir), - snd (fst dir))) ds ->
  if existsb (fun dir => 4 <=? countAxis n row col b p dir) ds
  then exists d e, In d (map fst ds) /\ (e = 1 \/ e = -1) /\
         winningCellsIn n ds row col b p
           = map (fun i => (row + e * i * fst d, col + e * i * snd d)) [0; 1; 2; 3]
  else winningCellsIn n ds row col b p = [].
Proof.
  induction 1 as [|[[dx dy] d2] ds (Hdx & Hdy & Hd2) _ IH]; [reflexivity|].
  cbn [fst snd] in Hdx, Hdy, Hd2. subst d2.
  cbn [existsb winningCellsIn]. rewrite <- collectAxis_length.
  destruct (Nat.leb_spec 4 (length (collectAxis n row col b p ((dx, dy), (- dx, - dy)))))
    as [Hle|Hlt].
  - replace (4 <=? Z.of_nat (length (collectAxis n row col b p ((dx, dy), (- dx, - dy)))))
      with true by (symmetry; apply Z.leb_le; lia).
    cbn [orb]. pose proof (fourFrom_axis b p n row col dx dy Hdx Hdy Hle) as Heq.
    cbv zeta in Heq. eexists (dx, dy), _. split; [left; reflexivity|].
    split; [|exact Heq]. destruct (_ =? 0); auto.
  - replace (4 <=? Z.of_nat (length (collectAxis n row col b p ((dx, dy), (- dx, - dy)))))
      with false by (symmetry; apply Z.leb_gt; lia).
    cbn [orb]. destruct (existsb _ ds); [|exact IH].
    destruct IH as (d & e & Hin & He & Heq). exists d, e.
    split; [right; exact Hin|]. split; [exact He|exact Heq].
Qed.

(** X10: [getWinningCells] returns no cell when [checkWin] is false; when
    it is true it returns four coordinates that start at the given cell and
    advance by one step of one of the four axes, forwards or backwards. *)
Theorem getWinningCells_line (row col : Z) (b : grid) (p : color) :
  if checkWin row col b p
  then exists d e, In d axes /\ (e = 1 \/ e = -1) /\
         getWinningCells row col b p
           = map (fun i => (row + e * i * fst d, col + e * i * snd d)) [0; 1; 2; 3]
  else getWinningCells row col b p = [].
Proof.
  unfold checkWin, checkWin_fuel, getWinningCells, axes.
  apply winningCellsIn_line. unfold dirs.
  repeat constructor; simpl; lia.
Qed.

Lemma scan_fuel_enough_witness :
  checkWin_fuel 10 5 2 boardRedWins Red = checkWin 5 2 boardRedWins Red /\
  winningCellsIn 10 dirs 5 2 boardRedWins Red = getWinningCells 5 2 boardRedWins Red.
Proof. apply (scan_fuel_enough 10 5 2 boardRedWins Red). unfold scan_fuel. lia. Defined.

Lemma fourFrom_axis_holds (b : grid) (p : color) (row col dx dy : Z) :
  board_wf b -> holds b row col p -> -1 <= dx <= 1 -> -1 <= dy <= 1 ->
  (4 <= length (collectAxis scan_fuel row col b p ((dx, dy), (- dx, - dy))))%nat ->
  backRun row col b p (dx, dy) = 0 \/ 3 <= backRun row col b p (dx, dy) ->
  Forall (fun rc => holds b (fst rc) (snd rc) p)
    (fourFrom (collectAxis scan_fuel row col b p ((dx, dy), (- dx, - dy))) row col).
Proof.
  intros Hwf Horigin Hdx Hdy Hlen Hback.
  rewrite (fourFrom_axis b p scan_fuel row col dx dy Hdx Hdy Hlen). cbv zeta.
  pose proof (collectAxis_length b p scan_fuel row col ((dx, dy), (- dx, - dy))) as Hcount.
  rewrite countAxis_sum in Hcount. unfold backRun in Hback. cbn [fst snd] in Hback.
  set (A := countRun scan_fuel b p (row + dx) (col + dy) dx dy 0) in *.
  set (B := countRun scan_fuel b p (row + - dx) (col + - dy) (- dx) (- dy) 0) in *.
  assert (Hcell : forall i, 0 <= i <= 3 ->
            holds b (row + (if B =? 0 then 1 else -1) * i * dx)
                    (col + (if B =? 0 then 1 else -1) * i * dy) p).
  { intros i Hi. destruct (decide (i = 0)) as [->|Hi0].
    { replace (row + (if B =? 0 then 1 else -1) * 0 * dx) with row by lia.
      replace (col + (if B =? 0 then 1 else -1) * 0 * dy) with col by lia.
      exact Horigin. }
    destruct Hback as [HB|HB].
    - rewrite HB. cbn [Z.eqb].
      assert (HA : Z.of_nat 3 <= A) by lia.
      apply countRun_ge in HA as [_ Hfwd].
      specialize (Hfwd (Z.to_nat (i - 1)) ltac:(lia)).
      rewrite Z2Nat.id in Hfwd by lia.
      apply holds_same_color; [exact Hwf|].
      replace (row + 1 * i * dx) with (row + dx + (i - 1) * dx) by lia.
      replace (col + 1 * i * dy) with (col + dy + (i - 1) * dy) by lia.
      exact Hfwd.
    - replace (B =? 0) with false by (symmetry; apply Z.eqb_neq; lia).
      assert (HB' : Z.of_nat 3 <= B) by lia.
      apply countRun_ge in HB' as [_ Hbwd].
      specialize (Hbwd (Z.to_nat (i - 1)) ltac:(lia)).
      rewrite Z2Nat.id in Hbwd by lia.
      apply holds_same_color; [exact Hwf|].
      replace (row + -1 * i * dx) with (row + - dx + (i - 1) * - dx) by lia.
      replace (col + -1 * i * dy) with (col + - dy + (i - 1) * - dy) by lia.
      exact Hbwd. }
  cbn [map]. repeat constructor; cbn [fst snd]; apply Hcell; lia.
Qed.

Lemma winningCellsIn_hold (b : grid) (p : color) (row col : Z)
    (ds : list ((Z * Z) * (Z * Z))) :
  board_wf b -> holds b row col p ->
  Forall (fun dir => -1 <= fst (fst dir) <= 1 /\ -1 <= snd (fst dir) <= 1 /\
                     snd dir = (- fst (fst dir), - snd (fst dir))) ds ->
  (forall d, In d (map fst ds) ->
     backRun row col b p d = 0 \/ 3 <= backRun row col b p d) ->
  Forall (fun rc => holds b (fst rc) (snd rc) p)
    (winningCellsIn scan_fuel ds row col b p).
Proof.
  intros Hwf Horigin Hds. induction Hds as [|[[dx dy] d2] ds (Hdx & Hdy & Hd2) _ IH];
    intros Hback; [constructor|].
  cbn [fst snd] in Hdx, Hdy, Hd2. subst d2. cbn [winningCellsIn].
  destruct (Nat.leb_spec 4
              (length (collectAxis scan_fuel row col b p ((dx, dy), (- dx, - dy)))))
    as [Hle|Hlt].
  - apply fourFrom_axis_holds; try assumption. apply Hback. left. reflexivity.
  - apply IH. intros d Hin. apply Hback. right. exact Hin.
Qed.

(** X11: on a 6 by 7 board whose cell [(row, col)] holds colour [p], if on
    every axis the backward walk from that cell meets no cell of the colour
    or at least three (as when the placed disc is the end of its line),
    every coordinate [getWinningCells] returns holds colour [p]. *)
Theorem getWinningCells_holds_at_line_end (row col : Z) (b : grid) (p : color) :
  board_wf b -> holds b row col p ->
  (forall d, In d axes -> backRun row col b p d = 0 \/ 3 <= backRun row col b p d) ->
  Forall (fun rc => holds b (fst rc) (snd rc) p) (getWinningCells row col b p).
Proof.
  intros Hwf Horigin Hback. unfold getWinningCells.
  apply winningCellsIn_hold; try assumption.
  unfold dirs. repeat constructor; simpl; lia.
Qed.

Lemma getWinningCells_holds_at_line_end_witness :
  getWinningCells 5 3 boardRedWins Red = [(5, 3); (5, 2); (5, 1); (5, 0)] /\
  Forall (fun rc => holds boardRedWins (fst rc) (snd rc) Red)
    (getWinningCells 5 3 boardRedWins Red).
Proof.
  split; [reflexivity|].
  apply (getWinningCells_holds_at_line_end 5 3 boardRedWins Red).
  - split; [reflexivity|]. repeat constructor.
  - reflexivity.
  - intros d Hin. simpl in Hin. destruct Hin as [<-|[<-|[<-|[<-|[]]]]].
    + right. vm_compute. discriminate.
    + left. reflexivity.
    + left. reflexivity.
    + left. reflexivity.
Defined.

(** ** Series statistics *)

(** X12: [initializePlayerStats] never resets a series: it leaves a state
    that has stats under the id as it is, makes zeroed stats under the id
    otherwise, and doing it a second time, with whatever players, changes
    nothing. *)
Theorem initializePlayerStats_once (gid : string) (r y rn yn r2 y2 rn2 yn2 : option string)
    (s : server) :
  initializePlayerStats gid r2 y2 rn2 yn2 (initializePlayerStats gid r y rn yn s)
    = initializePlayerStats gid r y rn yn s /\
  playerStats (initializePlayerStats gid r y rn yn s) !! gid
    = Some (match playerStats s !! gid with
            | Some st => st
            | None => newStats gid r y rn yn
            end) /\
  (is_Some (playerStats s !! gid) -> initializePlayerStats gid r y rn yn s = s).
Proof.
  unfold initializePlayerStats at 2 3 4 5.
  destruct (playerStats s !! gid) as [st|] eqn:Hst.
  - split; [|split; [exact Hst|reflexivity]].
    unfold initializePlayerStats. rewrite Hst. reflexivity.
  - split; [|split; [|intros [? ?]; discriminate]].
    + unfold initializePlayerStats. cbn [playerStats set_playerStats].
      rewrite lookup_insert_eq. reflexivity.
    + cbn [playerStats set_playerStats]. apply lookup_insert_eq.
Qed.

Lemma updatePlayerStats_won (gid : string) (c : color) (s : server) (st : stats) :
  playerStats s !! gid = Some st ->
  updatePlayerStats gid (Won c) s
    = set_playerStats (<[gid := recordWin c st]> (playerStats s)) s.
Proof. intros Hst. unfold updatePlayerStats. rewrite Hst. destruct c; reflexivity. Qed.

Lemma updatePlayerStats_lookup (gid : string) (c : color) (s : server) (k : string) :
  playerStats (updatePlayerStats gid (Won c) s) !! k
    = if bool_decide (k = gid) then recordWin c <$> playerStats s !! k
      else playerStats s !! k.
Proof.
  destruct (playerStats s !! gid) as [st|] eqn:Hst.
  - rewrite (updatePlayerStats_won gid c s st Hst). cbn [playerStats set_playerStats].
    case_bool_decide as Hk.
    + subst k. rewrite lookup_insert_eq, Hst. reflexivity.
    + rewrite lookup_insert_ne by congruence. reflexivity.
  - unfold updatePlayerStats. rewrite Hst. case_bool_decide as Hk; [|reflexivity].
    subst k. rewrite Hst. reflexivity.
Qed.

Lemma makeMove_stats_lookup (sock gid : string) (col : column) (c : color) (now : Z)
    (s : server) (k : string) :
  playerStats (fst (makeMove sock gid col c now s)) !! k = playerStats s !! k \/
  exists st, playerStats s !! k = Some st /\
    playerStats (fst (makeMove sock gid col c now s)) !! k = Some (recordWin c st).
Proof.
  destruct (makeMove_entry gid c s) as [Hnone|[(g & Hg & Hcase)|(g & Hel)]].
  - destruct (makeMove_not_found sock gid col c now s Hnone) as [text Ht]. rewrite Ht.
    left. reflexivity.
  - destruct Hcase as [Hw|[[Hw Hc]|(Hw & Hc & Hseat)]].
    + rewrite (makeMove_ended sock gid col c now s g Hg Hw). left. reflexivity.
    + rewrite (makeMove_wrong_turn sock gid col c now s g Hg Hw Hc). left. reflexivity.
    + rewrite (makeMove_seat_empty sock gid col c now s g Hg Hw Hc Hseat). left. reflexivity.
  - rewrite (makeMove_eligible sock gid col c now s g Hel).
    destruct (outOfRange col) as [[|]|]; [left; reflexivity| |left; reflexivity]. cbv zeta.
    destruct (dropRowAt g (slotOf col) =? -1); [left; reflexivity|]. cbn [fst].
    destruct (checkWinAt _ _ _ _ _); [|destruct (isBoardFull _); left; reflexivity].
    rewrite playerStats_set_games, updatePlayerStats_lookup.
    case_bool_decide as Hk; [|left; reflexivity].
    destruct (playerStats s !! k) as [st|]; [|left; reflexivity].
    right. exists st. split; reflexivity.
Qed.

Lemma joinGame_stats_lookup (sock gid : string) (s : server) (k : string) :
  playerStats (fst (joinGame sock gid s)) !! k = playerStats s !! k \/
  (playerStats s !! k = None /\
   exists r y rn yn,
     playerStats (fst (joinGame sock gid s)) !! k = Some (newStats k r y rn yn)).
Proof.
  unfold joinGame.
  destruct (games s !! gid) as [g|]; [|destruct (inheritedName gid); left; reflexivity].
  destruct (yellow (players g)); [left; reflexivity|]. cbv zeta. cbn [fst].
  unfold initializePlayerStats. cbn [playerStats set_games originalGameId set_status
    set_players].
  destruct (playerStats s !! originalGameId g) as [st|] eqn:Hst; [left; reflexivity|].
  cbn [playerStats set_playerStats set_games].
  destruct (decide (originalGameId g = k)) as [<-|Hne].
  - right. split; [exact Hst|]. rewrite lookup_insert_eq. unfold newStats. eauto.
  - left. apply lookup_insert_ne. exact Hne.
Qed.

Lemma acceptRematch_stats (sock gid newId : string) (now : Z) (s : server) :
  playerStats (state_of (acceptRematch sock gid newId now s)) = playerStats s.
Proof.
  unfold acceptRematch.
  destruct (pendingRematches s !! gid) as [pending|]; [|reflexivity].
  destruct (bool_decide (opponent pending <> sock)); [reflexivity|].
  destruct (games s !! gid) as [g|]; [|reflexivity].
  destruct (playerStats s !! originalGameId g) as [st|]; [|reflexivity].
  cbv zeta. destruct (games _ !! newId); reflexivity.
Qed.

Lemma requestRematch_stats (sock gid : string) (now : Z) (s : server) :
  playerStats (fst (requestRematch sock gid now s)) = playerStats s.
Proof.
  unfold requestRematch.
  destruct (games s !! gid) as [[b cp [[r|] rn [y|] yn] w wc st ca lm mv og gn ex]|];
    try reflexivity.
  destruct (inheritedName gid); reflexivity.
Qed.

Lemma declineRematch_stats (sock gid : string) (s : server) :
  playerStats (fst (declineRematch sock gid s)) = playerStats s.
Proof.
  unfold declineRematch. destruct (pendingRematches s !! gid); [reflexivity|].
  destruct (inheritedName gid); reflexivity.
Qed.

Lemma leaveGame_stats (sock gid : string) (s : server) :
  playerStats (fst (leaveGame sock gid s)) = playerStats s.
Proof.
  unfold leaveGame. destruct (games s !! gid); [reflexivity|].
  destruct (inheritedName gid); reflexivity.
Qed.

Lemma removeGameTimer_stats (gid : string) (s : server) :
  playerStats (removeGameTimer gid s) = playerStats s.
Proof. unfold removeGameTimer. destruct (games s !! gid); reflexivity. Qed.

(** The stats under a key after an event: the ones before it, the ones
    before it with one more win, or new zeroed ones where there were none. *)
Lemma handle_stats (ev : event) (s : server) (k : string) :
  playerStats (state_of (handle ev s)) !! k = playerStats s !! k \/
  (exists c st, playerStats s !! k = Some st /\
     playerStats (state_of (handle ev s)) !! k = Some (recordWin c st)) \/
  (playerStats s !! k = None /\
   exists r y rn yn,
     playerStats (state_of (handle ev s)) !! k = Some (newStats k r y rn yn)).
Proof.
  destruct ev as [sock name|sock newId now|sock gid|sock gid col c now|sock gid now
                 |sock gid newId now|sock gid|sock gid|sock|gid|now|now|sock];
    cbn [handle]; rewrite ?state_of_returns; cbn [state_of].
  - left. reflexivity.
  - left. reflexivity.
  - destruct (joinGame_stats_lookup sock gid s k) as [H|H]; auto.
  - destruct (makeMove_stats_lookup sock gid col c now s k) as [H|(st & H1 & H2)];
      [auto|right; left; eauto].
  - left. rewrite requestRematch_stats. reflexivity.
  - left. rewrite acceptRematch_stats. reflexivity.
  - left. rewrite declineRematch_stats. reflexivity.
  - left. rewrite leaveGame_stats. reflexivity.
  - left. reflexivity.
  - left. rewrite removeGameTimer_stats. reflexivity.
  - left. reflexivity.
  - left. reflexivity.
  - left. reflexivity.
Qed.

(** X13: in every reachable state the stats stored under a key carry that
    key as series id, their win counters are not negative, and their
    [gamesPlayed] is the sum of the two win counters: draws and abandoned
    games are not counted. *)
Theorem stats_count_wins_only (s : server) (k : string) (st : stats) :
  reachable s -> playerStats s !! k = Some st ->
  seriesId st = k /\ 0 <= wins (statsRed st) /\ 0 <= wins (statsYellow st) /\
  gamesPlayed st = wins (statsRed st) + wins (statsYellow st).
Proof.
  intros Hs. revert st. induction Hs as [|ev s Hs IH]; intros st Hk.
  - simpl in Hk. rewrite lookup_empty in Hk. discriminate Hk.
  - destruct (handle_stats ev s k) as [H|[(c & st0 & H0 & H1)|(_ & r & y & rn & yn & H1)]].
    + rewrite H in Hk. apply IH, Hk.
    + rewrite H1 in Hk. injection Hk as <-.
      destruct (IH st0 H0) as (Hid & Hr & Hy & Hsum).
      destruct c; simpl; (split; [exact Hid|lia]).
    + rewrite H1 in Hk. injection Hk as <-. simpl. split; [reflexivity|lia].
Qed.

(** X14: no event removes the stats of a series or lowers a counter: the
    stats under a key stay, with the same series id and the same players,
    and each counter at least what it was. *)
Theorem stats_never_dropped (ev : event) (s : server) (k : string) (st : stats) :
  playerStats s !! k = Some st ->
  exists st', playerStats (state_of (handle ev s)) !! k = Some st' /\
    seriesId st' = seriesId st /\
    sideId (statsRed st') = sideId (statsRed st) /\
    sideName (statsRed st') = sideName (statsRed st) /\
    sideId (statsYellow st') = sideId (statsYellow st) /\
    sideName (statsYellow st') = sideName (statsYellow st) /\
    wins (statsRed st) <= wins (statsRed st') /\
    wins (statsYellow st) <= wins (statsYellow st') /\
    gamesPlayed st <= gamesPlayed st'.
Proof.
  intros Hk.
  destruct (handle_stats ev s k) as [H|[(c & st0 & H0 & H1)|(Hnone & _)]].
  - exists st. rewrite H. split; [exact Hk|]. repeat (split; [reflexivity|]). lia.
  - assert (st0 = st) by congruence. subst st0.
    exists (recordWin c st). split; [exact H1|]. destruct c; simpl; repeat split; lia.
  - congruence.
Qed.

Lemma stats_count_wins_only_witness :
  seriesId (Stats "ABC123" (Side (Some "a") (Some "Player_a") 1)
                  (Side (Some "b") (Some "Player_b") 0) 1) = "ABC123"%string /\
  0 <= 1 /\ 0 <= 0 /\ 1 = 1 + 0.
Proof.
  apply (stats_count_wins_only stateRedWins "ABC123"
           (Stats "ABC123" (Side (Some "a") (Some "Player_a") 1)
                  (Side (Some "b") (Some "Player_b") 0) 1)).
  - apply reachable_run, reachable_init.
  - vm_compute. reflexivity.
Defined.

Lemma stats_never_dropped_witness :
  exists st',
    playerStats (state_of (handle (MakeMove "a" "ABC123" (Whole 2) Red 7) stateRedToWin)) !! "ABC123"
      = Some st' /\
    seriesId st' = "ABC123"%string /\
    sideId (statsRed st') = Some "a"%string /\
    sideName (statsRed st') = Some "Player_a"%string /\
    sideId (statsYellow st') = Some "b"%string /\
    sideName (statsYellow st') = Some "Player_b"%string /\
    0 <= wins (statsRed st') /\ 0 <= wins (statsYellow st') /\ 0 <= gamesPlayed st'.
Proof.
  apply (stats_never_dropped (MakeMove "a" "ABC123" (Whole 2) Red 7) stateRedToWin "ABC123"
           (newStats "ABC123" (Some "a") (Some "b") (Some "Player_a") (Some "Player_b"))).
  vm_compute. reflexivity.
Defined.

(** ** Display names *)

Lemma substring_length_le (m : nat) (s : string) :
  (String.length (substring 0 m s) <= m)%nat.
Proof.
  revert s. induction m as [|m IH]; intros [|a s]; simpl; try lia.
  specialize (IH s). lia.
Qed.

Lemma substring_nonempty (m : nat) (s : string) :
  s <> EmptyString -> substring 0 (S m) s <> EmptyString.
Proof. destruct s as [|a s]; [congruence|]. simpl. discriminate. Qed.

Lemma append_length (s1 s2 : string) :
  String.length (String.append s1 s2) = (String.length s1 + String.length s2)%nat.
Proof. induction s1 as [|a s1 IH]; simpl; [reflexivity|]. rewrite IH. reflexivity. Qed.

Lemma defaultName_length (sock : string) :
  (7 <= String.length (defaultName sock) <= 11)%nat.
Proof.
  unfold defaultName. rewrite append_length.
  pose proof (substring_length_le 4 sock).
  change (String.length "Player_") with 7%nat. lia.
Qed.

(** The name [setPlayerName] stores. *)
Lemma setPlayerName_stored (sock name : string) (s : server) :
  exists n, playerNames (fst (setPlayerName sock name s)) !! sock = Some n /\
    snd (setPlayerName sock name s) = [Emit sock (nameSet true n)] /\
    (1 <= String.length n <= 15)%nat.
Proof.
  unfold setPlayerName. cbn [fst snd playerNames set_playerNames].
  eexists. split; [apply lookup_insert_eq|]. split; [reflexivity|].
  case_bool_decide as Ht.
  - pose proof (substring_length_le 15 (trim name)).
    pose proof (substring_nonempty 14 (trim name) Ht) as Hne.
    destruct (substring 0 15 (trim name)); [congruence|]. simpl in *.
    lia.
  - pose proof (defaultName_length sock). lia.
Qed.

Lemma handle_names (ev : event) (s : server) (k n : string) :
  playerNames (state_of (handle ev s)) !! k = Some n ->
  playerNames s !! k = Some n \/ (1 <= String.length n <= 15)%nat.
Proof.
  destruct ev as [sock name|sock newId now|sock gid|sock gid col c now|sock gid now
                 |sock gid newId now|sock gid|sock gid|sock|gid|now|now|sock];
    cbn [handle]; rewrite ?state_of_returns; cbn [state_of]; intros Hk;
    try (left; exact Hk).
  - destruct (decide (k = sock)) as [->|Hne].
    + destruct (setPlayerName_stored sock name s) as (n' & Hn' & _ & Hlen).
      right. assert (n' = n) by congruence. subst n'. exact Hlen.
    + left. unfold setPlayerName in Hk. cbn [fst playerNames set_playerNames] in Hk.
      rewrite lookup_insert_ne in Hk by congruence. exact Hk.
  - left. unfold joinGame in Hk.
    destruct (games s !! gid) as [g|]; [|destruct (inheritedName gid); exact Hk].
    destruct (yellow (players g)); [exact Hk|]. cbv zeta in Hk. cbn [fst] in Hk.
    unfold initializePlayerStats in Hk.
    destruct (playerStats _ !! _) in Hk; exact Hk.
  - left. destruct (makeMove_entry gid c s) as [Hnone|[(g & Hg & Hcase)|(g & Hel)]].
    + destruct (makeMove_not_found sock gid col c now s Hnone) as [text Ht].
      rewrite Ht in Hk. exact Hk.
    + destruct Hcase as [Hw|[[Hw Hc]|(Hw & Hc & Hseat)]].
      * rewrite (makeMove_ended sock gid col c now s g Hg Hw) in Hk. exact Hk.
      * rewrite (makeMove_wrong_turn sock gid col c now s g Hg Hw Hc) in Hk. exact Hk.
      * rewrite (makeMove_seat_empty sock gid col c now s g Hg Hw Hc Hseat) in Hk. exact Hk.
    + rewrite (makeMove_eligible sock gid col c now s g Hel) in Hk.
      destruct (outOfRange col) as [[|]|]; [exact Hk| |exact Hk]. cbv zeta in Hk.
      destruct (dropRowAt g (slotOf col) =? -1); [exact Hk|]. cbn [fst] in Hk.
      destruct (checkWinAt _ _ _ _ _); [|destruct (isBoardFull _); exact Hk].
      unfold updatePlayerStats in Hk. destruct (playerStats s !! _) in Hk; exact Hk.
  - left. unfold requestRematch in Hk.
    destruct (games s !! gid) as [[b cp [[r|] rn [y|] yn] w wc st ca lm mv og gn ex]|];
      try exact Hk.
    destruct (inheritedName gid); exact Hk.
  - left. unfold acceptRematch in Hk.
    destruct (pendingRematches s !! gid) as [pending|]; [|exact Hk].
    destruct (bool_decide (opponent pending <> sock)); [exact Hk|].
    destruct (games s !! gid) as [g|]; [|exact Hk].
    destruct (playerStats s !! originalGameId g) as [st|]; [|exact Hk].
    cbv zeta in Hk. destruct (games _ !! newId) in Hk; exact Hk.
  - left. unfold declineRematch in Hk.
    destruct (pendingRematches s !! gid); [exact Hk|destruct (inheritedName gid); exact Hk].
  - left. unfold leaveGame in Hk.
    destruct (games s !! gid); [exact Hk|destruct (inheritedName gid); exact Hk].
  - left. cbn [disconnect fst playerNames] in Hk.
    apply lookup_delete_Some in Hk as [_ Hk]. exact Hk.
  - left. unfold removeGameTimer in Hk. destruct (games s !! gid); exact Hk.
Qed.

(** X15: in every reachable state every stored display name has 1 to 15
    characters: [setPlayerName] stores the trimmed name cut to 15
    characters, or the default made from the socket id when nothing is left
    after trimming. *)
Theorem display_names_bounded (s : server) (k n : string) :
  reachable s -> playerNames s !! k = Some n ->
  (1 <= String.length n <= 15)%nat.
Proof.
  intros Hs. induction Hs as [|ev s Hs IH]; intros Hk.
  - simpl in Hk. rewrite lookup_empty in Hk. discriminate Hk.
  - apply handle_names in Hk as [Hk|Hlen]; auto.
Qed.

Lemma display_names_bounded_witness :
  playerNames stateNamed !! "a" = Some "Bartholomew the"%string /\
  (1 <= String.length "Bartholomew the" <= 15)%nat.
Proof.
  split; [vm_compute; reflexivity|].
  apply (display_names_bounded stateNamed "a" "Bartholomew the").
  - apply reachable_run, reachable_init.
  - vm_compute. reflexivity.
Defined.

(** ** Joining, leaving and rematches *)

(** X16: [joinGame] refuses, with the single error message to the sender,
    exactly when no session is stored under the id and the id is not the
    name of an inherited property, or when the session's yellow seat is
    taken, and then returns the state it was given.  When no session is
    stored under the id and the id is the name of an inherited property
    (["constructor"], ["__proto__"], ...), the handler ends in an uncaught
    exception, with no message sent and the state as it was. *)
Theorem joinGame_refused_unchanged (sock gid : string) (s : server) :
  (refused sock (joinGame sock gid s) <->
   (games s !! gid = None /\ inheritedName gid = false) \/
   exists g, games s !! gid = Some g /\ is_Some (yellow (players g))) /\
  (refused sock (joinGame sock gid s) -> fst (joinGame sock gid s) = s) /\
  (games s !! gid = None -> inheritedName gid = true ->
     handle (JoinGame sock gid) s = Throws s []) /\
  handle (JoinGame sock "constructor") init = Throws init [].
Proof.
  split; [|split; [|split]].
  - unfold joinGame. destruct (games s !! gid) as [g|] eqn:Hg.
    + destruct (yellow (players g)) as [y|] eqn:Hy.
      * split; [|intros _; eexists; reflexivity].
        intros _. right. exists g. rewrite Hy. eauto.
      * cbv zeta. split.
        -- intros [text Ht]. simpl in Ht. discriminate Ht.
        -- intros [[Hnone _]|(g' & Hg' & [y Hy'])]; [discriminate Hnone|].
           assert (g' = g) by congruence. subst g'. congruence.
    + destruct (inheritedName gid).
      * split.
        -- intros [text Ht]. simpl in Ht. discriminate Ht.
        -- intros [[_ Hn]|(g' & Hg' & _)]; discriminate.
      * split; [auto|]. intros _. eexists. reflexivity.
  - unfold joinGame. destruct (games s !! gid) as [g|] eqn:Hg.
    + destruct (yellow (players g)) as [y|] eqn:Hy; [reflexivity|].
      cbv zeta. intros [text Ht]. simpl in Ht. discriminate Ht.
    + destruct (inheritedName gid); reflexivity.
  - intros Hnone Hin. cbn [handle]. unfold joinGame. rewrite Hnone, Hin. reflexivity.
  - reflexivity.
Qed.

(** X17: [requestRematch] refuses, with the single error message to the
    sender, exactly when no session is stored under the id and the id is
    not the name of an inherited property, or when one of the session's
    seats is empty, and then returns the state it was given.  When no
    session is stored under the id and the id is the name of an inherited
    property, the handler ends in an uncaught exception, with no message
    sent and the state as it was.  In every other case the entry it stores
    names the sender as requester. *)
Theorem requestRematch_refused_unchanged (sock gid : string) (now : Z) (s : server) :
  (refused sock (requestRematch sock gid now s) <->
   (games s !! gid = None /\ inheritedName gid = false) \/
   exists g, games s !! gid = Some g /\
     (red (players g) = None \/ yellow (players g) = None)) /\
  (refused sock (requestRematch sock gid now s) ->
     fst (requestRematch sock gid now s) = s) /\
  (games s !! gid = None -> inheritedName gid = true ->
     handle (RequestRematch sock gid now) s = Throws s []) /\
  (~ refused sock (requestRematch sock gid now s) ->
   ~ (games s !! gid = None /\ inheritedName gid = true) ->
     exists pending,
       pendingRematches (fst (requestRematch sock gid now s)) !! gid = Some pending /\
       gameId pending = gid /\ requester pending = sock /\ timestamp pending = now) /\
  handle (RequestRematch sock "constructor" now) init = Throws init [].
Proof.
  assert (Hthrow : games s !! gid = None -> inheritedName gid = true ->
            handle (RequestRematch sock gid now) s = Throws s []).
  { intros Hnone Hin. cbn [handle]. unfold requestRematch. rewrite Hnone, Hin. reflexivity. }
  unfold requestRematch.
  destruct (games s !! gid) as [[b cp [[r|] rn [y|] yn] w wc st ca lm mv og gn ex]|] eqn:Hg;
    cbn [fst snd].
  - split; [split|split; [|split; [|split]]].
    + intros [text Ht]. simpl in Ht. discriminate Ht.
    + intros [[Hnone _]|(g' & Hg' & Hseat)]; [discriminate Hnone|].
      injection Hg' as <-. simpl in Hseat. destruct Hseat; discriminate.
    + intros [text Ht]. simpl in Ht. discriminate Ht.
    + exact Hthrow.
    + intros _ _. eexists. cbn [pendingRematches set_pendingRematches].
      split; [apply lookup_insert_eq|]. simpl. auto.
    + reflexivity.
  - split; [split|split; [|split; [|split]]]; try reflexivity.
    + intros _. right. eexists. split; [reflexivity|]. simpl. auto.
    + intros _. eexists. reflexivity.
    + exact Hthrow.
    + intros Hn. exfalso. apply Hn. eexists. reflexivity.
  - split; [split|split; [|split; [|split]]]; try reflexivity.
    + intros _. right. eexists. split; [reflexivity|]. simpl. auto.
    + intros _. eexists. reflexivity.
    + exact Hthrow.
    + intros Hn. exfalso. apply Hn. eexists. reflexivity.
  - split; [split|split; [|split; [|split]]]; try reflexivity.
    + intros _. right. eexists. split; [reflexivity|]. simpl. auto.
    + intros _. eexists. reflexivity.
    + exact Hthrow.
    + intros Hn. exfalso. apply Hn. eexists. reflexivity.
  - destruct (inheritedName gid) eqn:Hin.
    + split; [split|split; [|split; [|split]]]; try reflexivity.
      * intros [text Ht]. simpl in Ht. discriminate Ht.
      * intros [[_ Hn]|(g' & Hg' & _)]; discriminate.
      * exact Hthrow.
      * intros _ Hn. exfalso. apply Hn. split; reflexivity.
    + split; [split|split; [|split; [|split]]]; try reflexivity.
      * intros _. left. split; reflexivity.
      * intros _. eexists. reflexivity.
      * exact Hthrow.
      * intros Hn. exfalso. apply Hn. eexists. reflexivity.
Qed.

(** X18: [acceptRematch] changes nothing and answers with one error
    message when there is no pending rematch for the session, when the
    sender is not the recorded opponent, when the session is gone, or when
    its series has no stats. *)
Theorem acceptRematch_refused_unchanged (sock gid newId : string) (now : Z) (s : server) :
  (pendingRematches s !! gid = None \/
   (exists pending, pendingRematches s !! gid = Some pending /\ opponent pending <> sock) \/
   games s !! gid = None \/
   (exists g, games s !! gid = Some g /\ playerStats s !! originalGameId g = None)) ->
  exists text,
    acceptRematch sock gid newId now s = Returns s [Emit sock (errorMsg text)].
Proof.
  intros Hcause. unfold acceptRematch.
  destruct (pendingRematches s !! gid) as [pending|] eqn:Hp; [|eexists; reflexivity].
  case_bool_decide as Hopp; [eexists; reflexivity|].
  destruct (games s !! gid) as [g|] eqn:Hg; [|eexists; reflexivity].
  destruct (playerStats s !! originalGameId g) as [st|] eqn:Hst; [|eexists; reflexivity].
  exfalso. destruct Hcause as [H|[(pr & Hpr & Hne)|[H|(g' & Hg' & Hn)]]].
  - discriminate H.
  - injection Hpr as <-. contradiction.
  - discriminate H.
  - injection Hg' as <-. congruence.
Qed.

(** X19: [declineRematch] asks nothing of its sender: after it, from any
    connection, the session has no pending rematch, the sessions and stats
    are as before, and an [acceptRematch] for the session is refused as
    invalid, whoever sends it. *)
Theorem decline_then_accept_refused (sock1 sock2 gid newId : string) (now : Z)
    (s : server) :
  let s1 := fst (declineRematch sock1 gid s) in
  pendingRematches s1 !! gid = None /\
  games s1 = games s /\ playerStats s1 = playerStats s /\
  acceptRematch sock2 gid newId now s1
    = Returns s1 [Emit sock2 (errorMsg "Invalid rematch acceptance.")].
Proof.
  cbv zeta.
  assert (Hgone : pendingRematches (fst (declineRematch sock1 gid s)) !! gid = None).
  { unfold declineRematch. destruct (pendingRematches s !! gid) eqn:Hp.
    - cbn [fst pendingRematches set_pendingRematches]. apply lookup_delete_eq.
    - destruct (inheritedName gid); exact Hp. }
  split; [exact Hgone|]. split; [apply declineRematch_games|].
  split; [apply declineRematch_stats|].
  unfold acceptRematch. rewrite Hgone. reflexivity.
Qed.

Lemma acceptRematch_accepted (sock gid newId : string) (now : Z) (s : server)
    (pending : rematch) (g : game) (st : stats) :
  pendingRematches s !! gid = Some pending -> opponent pending = sock ->
  games s !! gid = Some g -> playerStats s !! originalGameId g = Some st ->
  newId <> gid ->
  exists s' out fresh,
    acceptRematch sock gid newId now s = Returns s' out /\
    games s' !! newId = Some fresh /\
    fresh = Game emptyBoard Red (players g) None [] Playing now None 0
                 (originalGameId g) (gamesPlayed st + 1) ∅ /\
    games s' !! gid = None /\ pendingRematches s' !! gid = None.
Proof.
  intros Hp Hopp Hg Hst Hne. unfold acceptRematch. rewrite Hp.
  rewrite bool_decide_eq_false_2 by (intros Hn; apply Hn; exact Hopp).
  rewrite Hg, Hst. cbv zeta. simpl games.
  rewrite lookup_delete_ne, lookup_insert_eq by congruence.
  do 3 eexists. split; [reflexivity|]. simpl.
  rewrite lookup_delete_ne, lookup_insert_eq by congruence.
  rewrite !lookup_delete_eq.
  split; [reflexivity|]. split; [|split; reflexivity].
  destruct (players g); reflexivity.
Qed.

(** X20: in a reachable state, for a session whose two seats are held by
    two different connections, a [requestRematch] from the red seat followed
    by an [acceptRematch] from the yellow seat, with a drawn id other than
    the session's, replaces the session by a new one with the same seats
    and series id, empty board, red to play, status [Playing]; the same
    [acceptRematch] sent by the requester itself is refused. *)
Theorem rematch_round (gid newId r y : string) (t1 t2 : Z) (s : server) (g : game) :
  reachable s -> games s !! gid = Some g ->
  red (players g) = Some r -> yellow (players g) = Some y -> r <> y -> newId <> gid ->
  let s1 := fst (requestRematch r gid t1 s) in
  (exists st s2 out,
     playerStats s !! originalGameId g = Some st /\
     acceptRematch y gid newId t2 s1 = Returns s2 out /\
     games s2 !! newId
       = Some (Game emptyBoard Red (players g) None [] Playing t2 None 0
                    (originalGameId g) (gamesPlayed st + 1) ∅) /\
     games s2 !! gid = None /\ pendingRematches s2 !! gid = None) /\
  acceptRematch r gid newId t2 s1
    = Returns s1 [Emit r (errorMsg "Invalid rematch acceptance.")].
Proof.
  intros Hs Hg Hr Hy Hry Hne. cbv zeta.
  destruct (reachable_ok s Hs gid g Hg) as (_ & _ & _ & Hstats).
  destruct (Hstats ltac:(rewrite Hy; eauto)) as [st Hst].
  assert (Hreq : requestRematch r gid t1 s
                 = (set_pendingRematches
                      (<[gid := Rematch gid r y t1]> (pendingRematches s)) s,
                    [Emit y (rematchRequested (nameOr s r "Opponent") gid);
                     Emit r (rematchRequestSent (nameOr s y "Opponent"))])).
  { unfold requestRematch. rewrite Hg.
    destruct g as [b cp [r0 rn y0 yn] w wc stt ca lm mv og gn ex]. simpl in Hr, Hy.
    subst r0 y0. rewrite bool_decide_eq_true_2 by reflexivity. reflexivity. }
  rewrite Hreq. cbn [fst]. split.
  - destruct (acceptRematch_accepted y gid newId t2
                (set_pendingRematches (<[gid := Rematch gid r y t1]> (pendingRematches s)) s)
                (Rematch gid r y t1) g st)
      as (s2 & out & fresh & Hacc & Hnew & Hfresh & Hold & Hpend).
    + cbn [pendingRematches set_pendingRematches]. apply lookup_insert_eq.
    + reflexivity.
    + exact Hg.
    + exact Hst.
    + exact Hne.
    + exists st, s2, out. subst fresh. auto.
  - unfold acceptRematch. cbn [pendingRematches set_pendingRematches].
    rewrite lookup_insert_eq. cbn [opponent].
    rewrite bool_decide_eq_true_2 by congruence. reflexivity.
Qed.

(** X21: [leaveGame] for an existing session, from any connection, seated
    or not, deletes the session's pending rematch and sets the removal
    timer; when that timer fires the session is gone and the other sessions
    are as they were before the event. *)
Theorem leave_then_timer_removes (sock gid : string) (s : server) (g : game) :
  games s !! gid = Some g ->
  let s1 := fst (leaveGame sock gid s) in
  In (SetTimeout (removeGame gid) 5000) (snd (leaveGame sock gid s)) /\
  games s1 !! gid = Some (vacate sock g) /\
  pendingRematches s1 !! gid = None /\
  games (removeGameTimer gid s1) !! gid = None /\
  (forall k, k <> gid -> games (removeGameTimer gid s1) !! k = games s !! k).
Proof.
  intros Hg. cbv zeta. unfold leaveGame. rewrite Hg. cbn [fst snd].
  split; [apply in_or_app; right; simpl; auto|].
  cbn [games set_games set_pendingRematches pendingRematches].
  split; [apply lookup_insert_eq|]. split; [apply lookup_delete_eq|].
  unfold removeGameTimer. cbn [games set_games set_pendingRematches].
  rewrite lookup_insert_eq. cbn [games set_games]. split.
  - apply lookup_delete_eq.
  - intros k Hk. rewrite lookup_delete_ne, lookup_insert_ne by congruence. reflexivity.
Qed.

(** X22: when the connection holds a seat of session [gid] and of no other
    session, [disconnect] and [leaveGame] for [gid] leave the same sessions,
    the same pending rematches and the same stats; [disconnect] also forgets
    the connection's display name. *)
Theorem disconnect_as_leaveGame (sock gid : string) (s : server) (g : game) :
  games s !! gid = Some g -> seated sock g = true ->
  (forall k g', games s !! k = Some g' -> seated sock g' = true -> k = gid) ->
  games (fst (disconnect sock s)) = games (fst (leaveGame sock gid s)) /\
  pendingRematches (fst (disconnect sock s))
    = pendingRematches (fst (leaveGame sock gid s)) /\
  playerStats (fst (disconnect sock s)) = playerStats (fst (leaveGame sock gid s)) /\
  playerNames (fst (disconnect sock s)) = delete sock (playerNames s).
Proof.
  intros Hg Hseat Honly. unfold leaveGame. rewrite Hg.
  cbn [disconnect fst games pendingRematches playerStats playerNames
       set_games set_pendingRematches].
  split; [|split; [|split; reflexivity]].
  - apply map_eq. intros k. rewrite lookup_fmap.
    destruct (decide (k = gid)) as [->|Hne].
    + rewrite Hg, lookup_insert_eq. reflexivity.
    + rewrite lookup_insert_ne by congruence.
      destruct (games s !! k) as [g'|] eqn:Hk; [|reflexivity]. simpl. f_equal.
      apply vacate_not_seated. destruct (seated sock g') eqn:E; [|reflexivity].
      exfalso. apply Hne. apply (Honly k g' Hk E).
  - apply map_eq. intros k. rewrite map_lookup_filter.
    destruct (decide (k = gid)) as [->|Hne].
    + rewrite lookup_delete_eq.
      destruct (pendingRematches s !! gid) as [pr|]; [|reflexivity]. simpl.
      rewrite option_guard_False; [reflexivity|].
      cbn [fst]. rewrite map_lookup_filter, Hg. simpl.
      rewrite option_guard_True by exact Hseat. discriminate.
    + rewrite lookup_delete_ne by congruence.
      destruct (pendingRematches s !! k) as [pr|]; [|reflexivity]. simpl.
      rewrite option_guard_True; [reflexivity|].
      cbn [fst]. rewrite map_lookup_filter.
      destruct (games s !! k) as [g'|] eqn:Hk; [|reflexivity]. simpl.
      rewrite option_guard_False; [reflexivity|].
      cbn [snd]. intros E. apply Hne. apply (Honly k g' Hk E).
Qed.

(** X23: after [disconnect] the connection has no display name and holds
    the red seat of no session; it still holds a yellow seat only where it
    held both seats; sessions in which it held no seat are unchanged, and
    every other session is [Abandoned] with a winner. *)
Theorem disconnect_releases (sock : string) (s : server) (k : string) (g' : game) :
  games (fst (disconnect sock s)) !! k = Some g' ->
  playerNames (fst (disconnect sock s)) !! sock = None /\
  red (players g') <> Some sock /\
  exists g, games s !! k = Some g /\ g' = vacate sock g /\
    (yellow (players g') = Some sock ->
       red (players g) = Some sock /\ yellow (players g) = Some sock) /\
    (seated sock g = false -> g' = g) /\
    (seated sock g = true -> status g' = Abandoned /\ is_Some (winner g')).
Proof.
  cbn [disconnect fst games playerNames]. rewrite lookup_fmap. intros Hk.
  destruct (games s !! k) as [g|] eqn:Hg; [|discriminate Hk].
  simpl in Hk. injection Hk as <-.
  split; [apply lookup_delete_eq|]. split.
  - unfold vacate. case_bool_decide as Hr; [simpl; discriminate|].
    case_bool_decide as Hy; [simpl; exact Hr|exact Hr].
  - exists g. split; [reflexivity|]. split; [reflexivity|]. split; [|split].
    + unfold vacate. case_bool_decide as Hr; [simpl; auto|].
      case_bool_decide as Hy; [simpl; discriminate|]. intros H. contradiction.
    + apply vacate_not_seated.
    + intros Hs. destruct (vacate_seated sock g Hs) as (H1 & H2 & _).
      split; [exact H1|]. rewrite H2. eauto.
Qed.

(** X24: the two sweeps look at age only.  After [sweepGames] at clock
    value [now] a session is there exactly when it was there and was created
    at most an hour before, whatever its status; after [sweepRematches] a
    pending rematch is there exactly when it was there and is at most 60000
    clock units old.  [sweepGames] leaves the pending rematch of a session it
    removes, and the recorded opponent's [acceptRematch] is then refused
    with the session not found. *)
Theorem sweeps_by_age (now : Z) (s : server) (k : string) :
  (forall g, games (sweepGames now s) !! k = Some g <->
             games s !! k = Some g /\ now - createdAt g <= 3600000) /\
  (forall pending, pendingRematches (sweepRematches now s) !! k = Some pending <->
             pendingRematches s !! k = Some pending /\ now - timestamp pending <= 60000) /\
  pendingRematches (sweepGames now s) = pendingRematches s /\
  games (sweepRematches now s) = games s /\
  (forall sock newId t pending g,
     pendingRematches s !! k = Some pending -> opponent pending = sock ->
     games s !! k = Some g -> now - createdAt g > 3600000 ->
     acceptRematch sock k newId t (sweepGames now s)
       = Returns (sweepGames now s) [Emit sock (errorMsg "Game not found.")]).
Proof.
  assert (Hgames : forall g, games (sweepGames now s) !! k = Some g <->
             games s !! k = Some g /\ now - createdAt g <= 3600000).
  { intros g. cbn [sweepGames games set_games].
    rewrite map_lookup_filter_Some. cbn [snd].
    split; intros [H1 H2]; (split; [exact H1|lia]). }
  split; [exact Hgames|]. split; [|split; [reflexivity|split; [reflexivity|]]].
  - intros pending. cbn [sweepRematches pendingRematches set_pendingRematches].
    rewrite map_lookup_filter_Some. cbn [snd].
    split; intros [H1 H2]; (split; [exact H1|lia]).
  - intros sock newId t pending g Hp Hopp Hg Hold. unfold acceptRematch.
    change (pendingRematches (sweepGames now s)) with (pendingRematches s). rewrite Hp.
    rewrite bool_decide_eq_false_2 by (intros Hn; apply Hn; exact Hopp).
    assert (Hnone : games (sweepGames now s) !! k = None).
    { apply eq_None_not_Some. intros [g' Hk].
      apply Hgames in Hk as [Hk Hage]. assert (g' = g) by congruence. subst g'. lia. }
    rewrite Hnone. reflexivity.
Qed.

(** X25: [createGame] followed by [joinGame] under the drawn id gives a
    session in [Playing] status with the creator in the red seat and the
    joiner in the yellow seat, empty board, red to play, game number 1 and
    the id as series id; the series stats are the ones already stored under
    that id if there are any, and zeroed ones for the two players
    otherwise. *)
Theorem create_then_join (a b gid : string) (now : Z) (s : server) :
  let s1 := fst (createGame a gid now s) in
  let s2 := fst (joinGame b gid s1) in
  exists g, games s2 !! gid = Some g /\
    status g = Playing /\ red (players g) = Some a /\ yellow (players g) = Some b /\
    board g = emptyBoard /\ moves g = 0 /\ currentPlayer g = Red /\ winner g = None /\
    originalGameId g = gid /\ gameNumber g = 1 /\
    playerStats s2 !! gid
      = Some (match playerStats s !! gid with
              | Some st => st
              | None => newStats gid (Some a) (Some b) (redName (players g))
                          (yellowName (players g))
              end).
Proof.
  cbv zeta. unfold joinGame. cbn [createGame fst games set_games].
  rewrite lookup_insert_eq. cbn [players yellow]. cbv zeta. cbn [fst].
  rewrite initializePlayerStats_games. cbn [games set_games].
  rewrite lookup_insert_eq. eexists. split; [reflexivity|].
  cbn [status set_status red yellow players set_players set_yellow set_yellowName board
       moves currentPlayer winner originalGameId gameNumber redName yellowName].
  repeat (split; [reflexivity|]).
  unfold initializePlayerStats. cbn [playerStats set_games originalGameId set_status
    set_players].
  destruct (playerStats s !! gid) as [st|] eqn:Hst.
  - cbn [playerStats set_games]. exact Hst.
  - cbn [playerStats set_playerStats set_games]. rewrite lookup_insert_eq. reflexivity.
Qed.

(** ** What a move touches *)

(** What [makeMove] returns as state: the state it was given, or that
    state with the session replaced and, after a win, the stats updated. *)
Lemma makeMove_state (sock gid : string) (col : column) (c : color) (now : Z) (s : server) :
  fst (makeMove sock gid col c now s) = s \/
  exists g g',
    games s !! gid = Some g /\
    (fst (makeMove sock gid col c now s) = set_games (<[gid := g']> (games s)) s \/
     fst (makeMove sock gid col c now s)
       = set_games (<[gid := g']> (games s))
           (updatePlayerStats (originalGameId g) (Won c) s)).
Proof.
  destruct (makeMove_entry gid c s) as [Hnone|[(g & Hg & Hcase)|(g & Hel)]].
  - destruct (makeMove_not_found sock gid col c now s Hnone) as [text Ht]. rewrite Ht.
    left. reflexivity.
  - left. destruct Hcase as [Hw|[[Hw Hc]|(Hw & Hc & Hseat)]].
    + rewrite (makeMove_ended sock gid col c now s g Hg Hw). reflexivity.
    + rewrite (makeMove_wrong_turn sock gid col c now s g Hg Hw Hc). reflexivity.
    + rewrite (makeMove_seat_empty sock gid col c now s g Hg Hw Hc Hseat). reflexivity.
  - rewrite (makeMove_eligible sock gid col c now s g Hel). destruct Hel as (Hg & _).
    destruct (outOfRange col) as [[|]|]; [left; reflexivity| |left; reflexivity]. cbv zeta.
    destruct (dropRowAt g (slotOf col) =? -1); [left; reflexivity|]. cbn [fst].
    right. exists g.
    destruct (checkWinAt _ _ _ _ _); [|destruct (isBoardFull _)]; eauto.
Qed.

(** X26: [makeMove], whatever the column value, never touches the display
    names or the pending rematches, nor any session but the one it names,
    nor the stats of any series but that session's; and it never adds or
    removes a session. *)
Theorem makeMove_frame (sock gid : string) (col : column) (c : color) (now : Z)
    (s : server) :
  let s' := fst (makeMove sock gid col c now s) in
  playerNames s' = playerNames s /\
  pendingRematches s' = pendingRematches s /\
  (forall k, k <> gid -> games s' !! k = games s !! k) /\
  (forall k, (forall g, games s !! gid = Some g -> originalGameId g <> k) ->
     playerStats s' !! k = playerStats s !! k) /\
  (is_Some (games s' !! gid) <-> is_Some (games s !! gid)).
Proof.
  cbv zeta. split; [|split; [|split; [intros k Hk; apply makeMove_other, Hk|]]].
  - destruct (makeMove_state sock gid col c now s) as [->|(g & g' & Hg & [->| ->])];
      try reflexivity.
    unfold updatePlayerStats. destruct (playerStats s !! _); reflexivity.
  - destruct (makeMove_state sock gid col c now s) as [->|(g & g' & Hg & [->| ->])];
      try reflexivity.
    unfold updatePlayerStats. destruct (playerStats s !! _); reflexivity.
  - split.
    + intros k Hk.
      destruct (makeMove_state sock gid col c now s) as [->|(g & g' & Hg & [->| ->])];
        try reflexivity.
      rewrite playerStats_set_games, updatePlayerStats_lookup.
      rewrite bool_decide_eq_false_2; [reflexivity|].
      intros ->. exact (Hk g Hg eq_refl).
    + split; intros [g' Hg'].
      * apply makeMove_session_step in Hg' as (g & Hg & _). eauto.
      * destruct (makeMove_state sock gid col c now s) as [->|(g & g1 & Hg & [->| ->])];
          [eauto| |]; cbn [games set_games]; rewrite lookup_insert_eq; eauto.
Qed.

(** X27: in a reachable state a played move sets one property of the
    board that was not set, adds one to [moves], stamps [lastMoveAt] and
    leaves the seats, the creation time, the series id and the game number
    of the session as they were.  When the key of the column value is a
    column of the grid (as it is for an integer from 0 to 6), the cell at
    the returned row in that column changes from empty to the mover's
    colour and no other cell changes; with any other key no cell changes,
    and the property is set off the grid. *)
Theorem makeMove_changes_one_cell (sock gid : string) (col : column) (c : color) (now : Z)
    (s : server) (g : game) (row : Z) :
  reachable s -> games s !! gid = Some g ->
  played gid row col c (makeMove sock gid col c now s) ->
  exists g', games (fst (makeMove sock gid col c now s)) !! gid = Some g' /\
    match slotOf col with
    | Index i =>
        0 <= i <= 6 /\
        cell_at (board g) row i = Some Empty /\
        cell_at (board g') row i = Some (Disc c) /\
        (forall r' c', (r', c') <> (row, i) ->
           cell_at (board g') r' c' = cell_at (board g) r' c') /\
        offGrid g' = offGrid g
    | Extra k =>
        board g' = board g /\ offGrid g !! (row, k) = None /\
        offGrid g' = <[(row, k) := c]> (offGrid g)
    | Preset => False
    end /\
    moves g' = moves g + 1 /\
    lastMoveAt g' = Some now /\ players g' = players g /\
    createdAt g' = createdAt g /\ originalGameId g' = originalGameId g /\
    gameNumber g' = gameNumber g.
Proof.
  intros Hs Hg Hp.
  destruct (makeMove_played_inv sock gid col c now s row Hp) as (g0 & Hel & Hcol & Hrow & Hr).
  assert (g0 = g) by (destruct Hel as [H0 _]; congruence). subst g0.
  destruct (reachable_ok s Hs gid g Hg) as (Hwf & _).
  assert (Hne : dropRowAt g (slotOf col) <> -1) by lia.
  rewrite (makeMove_played_session sock gid col c now s g Hel Hcol Hne).
  rewrite <- Hrow in *. eexists. split; [reflexivity|].
  destruct (placeDisc_fields row col c now g)
    as (_ & Hpl & _ & _ & _ & Hca & Hog & Hgn & Hmv & Hlm).
  assert (Hsame : forall T (f : game -> T),
            (forall g0 p, f (set_currentPlayer p g0) = f g0) ->
            (forall g0, f (finishDraw g0) = f g0) ->
            (forall g0, f (finishWon row col c g0) = f g0) ->
            f (afterMove row col c now g) = f (placeDisc row col c now g)).
  { intros T f H1 H2 H3. unfold afterMove. cbv zeta.
    destruct (checkWinAt _ _ _ _ _); [apply H3|].
    destruct (isBoardFull _); [apply H2|apply H1]. }
  rewrite (Hsame _ board), (Hsame _ offGrid), (Hsame _ moves), (Hsame _ lastMoveAt),
    (Hsame _ players), (Hsame _ createdAt), (Hsame _ originalGameId), (Hsame _ gameNumber)
    by reflexivity.
  split; [|auto 10].
  pose proof (fun i => slot_index_range col i Hcol) as Hidx.
  unfold placeDisc. cbv zeta. rewrite Hrow in *.
  destruct (slotOf col) as [i|k|]; cbn [setAt dropRowAt] in *.
  - pose proof (Hidx i eq_refl) as Hi.
    destruct (dropRow_empty (board g) i Hwf Hi Hne) as [_ Hcell].
    split; [exact Hi|]. split; [exact Hcell|].
    cbn [board offGrid set_board set_moves set_lastMoveAt].
    split; [apply cell_at_set_cell_eq; [exact Hwf|lia|lia]|].
    split; [intros r' c' Hneq; apply cell_at_set_cell_ne; [lia|lia|exact Hneq]|].
    reflexivity.
  - cbn [board offGrid set_offGrid set_moves set_lastMoveAt].
    split; [reflexivity|]. split; [|reflexivity].
    apply dropScanOff_lands; [exact Hne|apply drop_rows_range].
  - contradiction.
Qed.

(** ** The further theorems at concrete inputs *)

Lemma stateJoined_only_session (k : string) (g' : game) :
  games stateJoined !! k = Some g' -> k = "ABC123"%string.
Proof.
  intros Hk. destruct (decide (k = "ABC123"%string)) as [Heq|Hne]; [exact Heq|].
  exfalso.
  assert (Hmap : games stateJoined = {[ "ABC123"%string := sessionAt stateJoined "ABC123" ]})
    by (vm_compute; reflexivity).
  rewrite Hmap, lookup_singleton_ne in Hk by congruence. discriminate Hk.
Defined.

Lemma acceptRematch_refused_unchanged_witness :
  exists text,
    acceptRematch "a" "ABC123" "XYZ789" 9 stateRematchAsked
      = Returns stateRematchAsked [Emit "a" (errorMsg text)].
Proof.
  apply (acceptRematch_refused_unchanged "a" "ABC123" "XYZ789" 9 stateRematchAsked).
  right. left. exists (Rematch "ABC123" "a" "b" 8).
  split; [vm_compute; reflexivity|discriminate].
Defined.

Lemma rematch_round_witness :
  (exists st s2 out,
     playerStats stateRedWins !! originalGameId (sessionAt stateRedWins "ABC123") = Some st /\
     acceptRematch "b" "ABC123" "XYZ789" 9 (fst (requestRematch "a" "ABC123" 8 stateRedWins))
       = Returns s2 out /\
     games s2 !! "XYZ789"
       = Some (Game emptyBoard Red (players (sessionAt stateRedWins "ABC123")) None []
                    Playing 9 None 0 (originalGameId (sessionAt stateRedWins "ABC123"))
                    (gamesPlayed st + 1) ∅) /\
     games s2 !! "ABC123" = None /\ pendingRematches s2 !! "ABC123" = None) /\
  acceptRematch "a" "ABC123" "XYZ789" 9 (fst (requestRematch "a" "ABC123" 8 stateRedWins))
    = Returns (fst (requestRematch "a" "ABC123" 8 stateRedWins))
        [Emit "a" (errorMsg "Invalid rematch acceptance.")].
Proof.
  apply (rematch_round "ABC123" "XYZ789" "a" "b" 8 9 stateRedWins
           (sessionAt stateRedWins "ABC123")).
  - apply reachable_run, reachable_init.
  - vm_compute. reflexivity.
  - vm_compute. reflexivity.
  - vm_compute. reflexivity.
  - discriminate.
  - discriminate.
Defined.

Lemma leave_then_timer_removes_witness :
  In (SetTimeout (removeGame "ABC123") 5000) (snd (leaveGame "zz" "ABC123" stateJoined)) /\
  games (fst (leaveGame "zz" "ABC123" stateJoined)) !! "ABC123"
    = Some (vacate "zz" (sessionAt stateJoined "ABC123")) /\
  pendingRematches (fst (leaveGame "zz" "ABC123" stateJoined)) !! "ABC123" = None /\
  games (removeGameTimer "ABC123" (fst (leaveGame "zz" "ABC123" stateJoined))) !! "ABC123"
    = None /\
  (forall k, k <> "ABC123"%string ->
     games (removeGameTimer "ABC123" (fst (leaveGame "zz" "ABC123" stateJoined))) !! k
       = games stateJoined !! k).
Proof.
  apply (leave_then_timer_removes "zz" "ABC123" stateJoined (sessionAt stateJoined "ABC123")).
  vm_compute. reflexivity.
Defined.

Lemma disconnect_as_leaveGame_witness :
  games (fst (disconnect "b" stateJoined)) = games (fst (leaveGame "b" "ABC123" stateJoined)) /\
  pendingRematches (fst (disconnect "b" stateJoined))
    = pendingRematches (fst (leaveGame "b" "ABC123" stateJoined)) /\
  playerStats (fst (disconnect "b" stateJoined))
    = playerStats (fst (leaveGame "b" "ABC123" stateJoined)) /\
  playerNames (fst (disconnect "b" stateJoined)) = delete "b" (playerNames stateJoined).
Proof.
  apply (disconnect_as_leaveGame "b" "ABC123" stateJoined (sessionAt stateJoined "ABC123")).
  - vm_compute. reflexivity.
  - vm_compute. reflexivity.
  - intros k g' Hk _. exact (stateJoined_only_session k g' Hk).
Defined.

Lemma disconnect_releases_witness :
  playerNames (fst (disconnect "b" stateJoined)) !! "b" = None /\
  red (players (vacate "b" (sessionAt stateJoined "ABC123"))) <> Some "b"%string /\
  exists g, games stateJoined !! "ABC123" = Some g /\
    vacate "b" (sessionAt stateJoined "ABC123") = vacate "b" g /\
    (yellow (players (vacate "b" (sessionAt stateJoined "ABC123"))) = Some "b"%string ->
       red (players g) = Some "b"%string /\ yellow (players g) = Some "b"%string) /\
    (seated "b" g = false -> vacate "b" (sessionAt stateJoined "ABC123") = g) /\
    (seated "b" g = true ->
       status (vacate "b" (sessionAt stateJoined "ABC123")) = Abandoned /\
       is_Some (winner (vacate "b" (sessionAt stateJoined "ABC123")))).
Proof.
  apply (disconnect_releases "b" stateJoined "ABC123"
           (vacate "b" (sessionAt stateJoined "ABC123"))).
  vm_compute. reflexivity.
Defined.

Lemma makeMove_changes_one_cell_witness :
  exists g',
    games (fst (makeMove "a" "ABC123" (Whole 2) Red 7 stateRedToWin)) !! "ABC123" = Some g' /\
    (0 <= 2 <= 6 /\
     cell_at (board (sessionAt stateRedToWin "ABC123")) 5 2 = Some Empty /\
     cell_at (board g') 5 2 = Some (Disc Red) /\
     (forall r' c', (r', c') <> (5, 2) ->
        cell_at (board g') r' c' = cell_at (board (sessionAt stateRedToWin "ABC123")) r' c') /\
     offGrid g' = offGrid (sessionAt stateRedToWin "ABC123")) /\
    moves g' = moves (sessionAt stateRedToWin "ABC123") + 1 /\
    lastMoveAt g' = Some 7 /\ players g' = players (sessionAt stateRedToWin "ABC123") /\
    createdAt g' = createdAt (sessionAt stateRedToWin "ABC123") /\
    originalGameId g' = originalGameId (sessionAt stateRedToWin "ABC123") /\
    gameNumber g' = gameNumber (sessionAt stateRedToWin "ABC123").
Proof.
  apply (makeMove_changes_one_cell "a" "ABC123" (Whole 2) Red 7 stateRedToWin
           (sessionAt stateRedToWin "ABC123") 5).
  - apply reachable_run, reachable_init.
  - vm_compute. reflexivity.
  - vm_compute. reflexivity.
Defined.

(** ** Column values that are no integers *)

Lemma halfText_inj (m1 m2 : Z) :
  0 <= m1 <= 6 -> 0 <= m2 <= 6 -> halfText m1 = halfText m2 -> m1 = m2.
Proof.
  intros H1 H2.
  assert (E1 : m1 = 0 \/ m1 = 1 \/ m1 = 2 \/ m1 = 3 \/ m1 = 4 \/ m1 = 5 \/ m1 = 6) by lia.
  assert (E2 : m2 = 0 \/ m2 = 1 \/ m2 = 2 \/ m2 = 3 \/ m2 = 4 \/ m2 = 5 \/ m2 = 6) by lia.
  destruct E1 as [->|[->|[->|[->|[->|[->| ->]]]]]];
    destruct E2 as [->|[->|[->|[->|[->|[->| ->]]]]]];
    simpl; intros E; try reflexivity; discriminate E.
Defined.

Lemma half_distinct (n : Z) : distinct_steps (half n).
Proof.
  intros d k1 k2 sl Hd. cbn [half reach].
  destruct ((0 <=? n + d * Z.of_nat k1) && (n + d * Z.of_nat k1 <=? 6)) eqn:E1;
    [|discriminate].
  destruct ((0 <=? n + d * Z.of_nat k2) && (n + d * Z.of_nat k2 <=? 6)) eqn:E2;
    [|intros _ H; discriminate H].
  apply andb_true_iff in E1 as [A1 B1]. apply andb_true_iff in E2 as [A2 B2].
  apply Z.leb_le in A1, B1, A2, B2.
  intros H1 H2. rewrite <- H2 in H1. injection H1 as H1.
  apply halfText_inj in H1; [|lia|lia]. nia.
Defined.

(** X28: for a column value that is no integer number, whose repeated
    steps lead to distinct keys, the loops of [checkWin] and
    [getWinningCells] end within [walk_fuel] iterations, seven and one for
    each property set off the grid: with more fuel both walks of every
    axis count and collect the same cells, and [checkWin] gives the same
    answer. *)
Theorem walk_fuel_enough (n : nat) (row : Z) (v : coerced) (b : grid)
    (off : gmap (Z * string) color) (p : color) :
  distinct_steps v -> (walk_fuel off <= n)%nat ->
  (forall dir, In dir dirs ->
     countAxisWalk n row v b off p dir = countAxisWalk (walk_fuel off) row v b off p dir /\
     collectAxisWalk n row v b off p dir
       = collectAxisWalk (walk_fuel off) row v b off p dir) /\
  existsb (fun dir => 4 <=? countAxisWalk n row v b off p dir) dirs
    = checkWinWalk row v b off p /\
  winningCellsWalk n dirs row v b off p = getWinningCellsWalk row v b off p.
Proof.
  intros Hdist Hn.
  assert (Hdirs : forall dir, In dir dirs ->
     countAxisWalk n row v b off p dir = countAxisWalk (walk_fuel off) row v b off p dir /\
     collectAxisWalk n row v b off p dir
       = collectAxisWalk (walk_fuel off) row v b off p dir).
  { intros [[dx1 dy1] [dx2 dy2]] Hin. unfold countAxisWalk, collectAxisWalk.
    assert (Hsteps : (-1 <= dx1 <= 1 /\ (dx1 <> 0 \/ dy1 <> 0)) /\
                     (-1 <= dx2 <= 1 /\ (dx2 <> 0 \/ dy2 <> 0))).
    { simpl in Hin. destruct Hin as [H|[H|[H|[H|[]]]]]; injection H as <- <- <- <-; lia. }
    destruct Hsteps as [[Hx1 Hne1] [Hx2 Hne2]]. split.
    - rewrite (countWalk_acc b off p v n (row + dx2) dx2 dy2 1),
        (countWalk_acc b off p v (walk_fuel off) (row + dx2) dx2 dy2 1),
        (countWalk_acc b off p v n (row + dx1) dx1 dy1 1 1),
        (countWalk_acc b off p v (walk_fuel off) (row + dx1) dx1 dy1 1 1).
      rewrite (countWalk_fuel b off p v n _ dx1 dy1 1 Hdist Hx1 Hne1 Hn),
        (countWalk_fuel b off p v n _ dx2 dy2 1 Hdist Hx2 Hne2 Hn). reflexivity.
    - rewrite (collectWalk_fuel b off p v n _ dx1 dy1 1 _ Hdist Hx1 Hne1 Hn),
        (collectWalk_fuel b off p v n _ dx2 dy2 1 _ Hdist Hx2 Hne2 Hn). reflexivity. }
  split; [exact Hdirs|]. unfold checkWinWalk, getWinningCellsWalk.
  revert Hdirs. generalize dirs as ds. induction ds as [|dir ds IH]; intros Hds.
  - split; reflexivity.
  - destruct (Hds dir (or_introl eq_refl)) as [Hc Hl].
    destruct (IH (fun d Hd => Hds d (or_intror Hd))) as [IH1 IH2].
    cbn [existsb winningCellsWalk]. rewrite Hc, Hl, IH1, IH2. split; reflexivity.
Qed.

(** A column value that cannot be converted to a primitive (an object
    whose [toString] and [valueOf] are no functions) gets past the four
    tests on the session and makes the comparison of the range test throw:
    in a session that is ready for a move of the claimed colour the handler
    ends in an uncaught exception, with no message sent and the state as it
    was. *)
Theorem makeMove_unconvertible (sock gid : string) (c : color) (now : Z) (s : server)
    (g : game) :
  eligible s gid c g ->
  makeMove sock gid Unconvertible c now s = (s, [Uncaught]) /\
  handle (MakeMove sock gid Unconvertible c now) s = Throws s [].
Proof.
  intros Hel.
  assert (H : makeMove sock gid Unconvertible c now s = (s, [Uncaught]))
    by (rewrite (makeMove_eligible sock gid Unconvertible c now s g Hel); reflexivity).
  split; [exact H|]. cbn [handle]. rewrite H. reflexivity.
Qed.

(** A game won with no disc of the winner on the board.  Red plays
    the columns 0.5, 1.5, 2.5 and 3.5 while yellow plays column 6: each of
    red's moves is played at row 5 and sets a property of the bottom row
    off the grid, and at the fourth [checkWin] walks from 3.5 down to 0.5,
    counts four and ends the game.  Red is the winner, the stats record its
    win, the winning cells are the four fractions, and the 42 cells hold
    yellow's three discs and nothing of red's. *)
Theorem fractions_win :
  reachable stateHalves /\
  games stateHalves !! "ABC123" = Some (sessionAt stateHalves "ABC123") /\
  status (sessionAt stateHalves "ABC123") = Finished /\
  winner (sessionAt stateHalves "ABC123") = Some (Won Red) /\
  winningCells (sessionAt stateHalves "ABC123")
    = [(5, Value "3.5"); (5, Value "2.5"); (5, Value "1.5"); (5, Value "0.5")] /\
  moves (sessionAt stateHalves "ABC123") = 7 /\
  discs (board (sessionAt stateHalves "ABC123")) = 3%nat /\
  discsOf Red (board (sessionAt stateHalves "ABC123")) = 0%nat /\
  size (offGrid (sessionAt stateHalves "ABC123")) = 4%nat /\
  (exists st, playerStats stateHalves !! "ABC123" = Some st /\
     wins (statsRed st) = 1 /\ gamesPlayed st = 1).
Proof.
  split; [apply reachable_run, reachable_init|].
  do 8 (split; [vm_compute; reflexivity|]).
  eexists. split; [vm_compute; reflexivity|]. split; reflexivity.
Qed.

(** X29: a game won with three discs.  Red has discs in columns 1, 2 and 3
    of the bottom row and sends [null] as its column.  The range test takes
    [null] for 0 and lets it through, the scan reads the property ["null"]
    of the rows and finds it unset at row 5, the assignment sets that
    property, and [checkWin] walks from [null + 1]: it counts the placed
    move and the three discs, and red wins with no four discs in a line on
    the board.  The winning cells are columns 0 to 3 of the bottom row, the
    first of which is empty. *)
Theorem null_column_wins :
  reachable stateNull /\
  games stateNull !! "ABC123" = Some (sessionAt stateNull "ABC123") /\
  status (sessionAt stateNull "ABC123") = Finished /\
  winner (sessionAt stateNull "ABC123") = Some (Won Red) /\
  winningCells (sessionAt stateNull "ABC123")
    = [(5, Column 0); (5, Column 1); (5, Column 2); (5, Column 3)] /\
  cell_at (board (sessionAt stateNull "ABC123")) 5 0 = Some Empty /\
  discsOf Red (board (sessionAt stateNull "ABC123")) = 3%nat /\
  offGrid (sessionAt stateNull "ABC123") !! (5, "null"%string) = Some Red /\
  moves (sessionAt stateNull "ABC123") = 7 /\
  (forall row col, ~ four_in_line (board (sessionAt stateNull "ABC123")) row col Red).
Proof.
  split; [apply reachable_run, reachable_init|].
  do 8 (split; [vm_compute; reflexivity|]).
  intros row col (d & k & Hd & Hk & Hwin).
  assert (Hwf : board_wf (board (sessionAt stateNull "ABC123")))
    by (split; [reflexivity|repeat constructor]).
  assert (Hcells : forall r c, holds (board (sessionAt stateNull "ABC123")) r c Red ->
            r = 5 /\ 1 <= c <= 3).
  { intros r c H. unfold holds in H.
    destruct (cell_at_in_grid _ r c _ Hwf H) as [Hr Hc].
    assert (Er : r = 0 \/ r = 1 \/ r = 2 \/ r = 3 \/ r = 4 \/ r = 5) by lia.
    assert (Ec : c = 0 \/ c = 1 \/ c = 2 \/ c = 3 \/ c = 4 \/ c = 5 \/ c = 6) by lia.
    destruct Er as [->|[->|[->|[->|[->| ->]]]]];
      destruct Ec as [->|[->|[->|[->|[->|[->| ->]]]]]];
      vm_compute in H; try discriminate H; lia. }
  pose proof (Hcells _ _ (Hwin 0 ltac:(lia))) as H0.
  pose proof (Hcells _ _ (Hwin 3 ltac:(lia))) as H3.
  unfold axes in Hd. simpl in Hd.
  destruct Hd as [<-|[<-|[<-|[<-|[]]]]]; simpl in H0, H3; lia.
Qed.

(** X30: under the name of an inherited property that is no stored id,
    [joinGame], [requestRematch] and [leaveGame] end in an uncaught
    exception, [makeMove] answers that it is not the sender's turn,
    [acceptRematch] that the acceptance is invalid, and [declineRematch]
    sends to the room [undefined]; none of them changes the state. *)
Theorem inherited_name_events (sock gid newId : string) (col : column) (c : color)
    (now : Z) (s : server) :
  games s !! gid = None -> pendingRematches s !! gid = None -> inheritedName gid = true ->
  handle (JoinGame sock gid) s = Throws s [] /\
  handle (RequestRematch sock gid now) s = Throws s [] /\
  handle (LeaveGame sock gid) s = Throws s [] /\
  handle (MakeMove sock gid col c now) s
    = Returns s [Emit sock (errorMsg "It's not your turn.")] /\
  handle (AcceptRematch sock gid newId now) s
    = Returns s [Emit sock (errorMsg "Invalid rematch acceptance.")] /\
  handle (DeclineRematch sock gid) s
    = Returns s [EmitUndefined (rematchDeclined (nameOr s sock "Opponent"))].
Proof.
  intros Hg Hp Hin. cbn [handle].
  unfold joinGame, requestRematch, leaveGame, makeMove, acceptRematch, declineRematch.
  rewrite Hg, Hp, Hin. repeat split; reflexivity.
Qed.

Lemma walk_fuel_enough_witness :
  (forall dir, In dir dirs ->
     countAxisWalk 20 5 (half 3) emptyBoard (offGrid (sessionAt stateHalves "ABC123")) Red dir
       = countAxisWalk (walk_fuel (offGrid (sessionAt stateHalves "ABC123"))) 5 (half 3)
           emptyBoard (offGrid (sessionAt stateHalves "ABC123")) Red dir /\
     collectAxisWalk 20 5 (half 3) emptyBoard (offGrid (sessionAt stateHalves "ABC123")) Red dir
       = collectAxisWalk (walk_fuel (offGrid (sessionAt stateHalves "ABC123"))) 5 (half 3)
           emptyBoard (offGrid (sessionAt stateHalves "ABC123")) Red dir) /\
  existsb (fun dir => 4 <=? countAxisWalk 20 5 (half 3) emptyBoard
                              (offGrid (sessionAt stateHalves "ABC123")) Red dir) dirs
    = checkWinWalk 5 (half 3) emptyBoard (offGrid (sessionAt stateHalves "ABC123")) Red /\
  winningCellsWalk 20 dirs 5 (half 3) emptyBoard (offGrid (sessionAt stateHalves "ABC123")) Red
    = getWinningCellsWalk 5 (half 3) emptyBoard (offGrid (sessionAt stateHalves "ABC123")) Red.
Proof.
  apply (walk_fuel_enough 20 5 (half 3) emptyBoard
           (offGrid (sessionAt stateHalves "ABC123")) Red).
  - apply half_distinct.
  - vm_compute. lia.
Defined.

Lemma makeMove_unconvertible_witness :
  makeMove "a" "ABC123" Unconvertible Red 1 stateJoined = (stateJoined, [Uncaught]) /\
  handle (MakeMove "a" "ABC123" Unconvertible Red 1) stateJoined = Throws stateJoined [].
Proof.
  apply (makeMove_unconvertible "a" "ABC123" Red 1 stateJoined
           (sessionAt stateJoined "ABC123")).
  split; [vm_compute; reflexivity|]. split; [vm_compute; reflexivity|].
  split; [vm_compute; reflexivity|].
  split; [exists "a"%string|exists "b"%string]; vm_compute; reflexivity.
Defined.

Lemma inherited_name_events_witness :
  handle (JoinGame "a" "constructor") stateJoined = Throws stateJoined [] /\
  handle (RequestRematch "a" "constructor" 1) stateJoined = Throws stateJoined [] /\
  handle (LeaveGame "a" "constructor") stateJoined = Throws stateJoined [] /\
  handle (MakeMove "a" "constructor" (Whole 0) Red 1) stateJoined
    = Returns stateJoined [Emit "a" (errorMsg "It's not your turn.")] /\
  handle (AcceptRematch "a" "constructor" "XYZ789" 1) stateJoined
    = Returns stateJoined [Emit "a" (errorMsg "Invalid rematch acceptance.")] /\
  handle (DeclineRematch "a" "constructor") stateJoined
    = Returns stateJoined
        [EmitUndefined (rematchDeclined (nameOr stateJoined "a" "Opponent"))].
Proof.
  apply (inherited_name_events "a" "constructor" "XYZ789" (Whole 0) Red 1 stateJoined).
  - vm_compute. reflexivity.
  - vm_compute. reflexivity.
  - vm_compute. reflexivity.
Defined.
